(** * The deko3d renderer of nanovg-deko3d: a shallow embedding

    The renderer core of [source/dk_renderer.cpp] (class [DkRenderer] of
    [dk_renderer.hpp]): the texture registry, the image-descriptor slot
    allocator and the draw-call dispatcher.  The GPU is modelled by what the
    renderer hands to it: the commands recorded into the dynamic command
    buffer and the command lists submitted to the device queue.  The hex
    dump of [source/debug.cpp] is embedded beside it, with the debug channel
    as the list of messages sent. *)

From Stdlib Require Import ZArith Bool Lia Sorted.
From Stdlib Require Ascii Strings.Byte.
From stdpp Require Import base list strings.

Open Scope Z_scope.

(** ** Machine integers

    [int] is 32-bit two's complement on the target; [uint32_t] and [size_t]
    are reductions modulo 2^32 and 2^64. *)

Definition int_wrap (z : Z) : Z := (z + 2 ^ 31) mod 2 ^ 32 - 2 ^ 31.
Definition to_uint32 (z : Z) : Z := z mod 2 ^ 32.
Definition to_size_t (z : Z) : Z := z mod 2 ^ 64.
Definition INT_MAX : Z := 2 ^ 31 - 1.

(** C's [flags & BIT] used as a condition. *)
Definition has_flag (flags bit : Z) : bool := negb (Z.land flags bit =? 0).

(** ** Constants of the headers *)

(** [enum NVGcreateFlags] (dk_renderer.hpp). *)
Definition NVG_ANTIALIAS : Z := Z.shiftl 1 0.
Definition NVG_STENCIL_STROKES : Z := Z.shiftl 1 1.
Definition NVG_DEBUG : Z := Z.shiftl 1 2.

(** [enum DKNVGcallType]. *)
Definition DKNVG_NONE : Z := 0.
Definition DKNVG_FILL : Z := 1.
Definition DKNVG_CONVEXFILL : Z := 2.
Definition DKNVG_STROKE : Z := 3.
Definition DKNVG_TRIANGLES : Z := 4.

(** [enum SamplerType] and the private constants of [DkRenderer]. *)
Definition SamplerType_MipFilter : Z := Z.shiftl 1 0.
Definition SamplerType_Nearest : Z := Z.shiftl 1 1.
Definition SamplerType_RepeatX : Z := Z.shiftl 1 2.
Definition SamplerType_RepeatY : Z := Z.shiftl 1 3.
Definition NumFramebuffers : Z := 2.
Definition MaxImages : Z := 0x1000.

(** Values of nanovg.h ([enum NVGtexture], [enum NVGimageFlags]) and the
    size of its [struct NVGvertex] (four floats). *)
Definition NVG_TEXTURE_ALPHA : Z := 1.
Definition NVG_TEXTURE_RGBA : Z := 2.
Definition NVG_IMAGE_GENERATE_MIPMAPS : Z := Z.shiftl 1 0.
Definition NVG_IMAGE_REPEATX : Z := Z.shiftl 1 1.
Definition NVG_IMAGE_REPEATY : Z := Z.shiftl 1 2.
Definition NVG_IMAGE_NEAREST : Z := Z.shiftl 1 5.
Definition sizeof_NVGvertex : Z := 16.
Definition sizeof_View : Z := 8.

(** ** Records of dk_renderer.hpp *)

Record DKNVGtextureDescriptor := mkTextureDescriptor {
  tex_width : Z;
  tex_height : Z;
  tex_type : Z;
  tex_flags : Z
}.

Record DKNVGblend := mkBlend {
  srcRGB : Z;
  dstRGB : Z;
  srcAlpha : Z;
  dstAlpha : Z
}.

Record DKNVGcall := mkCall {
  call_type : Z;
  image : Z;
  pathOffset : Z;
  pathCount : Z;
  triangleOffset : Z;
  triangleCount : Z;
  uniformOffset : Z;
  blendFunc : DKNVGblend
}.

Record DKNVGpath := mkPath {
  fillOffset : Z;
  fillCount : Z;
  strokeOffset : Z;
  strokeCount : Z
}.

(** The fields of [DKNVGcontext] the renderer reads or writes.  [calls] and
    [paths] are the frame arrays behind the two pointers; the vertex and
    uniform bytes are only passed on to the device, by size and offset. *)
Record DKNVGcontext := mkContext {
  fragSize : Z;
  ctx_flags : Z;
  calls : list DKNVGcall;
  ncalls : Z;
  paths : list DKNVGpath;
  npaths : Z;
  nverts : Z;
  nuniforms : Z
}.

(** [class Texture]: the id and the descriptor; the image, its descriptor and
    its memory are device objects, named by the texture's id below. *)
Record Texture := mkTexture {
  Texture_id : Z;
  textureDescriptor : DKNVGtextureDescriptor
}.

(** ** The device interface: states and commands *)

Inductive DkCompareOp :=
  | DkCompareOp_Never | DkCompareOp_Less | DkCompareOp_Equal
  | DkCompareOp_Lequal | DkCompareOp_Greater | DkCompareOp_NotEqual
  | DkCompareOp_Gequal | DkCompareOp_Always.

Inductive DkStencilOp :=
  | DkStencilOp_Keep | DkStencilOp_Zero | DkStencilOp_Replace
  | DkStencilOp_Incr | DkStencilOp_Decr | DkStencilOp_Invert
  | DkStencilOp_IncrWrap | DkStencilOp_DecrWrap.

Inductive DkFace :=
  | DkFace_None | DkFace_Front | DkFace_Back | DkFace_FrontAndBack.

Inductive DkPrimitive :=
  | DkPrimitive_Triangles | DkPrimitive_TriangleStrip | DkPrimitive_TriangleFan.

Inductive DkStage := DkStage_Vertex | DkStage_Fragment.

(** The stencil part of [dk::DepthStencilState], the only part the renderer
    sets. *)
Record DepthStencilState := mkDepthStencilState {
  stencilTestEnable : bool;
  stencilFrontCompareOp : DkCompareOp;
  stencilFrontFailOp : DkStencilOp;
  stencilFrontDepthFailOp : DkStencilOp;
  stencilFrontPassOp : DkStencilOp;
  stencilBackCompareOp : DkCompareOp;
  stencilBackFailOp : DkStencilOp;
  stencilBackDepthFailOp : DkStencilOp;
  stencilBackPassOp : DkStencilOp
}.

(** [dk::DepthStencilState{}]: deko3d's defaults (stencil test off, compare
    always, every op keep). *)
Definition DepthStencilState_default : DepthStencilState :=
  mkDepthStencilState false
    DkCompareOp_Always DkStencilOp_Keep DkStencilOp_Keep DkStencilOp_Keep
    DkCompareOp_Always DkStencilOp_Keep DkStencilOp_Keep DkStencilOp_Keep.

Definition setStencilTestEnable (b : bool) (s : DepthStencilState) :=
  mkDepthStencilState b
    (stencilFrontCompareOp s) (stencilFrontFailOp s)
    (stencilFrontDepthFailOp s) (stencilFrontPassOp s)
    (stencilBackCompareOp s) (stencilBackFailOp s)
    (stencilBackDepthFailOp s) (stencilBackPassOp s).

Definition setStencilFrontCompareOp (c : DkCompareOp) (s : DepthStencilState) :=
  mkDepthStencilState (stencilTestEnable s)
    c (stencilFrontFailOp s)
    (stencilFrontDepthFailOp s) (stencilFrontPassOp s)
    (stencilBackCompareOp s) (stencilBackFailOp s)
    (stencilBackDepthFailOp s) (stencilBackPassOp s).

Definition setStencilFrontFailOp (o : DkStencilOp) (s : DepthStencilState) :=
  mkDepthStencilState (stencilTestEnable s)
    (stencilFrontCompareOp s) o
    (stencilFrontDepthFailOp s) (stencilFrontPassOp s)
    (stencilBackCompareOp s) (stencilBackFailOp s)
    (stencilBackDepthFailOp s) (stencilBackPassOp s).

Definition setStencilFrontDepthFailOp (o : DkStencilOp) (s : DepthStencilState) :=
  mkDepthStencilState (stencilTestEnable s)
    (stencilFrontCompareOp s) (stencilFrontFailOp s)
    o (stencilFrontPassOp s)
    (stencilBackCompareOp s) (stencilBackFailOp s)
    (stencilBackDepthFailOp s) (stencilBackPassOp s).

Definition setStencilFrontPassOp (o : DkStencilOp) (s : DepthStencilState) :=
  mkDepthStencilState (stencilTestEnable s)
    (stencilFrontCompareOp s) (stencilFrontFailOp s)
    (stencilFrontDepthFailOp s) o
    (stencilBackCompareOp s) (stencilBackFailOp s)
    (stencilBackDepthFailOp s) (stencilBackPassOp s).

Definition setStencilBackCompareOp (c : DkCompareOp) (s : DepthStencilState) :=
  mkDepthStencilState (stencilTestEnable s)
    (stencilFrontCompareOp s) (stencilFrontFailOp s)
    (stencilFrontDepthFailOp s) (stencilFrontPassOp s)
    c (stencilBackFailOp s)
    (stencilBackDepthFailOp s) (stencilBackPassOp s).

Definition setStencilBackFailOp (o : DkStencilOp) (s : DepthStencilState) :=
  mkDepthStencilState (stencilTestEnable s)
    (stencilFrontCompareOp s) (stencilFrontFailOp s)
    (stencilFrontDepthFailOp s) (stencilFrontPassOp s)
    (stencilBackCompareOp s) o
    (stencilBackDepthFailOp s) (stencilBackPassOp s).

Definition setStencilBackDepthFailOp (o : DkStencilOp) (s : DepthStencilState) :=
  mkDepthStencilState (stencilTestEnable s)
    (stencilFrontCompareOp s) (stencilFrontFailOp s)
    (stencilFrontDepthFailOp s) (stencilFrontPassOp s)
    (stencilBackCompareOp s) (stencilBackFailOp s)
    o (stencilBackPassOp s).

Definition setStencilBackPassOp (o : DkStencilOp) (s : DepthStencilState) :=
  mkDepthStencilState (stencilTestEnable s)
    (stencilFrontCompareOp s) (stencilFrontFailOp s)
    (stencilFrontDepthFailOp s) (stencilFrontPassOp s)
    (stencilBackCompareOp s) (stencilBackFailOp s)
    (stencilBackDepthFailOp s) o.

(** deko3d's defaults of [dk::ColorWriteState{}] (all four channels) and of
    [dk::RasterizerState{}] (back faces culled). *)
Definition DkColorMask_RGBA : Z := 15.
Definition RasterizerState_default_cullMode : DkFace := DkFace_Back.

(** The two uniform buffers of the renderer and where pushed constants come
    from: the view size, or [ctx->uniforms + offset]. *)
Inductive UniformBuffer := viewUniformBuffer | fragUniformBuffer.

Inductive ConstantSource :=
  | ViewSize (viewWidth viewHeight : Z)
  | CtxUniforms (offset : Z).

(** [dkMakeTextureHandle(imageDescId, samplerId)], kept unpacked. *)
Record DkResHandle := dkMakeTextureHandle {
  handle_image : Z;
  handle_sampler : Z
}.

(** The commands the renderer records.  [UpdateImageDescriptor slot tex] is
    [imageDescriptorSet.update(cmdbuf, slot, descriptor of texture tex)];
    [CopyBufferToImage] carries the staging copy made by [UpdateImage]: the
    source address, the number of bytes staged and the destination box. *)
Inductive Cmd :=
  | BindColorState (blendEnable : bool)
  | BindShaders
  | BindVtxAttribState
  | BindVtxBufferState
  | BindVtxBuffer (size : Z)
  | PushConstants (buf : UniformBuffer) (size : Z) (src : ConstantSource)
  | BindUniformBuffer (stage : DkStage) (buf : UniformBuffer)
  | BindBlendStates (srcRGBFactor dstRGBFactor srcAlphaFactor dstAlphaFactor : Z)
  | SetStencil (face : DkFace) (mask funcRef funcMask : Z)
  | BindDepthStencilState (s : DepthStencilState)
  | BindColorWriteState (mask : Z)
  | BindRasterizerState (cullMode : DkFace)
  | Draw (prim : DkPrimitive) (vertexCount instanceCount firstVertex firstInstance : Z)
  | UpdateImageDescriptor (slot : Z) (tex : Z)
  | Barrier_InvalidateDescriptors
  | BindTextures (stage : DkStage) (handle : DkResHandle)
  | CopyBufferToImage (tex : Z) (src : Z) (imageSize : Z)
      (x y z width height depth : Z).

(** ** The renderer state

    [dynCmdBuf] holds the commands of the command list being recorded,
    [queue] the command lists submitted so far, oldest first. *)
Record DkRenderer := mkRenderer {
  viewWidth : Z;
  viewHeight : Z;
  dynCmdBuf : list Cmd;
  dynCmdMem : Z;
  queue : list (list Cmd);
  vertexBuffer : option Z;
  nextTextureId : Z;
  textures : list Texture;
  imageDescriptorMappings : list Z;
  lastImageDescriptor : Z
}.

Definition set_dynCmdBuf (v : list Cmd) (r : DkRenderer) : DkRenderer :=
  mkRenderer (viewWidth r) (viewHeight r) v (dynCmdMem r) (queue r)
    (vertexBuffer r) (nextTextureId r) (textures r)
    (imageDescriptorMappings r) (lastImageDescriptor r).

Definition set_dynCmdMem (v : Z) (r : DkRenderer) : DkRenderer :=
  mkRenderer (viewWidth r) (viewHeight r) (dynCmdBuf r) v (queue r)
    (vertexBuffer r) (nextTextureId r) (textures r)
    (imageDescriptorMappings r) (lastImageDescriptor r).

Definition set_queue (v : list (list Cmd)) (r : DkRenderer) : DkRenderer :=
  mkRenderer (viewWidth r) (viewHeight r) (dynCmdBuf r) (dynCmdMem r) v
    (vertexBuffer r) (nextTextureId r) (textures r)
    (imageDescriptorMappings r) (lastImageDescriptor r).

Definition set_vertexBuffer (v : option Z) (r : DkRenderer) : DkRenderer :=
  mkRenderer (viewWidth r) (viewHeight r) (dynCmdBuf r) (dynCmdMem r) (queue r)
    v (nextTextureId r) (textures r)
    (imageDescriptorMappings r) (lastImageDescriptor r).

Definition set_nextTextureId (v : Z) (r : DkRenderer) : DkRenderer :=
  mkRenderer (viewWidth r) (viewHeight r) (dynCmdBuf r) (dynCmdMem r) (queue r)
    (vertexBuffer r) v (textures r)
    (imageDescriptorMappings r) (lastImageDescriptor r).

Definition set_textures (v : list Texture) (r : DkRenderer) : DkRenderer :=
  mkRenderer (viewWidth r) (viewHeight r) (dynCmdBuf r) (dynCmdMem r) (queue r)
    (vertexBuffer r) (nextTextureId r) v
    (imageDescriptorMappings r) (lastImageDescriptor r).

Definition set_imageDescriptorMappings (v : list Z) (r : DkRenderer) : DkRenderer :=
  mkRenderer (viewWidth r) (viewHeight r) (dynCmdBuf r) (dynCmdMem r) (queue r)
    (vertexBuffer r) (nextTextureId r) (textures r)
    v (lastImageDescriptor r).

Definition set_lastImageDescriptor (v : Z) (r : DkRenderer) : DkRenderer :=
  mkRenderer (viewWidth r) (viewHeight r) (dynCmdBuf r) (dynCmdMem r) (queue r)
    (vertexBuffer r) (nextTextureId r) (textures r)
    (imageDescriptorMappings r) v.

(** The renderer after its constructor has run and the sampler setup list has
    been retired: every slot free, high-water mark 0, next id 1. *)
Definition DkRenderer_new (vw vh : Z) : DkRenderer :=
  mkRenderer vw vh [] 0 [] None 1 []
    (replicate (Z.to_nat MaxImages) 0) 0.

(** ** A state monad over the renderer *)

Definition M (A : Type) : Type := DkRenderer -> A * DkRenderer.

Definition ret {A} (a : A) : M A := fun r => (a, r).
Definition bind {A B} (c : M A) (k : A -> M B) : M B :=
  fun r => let (a, r') := c r in k a r'.
Definition get : M DkRenderer := fun r => (r, r).
Definition modify (f : DkRenderer -> DkRenderer) : M unit := fun r => (tt, f r).

Notation "x <- c ;; k" := (bind c (fun x => k))
  (at level 100, c at next level, right associativity).
Notation "c ;;; k" := (bind c (fun _ => k))
  (at level 100, right associativity).

(** [this->dynCmdBuf.cmd(...)]. *)
Definition record (c : Cmd) : M unit :=
  modify (fun r => set_dynCmdBuf (dynCmdBuf r ++ [c]) r).

(** [for (int i = 0; i < n; i++) body(i)], unrolled on the trip count. *)
Fixpoint for_loop (trips : nat) (i : Z) (body : Z -> M unit) : M unit :=
  match trips with
  | O => ret tt
  | S k => body i ;;; for_loop k (i + 1) body
  end.

Definition for_upto (n : Z) (body : Z -> M unit) : M unit :=
  for_loop (Z.to_nat n) 0 body.

(** ** The device queue and the command-memory ring *)

(** [queue.submitCommands(list)]; [queue.waitIdle()] blocks and changes
    nothing that is modelled. *)
Definition queue_submitCommands (cmdlist : list Cmd) : M unit :=
  modify (fun r => set_queue (queue r ++ [cmdlist]) r).

Definition queue_waitIdle : M unit := ret tt.

(** Modelled from the spec: [CCmdMemRing] (framework/CCmdMemRing.h) is not
    among the sources.  By the spec's section 4.4, [begin] binds fresh memory
    into the shared command buffer before recording, and [end] finalizes the
    recorded command list for submission and moves on to the next of the
    [NumFramebuffers] memory regions. *)
Definition dynCmdMem_begin : M unit :=
  modify (set_dynCmdBuf []).

(** Modelled from the spec: [CCmdMemRing::end], as above; the result is the
    finished command list. *)
Definition dynCmdMem_end : M (list Cmd) :=
  r <- get ;;
  modify (set_dynCmdMem ((dynCmdMem r + 1) mod NumFramebuffers)) ;;;
  modify (set_dynCmdBuf []) ;;;
  ret (dynCmdBuf r).

(** ** Texture upload *)

(** [UpdateImage] of the anonymous namespace.  Pointers are addresses, the
    null pointer is 0; [tex] names the destination image.  The definition
    gives what a call that returns leaves behind; where the staging of the
    pixels (lines 43-45) is defined is [UpdateImage_returns] below. *)
Definition UpdateImage (tex type x y w h data : Z) : M unit :=
  if data =? 0 then ret tt
  else
    let imageSize :=
      to_size_t (if type =? NVG_TEXTURE_RGBA
                 then int_wrap (int_wrap (w * h) * 4)
                 else int_wrap (w * h)) in
    queue_submitCommands
      [CopyBufferToImage tex data imageSize
         (to_uint32 x) (to_uint32 y) 0 (to_uint32 w) (to_uint32 h) 1] ;;;
    queue_waitIdle.

(** *** The machine under an upload

    Before the copy [UpdateImage] stages the pixels: it takes [imageSize]
    bytes from the scratch pool and copies [imageSize] bytes from [data]
    into them.  The renderer state holds no memory; a [Host] gives what
    these two steps find: the bytes the scratch pool can hand out, and the
    ranges of the caller's memory that can be read ([readable p n]: the [n]
    bytes at address [p]). *)
Record Host := mkHost {
  scratch_available : Z;
  readable : Z -> Z -> bool
}.

(** [type == NVG_TEXTURE_RGBA ? a * b * 4 : a * b] as a number: the bytes
    [UpdateImage] stages for [a = w], [b = h], and the offset
    [UpdateTexture] adds to [data] for [a = y], [b = width]. *)
Definition pixel_bytes (type a b : Z) : Z :=
  if type =? NVG_TEXTURE_RGBA then a * b * 4 else a * b.

(** [UpdateImage] returns: it is called with null data and returns at once;
    or [data] is an address, the extent is not negative, the [int] products
    of [imageSize] do not overflow, the scratch pool holds [imageSize] bytes
    and [imageSize] bytes can be read at [data]. *)
Definition UpdateImage_returns (host : Host) (type w h data : Z) : bool :=
  (data =? 0)
  || ((0 <? data) && (0 <=? w) && (0 <=? h)
      && (pixel_bytes type w h <=? INT_MAX)
      && (pixel_bytes type w h <=? scratch_available host)
      && readable host data (pixel_bytes type w h)).

(** [Texture::Initialize] on the texture made by [Texture::Texture(id)]. *)
Definition Texture_Initialize (id type w h imageFlags data : Z) : M Texture :=
  let texture := mkTexture id (mkTextureDescriptor w h type imageFlags) in
  (if negb (data =? 0) then UpdateImage id type 0 0 w h data else ret tt) ;;;
  ret texture.

(** ** The descriptor slot allocator *)

(** [imageDescriptorMappings[desc]]; the renderer only indexes the array
    inside its bounds.  Slot indices stay below [MaxImages], so the index
    arithmetic of the two scans ([desc++], [lastImageDescriptor + 1]) never
    leaves [int] and is written without wrap-around. *)
Definition mapping_at (m : list Z) (desc : Z) : Z :=
  default 0 (m !! Z.to_nat desc).

Inductive ScanResult :=
  | Found (desc : Z)
  | NotFound (freeImageDescriptor : Z).

(** The loop of [AcquireImageDescriptor], from [desc] on, with [trips]
    iterations left. *)
Fixpoint acquire_scan (m : list Z) (last image : Z)
    (trips : nat) (desc freeImageDescriptor : Z) : ScanResult :=
  match trips with
  | O => NotFound freeImageDescriptor
  | S k =>
      let mapping := mapping_at m desc in
      if mapping =? image then Found desc
      else if (mapping =? 0) && (freeImageDescriptor =? last + 1)
      then acquire_scan m last image k (desc + 1) desc
      else acquire_scan m last image k (desc + 1) freeImageDescriptor
  end.

Definition AcquireImageDescriptor (texture : Texture) (image : Z) : M Z :=
  r <- get ;;
  let last := lastImageDescriptor r in
  match acquire_scan (imageDescriptorMappings r) last image
          (Z.to_nat (last + 1)) 0 (last + 1) with
  | Found desc => ret desc
  | NotFound freeImageDescriptor =>
      if freeImageDescriptor >=? MaxImages then ret (-1)
      else
        record (UpdateImageDescriptor freeImageDescriptor (Texture_id texture)) ;;;
        record Barrier_InvalidateDescriptors ;;;
        modify (fun r => set_imageDescriptorMappings
                  (<[Z.to_nat freeImageDescriptor := image]>
                     (imageDescriptorMappings r)) r) ;;;
        modify (set_lastImageDescriptor freeImageDescriptor) ;;;
        ret freeImageDescriptor
  end.

(** The loop of [FreeImageDescriptor]; the debug print is not modelled. *)
Fixpoint free_scan (image : Z) (trips : nat) (desc : Z) (m : list Z) : list Z :=
  match trips with
  | O => m
  | S k =>
      free_scan image k (desc + 1)
        (if mapping_at m desc =? image then <[Z.to_nat desc := 0]> m else m)
  end.

Definition FreeImageDescriptor (image : Z) : M unit :=
  modify (fun r => set_imageDescriptorMappings
            (free_scan image (Z.to_nat (lastImageDescriptor r + 1)) 0
               (imageDescriptorMappings r)) r).

(** ** The texture registry *)

Fixpoint find_texture (id : Z) (ts : list Texture) : option Texture :=
  match ts with
  | [] => None
  | t :: rest => if Texture_id t =? id then Some t else find_texture id rest
  end.

Definition FindTexture (r : DkRenderer) (id : Z) : option Texture :=
  find_texture id (textures r).

Definition CreateTexture (type w h imageFlags data : Z) : M Z :=
  r <- get ;;
  let textureId := nextTextureId r in
  modify (set_nextTextureId (int_wrap (textureId + 1))) ;;;
  texture <- Texture_Initialize textureId type w h imageFlags data ;;
  modify (fun r => set_textures (textures r ++ [texture]) r) ;;;
  ret (Texture_id texture).

(** The erase loop of [DeleteTexture]: the textures kept and [found]. *)
Fixpoint erase_textures (image : Z) (ts : list Texture) (found : bool)
    : list Texture * bool :=
  match ts with
  | [] => ([], found)
  | t :: rest =>
      if Texture_id t =? image then erase_textures image rest true
      else let (kept, found') := erase_textures image rest found in
           (t :: kept, found')
  end.

Definition DeleteTexture (image : Z) : M Z :=
  r <- get ;;
  let (kept, found) := erase_textures image (textures r) false in
  modify (set_textures kept) ;;;
  FreeImageDescriptor image ;;;
  ret (if found then 1 else 0).

Definition UpdateTexture (image x y w h data : Z) : M Z :=
  r <- get ;;
  match FindTexture r image with
  | None => ret 0
  | Some texture =>
      let texDesc := textureDescriptor texture in
      let data :=
        if tex_type texDesc =? NVG_TEXTURE_RGBA
        then data + int_wrap (int_wrap (y * tex_width texDesc) * 4)
        else data + int_wrap (y * tex_width texDesc) in
      let x := 0 in
      let w := tex_width texDesc in
      UpdateImage (Texture_id texture) (tex_type texDesc) x y w h data ;;;
      ret 1
  end.

(** [UpdateTexture] on a registered texture returns: the row offset it adds
    to [data] is not negative and does not overflow [int]; null data comes
    with offset 0, no offset is added to a null pointer; non-null data is an
    address and [UpdateImage] returns on the advanced pointer. *)
Definition UpdateTexture_returns (host : Host) (texture : Texture) (y h data : Z)
    : bool :=
  let texDesc := textureDescriptor texture in
  let offset := pixel_bytes (tex_type texDesc) y (tex_width texDesc) in
  (0 <=? offset) && (offset <=? INT_MAX)
  && (if data =? 0 then offset =? 0
      else (0 <? data)
           && UpdateImage_returns host (tex_type texDesc) (tex_width texDesc) h
                (data + offset)).

Definition GetTextureDescriptor (r : DkRenderer) (id : Z)
    : option DKNVGtextureDescriptor :=
  match find_texture id (textures r) with
  | Some t => Some (textureDescriptor t)
  | None => None
  end.

(** [GetTextureSize]: [w] and [h] are the values at the two output
    locations; the result is the return value and their values afterwards. *)
Definition GetTextureSize (r : DkRenderer) (image w h : Z) : Z * Z * Z :=
  match GetTextureDescriptor r image with
  | None => (0, w, h)
  | Some descriptor => (1, tex_width descriptor, tex_height descriptor)
  end.

(** ** The draw-call dispatcher *)

Definition UpdateVertexBuffer (size : Z) : M unit :=
  modify (set_vertexBuffer (Some size)).

Definition sampler_bit (imageFlags flag bit samplerId : Z) : Z :=
  if has_flag imageFlags flag then Z.lor samplerId bit else samplerId.

Definition SetUniforms (ctx : DKNVGcontext) (offset image : Z) : M unit :=
  record (PushConstants fragUniformBuffer (fragSize ctx) (CtxUniforms offset)) ;;;
  record (BindUniformBuffer DkStage_Fragment fragUniformBuffer) ;;;
  r <- get ;;
  match FindTexture r image with
  | None => ret tt
  | Some texture =>
      imageDescId <- AcquireImageDescriptor texture image ;;
      if imageDescId =? -1 then ret tt
      else
        let imageFlags := tex_flags (textureDescriptor texture) in
        let samplerId := 0 in
        let samplerId := sampler_bit imageFlags NVG_IMAGE_GENERATE_MIPMAPS SamplerType_MipFilter samplerId in
        let samplerId := sampler_bit imageFlags NVG_IMAGE_NEAREST SamplerType_Nearest samplerId in
        let samplerId := sampler_bit imageFlags NVG_IMAGE_REPEATX SamplerType_RepeatX samplerId in
        let samplerId := sampler_bit imageFlags NVG_IMAGE_REPEATY SamplerType_RepeatY samplerId in
        record (BindTextures DkStage_Fragment (dkMakeTextureHandle imageDescId samplerId))
  end.

(** [ctx->calls[i]] and [(&ctx->paths[pathOffset])[i]]; the producer keeps
    the indices inside the arrays. *)
Definition DKNVGpath_zero : DKNVGpath := mkPath 0 0 0 0.
Definition DKNVGcall_zero : DKNVGcall := mkCall 0 0 0 0 0 0 0 (mkBlend 0 0 0 0).

Definition call_at (ctx : DKNVGcontext) (i : Z) : DKNVGcall :=
  default DKNVGcall_zero (calls ctx !! Z.to_nat i).

Definition path_at (ctx : DKNVGcontext) (call : DKNVGcall) (i : Z) : DKNVGpath :=
  default DKNVGpath_zero (paths ctx !! Z.to_nat (pathOffset call + i)).

Definition draw_fill_fans (ctx : DKNVGcontext) (call : DKNVGcall) : M unit :=
  for_upto (pathCount call) (fun i =>
    record (Draw DkPrimitive_TriangleFan
              (fillCount (path_at ctx call i)) 1 (fillOffset (path_at ctx call i)) 0)).

Definition draw_stroke_strips (ctx : DKNVGcontext) (call : DKNVGcall) : M unit :=
  for_upto (pathCount call) (fun i =>
    record (Draw DkPrimitive_TriangleStrip
              (strokeCount (path_at ctx call i)) 1 (strokeOffset (path_at ctx call i)) 0)).

Definition DrawFill (ctx : DKNVGcontext) (call : DKNVGcall) : M unit :=
  record (SetStencil DkFace_FrontAndBack 0xFF 0x0 0xFF) ;;;
  let depthStencilState :=
    setStencilBackPassOp DkStencilOp_DecrWrap
      (setStencilBackDepthFailOp DkStencilOp_Keep
      (setStencilBackFailOp DkStencilOp_Keep
      (setStencilBackCompareOp DkCompareOp_Always
      (setStencilFrontPassOp DkStencilOp_IncrWrap
      (setStencilFrontDepthFailOp DkStencilOp_Keep
      (setStencilFrontFailOp DkStencilOp_Keep
      (setStencilFrontCompareOp DkCompareOp_Always
      (setStencilTestEnable true DepthStencilState_default)))))))) in
  record (BindDepthStencilState depthStencilState) ;;;
  record (BindColorWriteState 0) ;;;
  SetUniforms ctx (uniformOffset call) 0 ;;;
  record (BindRasterizerState DkFace_None) ;;;
  draw_fill_fans ctx call ;;;
  record (BindColorWriteState DkColorMask_RGBA) ;;;
  SetUniforms ctx (int_wrap (uniformOffset call + fragSize ctx)) (image call) ;;;
  record (BindRasterizerState RasterizerState_default_cullMode) ;;;
  let depthStencilState_aa :=
    setStencilBackPassOp DkStencilOp_Keep
      (setStencilBackDepthFailOp DkStencilOp_Keep
      (setStencilBackFailOp DkStencilOp_Keep
      (setStencilBackCompareOp DkCompareOp_Equal
      (setStencilFrontPassOp DkStencilOp_Keep
      (setStencilFrontDepthFailOp DkStencilOp_Keep
      (setStencilFrontFailOp DkStencilOp_Keep
      (setStencilFrontCompareOp DkCompareOp_Equal depthStencilState))))))) in
  (if has_flag (ctx_flags ctx) NVG_ANTIALIAS
   then record (BindDepthStencilState depthStencilState_aa) ;;;
        draw_stroke_strips ctx call
   else ret tt) ;;;
  let depthStencilState :=
    if has_flag (ctx_flags ctx) NVG_ANTIALIAS
    then depthStencilState_aa else depthStencilState in
  let depthStencilState :=
    setStencilBackPassOp DkStencilOp_Zero
      (setStencilBackDepthFailOp DkStencilOp_Zero
      (setStencilBackFailOp DkStencilOp_Zero
      (setStencilBackCompareOp DkCompareOp_NotEqual
      (setStencilFrontPassOp DkStencilOp_Zero
      (setStencilFrontDepthFailOp DkStencilOp_Zero
      (setStencilFrontFailOp DkStencilOp_Zero
      (setStencilFrontCompareOp DkCompareOp_NotEqual depthStencilState))))))) in
  record (BindDepthStencilState depthStencilState) ;;;
  record (Draw DkPrimitive_TriangleStrip (triangleCount call) 1 (triangleOffset call) 0) ;;;
  record (BindDepthStencilState DepthStencilState_default).

Definition DrawConvexFill (ctx : DKNVGcontext) (call : DKNVGcall) : M unit :=
  SetUniforms ctx (uniformOffset call) (image call) ;;;
  for_upto (pathCount call) (fun i =>
    record (Draw DkPrimitive_TriangleFan
              (fillCount (path_at ctx call i)) 1 (fillOffset (path_at ctx call i)) 0) ;;;
    if strokeCount (path_at ctx call i) >? 0
    then record (Draw DkPrimitive_TriangleStrip
                   (strokeCount (path_at ctx call i)) 1
                   (strokeOffset (path_at ctx call i)) 0)
    else ret tt).

(** In the stencil branch the state configured "for clearing the stencil
    buffer" is assigned to the local [depthStencilState] and not bound: the
    source has no [bindDepthStencilState] between that assignment and the
    third loop of draws. *)
Definition DrawStroke (ctx : DKNVGcontext) (call : DKNVGcall) : M unit :=
  if has_flag (ctx_flags ctx) NVG_STENCIL_STROKES
  then
    record (SetStencil DkFace_Front 0xFF 0x0 0xFF) ;;;
    let depthStencilState :=
      setStencilFrontPassOp DkStencilOp_Incr
        (setStencilFrontDepthFailOp DkStencilOp_Keep
        (setStencilFrontFailOp DkStencilOp_Keep
        (setStencilFrontCompareOp DkCompareOp_Equal
        (setStencilTestEnable true DepthStencilState_default)))) in
    record (BindDepthStencilState depthStencilState) ;;;
    SetUniforms ctx (int_wrap (uniformOffset call + fragSize ctx)) (image call) ;;;
    draw_stroke_strips ctx call ;;;
    let depthStencilState :=
      setStencilFrontPassOp DkStencilOp_Keep depthStencilState in
    record (BindDepthStencilState depthStencilState) ;;;
    SetUniforms ctx (uniformOffset call) (image call) ;;;
    draw_stroke_strips ctx call ;;;
    let depthStencilState :=
      setStencilFrontPassOp DkStencilOp_Zero
        (setStencilFrontDepthFailOp DkStencilOp_Zero
        (setStencilFrontFailOp DkStencilOp_Zero
        (setStencilFrontCompareOp DkCompareOp_Always
        (setStencilTestEnable true depthStencilState)))) in
    draw_stroke_strips ctx call ;;;
    record (BindDepthStencilState DepthStencilState_default)
  else
    SetUniforms ctx (uniformOffset call) (image call) ;;;
    draw_stroke_strips ctx call.

Definition DrawTriangles (ctx : DKNVGcontext) (call : DKNVGcall) : M unit :=
  SetUniforms ctx (uniformOffset call) (image call) ;;;
  record (Draw DkPrimitive_Triangles (triangleCount call) 1 (triangleOffset call) 0).

(** The [if]/[else if] chain of [Flush] on [call->type]. *)
Definition dispatch (ctx : DKNVGcontext) (call : DKNVGcall) : M unit :=
  if call_type call =? DKNVG_FILL then DrawFill ctx call
  else if call_type call =? DKNVG_CONVEXFILL then DrawConvexFill ctx call
  else if call_type call =? DKNVG_STROKE then DrawStroke ctx call
  else if call_type call =? DKNVG_TRIANGLES then DrawTriangles ctx call
  else ret tt.

(** The body of the loop over the calls in [Flush]. *)
Definition Flush_call (ctx : DKNVGcontext) (i : Z) : M unit :=
  let call := call_at ctx i in
  record (BindBlendStates
            (srcRGB (blendFunc call)) (dstRGB (blendFunc call))
            (srcAlpha (blendFunc call)) (dstRGB (blendFunc call))) ;;;
  dispatch ctx call ;;;
  cmdlist <- dynCmdMem_end ;;
  queue_submitCommands cmdlist ;;;
  queue_waitIdle.

Definition reset_calls (ctx : DKNVGcontext) : DKNVGcontext :=
  mkContext (fragSize ctx) (ctx_flags ctx) (calls ctx) 0 (paths ctx) 0 0 0.

Definition Flush (ctx : DKNVGcontext) : M DKNVGcontext :=
  (if ncalls ctx >? 0
   then
     dynCmdMem_begin ;;;
     UpdateVertexBuffer (to_size_t (to_size_t (nverts ctx) * sizeof_NVGvertex)) ;;;
     record (BindColorState true) ;;;
     record BindShaders ;;;
     record BindVtxAttribState ;;;
     record BindVtxBufferState ;;;
     r <- get ;;
     record (BindVtxBuffer (default 0 (vertexBuffer r))) ;;;
     record (PushConstants viewUniformBuffer sizeof_View
               (ViewSize (viewWidth r) (viewHeight r))) ;;;
     record (BindUniformBuffer DkStage_Vertex viewUniformBuffer) ;;;
     for_upto (ncalls ctx) (Flush_call ctx)
   else ret tt) ;;;
  ret (reset_calls ctx).

(** ** Runs of the public texture operations and of the allocator *)

Inductive RegistryOp :=
  | OpCreateTexture (type w h imageFlags data : Z)
  | OpDeleteTexture (image : Z).

(** The ids returned by the [CreateTexture] calls of a run, in order. *)
Fixpoint run_registry (ops : list RegistryOp) : M (list Z) :=
  match ops with
  | [] => ret []
  | OpCreateTexture type w h imageFlags data :: rest =>
      id <- CreateTexture type w h imageFlags data ;;
      ids <- run_registry rest ;;
      ret (id :: ids)
  | OpDeleteTexture image :: rest =>
      DeleteTexture image ;;; run_registry rest
  end.

Fixpoint count_creates (ops : list RegistryOp) : Z :=
  match ops with
  | [] => 0
  | OpCreateTexture _ _ _ _ _ :: rest => 1 + count_creates rest
  | OpDeleteTexture _ :: rest => count_creates rest
  end.

Inductive AllocOp :=
  | Acquire (texture : Texture) (image : Z)
  | Release (image : Z).

(** The slots returned by the [Acquire]s of a run, in order. *)
Fixpoint run_alloc (ops : list AllocOp) : M (list Z) :=
  match ops with
  | [] => ret []
  | Acquire texture image :: rest =>
      slot <- AcquireImageDescriptor texture image ;;
      slots <- run_alloc rest ;;
      ret (slot :: slots)
  | Release image :: rest =>
      FreeImageDescriptor image ;;; run_alloc rest
  end.

(** ** Reading command lists *)

(** The commands an operation appends to the list being recorded. *)
Definition recorded_by {A} (c : M A) (r : DkRenderer) : list Cmd :=
  drop (length (dynCmdBuf r)) (dynCmdBuf (snd (c r))).

Definition is_draw (c : Cmd) : bool :=
  match c with Draw _ _ _ _ _ => true | _ => false end.

Definition is_BindUniformBuffer (c : Cmd) : bool :=
  match c with BindUniformBuffer _ _ => true | _ => false end.

Definition is_BindTextures (c : Cmd) : bool :=
  match c with BindTextures _ _ => true | _ => false end.

Definition is_UpdateImageDescriptor (c : Cmd) : bool :=
  match c with UpdateImageDescriptor _ _ => true | _ => false end.

(** Each draw of a command list with the depth-stencil state bound when it
    is issued; [bound] is the state bound before the list. *)
Fixpoint draws_with_state (bound : DepthStencilState) (cs : list Cmd)
    : list (Cmd * DepthStencilState) :=
  match cs with
  | [] => []
  | BindDepthStencilState s :: rest => draws_with_state s rest
  | Draw p n i f fi :: rest => (Draw p n i f fi, bound) :: draws_with_state bound rest
  | _ :: rest => draws_with_state bound rest
  end.

(** The slots that map [image]. *)
Definition slots_of (r : DkRenderer) (image : Z) : list Z :=
  List.filter (fun desc => mapping_at (imageDescriptorMappings r) desc =? image)
    (seqZ 0 MaxImages).

(** Bytes per pixel of a texture type: 4 for RGBA, 1 otherwise. *)
Definition bytes_per_pixel (type : Z) : Z :=
  if type =? NVG_TEXTURE_RGBA then 4 else 1.

(** [a * b] in [int]. *)
Definition int_mul (a b : Z) : Z := int_wrap (a * b).

(** The state bound for the first pass of a stencil stroke and the one
    bound for the second. *)
Definition stroke_fill_state : DepthStencilState :=
  mkDepthStencilState true
    DkCompareOp_Equal DkStencilOp_Keep DkStencilOp_Keep DkStencilOp_Incr
    DkCompareOp_Always DkStencilOp_Keep DkStencilOp_Keep DkStencilOp_Keep.

Definition stroke_aa_state : DepthStencilState :=
  mkDepthStencilState true
    DkCompareOp_Equal DkStencilOp_Keep DkStencilOp_Keep DkStencilOp_Keep
    DkCompareOp_Always DkStencilOp_Keep DkStencilOp_Keep DkStencilOp_Keep.

(** ** The draws a call stands for *)

Definition path_indices (call : DKNVGcall) : list Z := seqZ 0 (pathCount call).

Definition fill_fan (ctx : DKNVGcontext) (call : DKNVGcall) (i : Z) : Cmd :=
  Draw DkPrimitive_TriangleFan
    (fillCount (path_at ctx call i)) 1 (fillOffset (path_at ctx call i)) 0.

Definition stroke_strip (ctx : DKNVGcontext) (call : DKNVGcall) (i : Z) : Cmd :=
  Draw DkPrimitive_TriangleStrip
    (strokeCount (path_at ctx call i)) 1 (strokeOffset (path_at ctx call i)) 0.

Definition fill_fans (ctx : DKNVGcontext) (call : DKNVGcall) : list Cmd :=
  List.map (fill_fan ctx call) (path_indices call).

Definition stroke_strips (ctx : DKNVGcontext) (call : DKNVGcall) : list Cmd :=
  List.map (stroke_strip ctx call) (path_indices call).

Definition convex_path_draws (ctx : DKNVGcontext) (call : DKNVGcall) (i : Z)
    : list Cmd :=
  fill_fan ctx call i ::
  (if strokeCount (path_at ctx call i) >? 0 then [stroke_strip ctx call i] else []).

Definition cover_strip (call : DKNVGcall) : Cmd :=
  Draw DkPrimitive_TriangleStrip (triangleCount call) 1 (triangleOffset call) 0.

Definition triangle_list (call : DKNVGcall) : Cmd :=
  Draw DkPrimitive_Triangles (triangleCount call) 1 (triangleOffset call) 0.

(** The draw commands of a call, by its type and the context's flags. *)
Definition call_draws (ctx : DKNVGcontext) (call : DKNVGcall) : list Cmd :=
  if call_type call =? DKNVG_FILL then
    fill_fans ctx call
    ++ (if has_flag (ctx_flags ctx) NVG_ANTIALIAS then stroke_strips ctx call else [])
    ++ [cover_strip call]
  else if call_type call =? DKNVG_CONVEXFILL then
    flat_map (convex_path_draws ctx call) (path_indices call)
  else if call_type call =? DKNVG_STROKE then
    if has_flag (ctx_flags ctx) NVG_STENCIL_STROKES
    then stroke_strips ctx call ++ stroke_strips ctx call ++ stroke_strips ctx call
    else stroke_strips ctx call
  else if call_type call =? DKNVG_TRIANGLES then [triangle_list call]
  else [].

(** The sampler selector [SetUniforms] composes from a texture's flags. *)
Definition samplerId_of_flags (imageFlags : Z) : Z :=
  sampler_bit imageFlags NVG_IMAGE_REPEATY SamplerType_RepeatY
    (sampler_bit imageFlags NVG_IMAGE_REPEATX SamplerType_RepeatX
       (sampler_bit imageFlags NVG_IMAGE_NEAREST SamplerType_Nearest
          (sampler_bit imageFlags NVG_IMAGE_GENERATE_MIPMAPS SamplerType_MipFilter 0))).

(** The two commands every [SetUniforms] records first. *)
Definition uniform_binding (ctx : DKNVGcontext) (offset : Z) : list Cmd :=
  [PushConstants fragUniformBuffer (fragSize ctx) (CtxUniforms offset);
   BindUniformBuffer DkStage_Fragment fragUniformBuffer].

Definition is_BindDepthStencilState (c : Cmd) : bool :=
  match c with BindDepthStencilState _ => true | _ => false end.

(** Commands that neither draw nor bind a depth-stencil state. *)
Definition is_state_neutral (c : Cmd) : bool :=
  negb (is_draw c) && negb (is_BindDepthStencilState c).

(** The draw commands of a command list. *)
Definition draws_of (cs : list Cmd) : list Cmd := List.filter is_draw cs.

(** [c], run from [r], appends exactly [cs] to the list being recorded. *)
Definition records {A} (c : M A) (r : DkRenderer) (cs : list Cmd) : Prop :=
  dynCmdBuf (snd (c r)) = dynCmdBuf r ++ cs.

(** The depth-stencil state bound after a command list. *)
Fixpoint bound_state (bound : DepthStencilState) (cs : list Cmd) : DepthStencilState :=
  match cs with
  | [] => bound
  | BindDepthStencilState s :: rest => bound_state s rest
  | _ :: rest => bound_state bound rest
  end.

(** The draws [ds], each issued under the state [s]. *)
Definition under (s : DepthStencilState) (ds : list Cmd) : list (Cmd * DepthStencilState) :=
  List.map (fun d => (d, s)) ds.

(** From every state, with [b] bound beforehand, [c] records commands whose
    draws, each with the state it is issued under, are [T], and that leave
    [b'] bound. *)
Definition stencil_run {A} (c : M A) (b : DepthStencilState)
    (T : list (Cmd * DepthStencilState)) (b' : DepthStencilState) : Prop :=
  forall r, exists cs,
    records c r cs /\ draws_with_state b cs = T /\ bound_state b cs = b'.

(** The states [DrawFill] binds for its three passes. *)
Definition fill_winding_state : DepthStencilState :=
  mkDepthStencilState true
    DkCompareOp_Always DkStencilOp_Keep DkStencilOp_Keep DkStencilOp_IncrWrap
    DkCompareOp_Always DkStencilOp_Keep DkStencilOp_Keep DkStencilOp_DecrWrap.

Definition fill_fringe_state : DepthStencilState :=
  mkDepthStencilState true
    DkCompareOp_Equal DkStencilOp_Keep DkStencilOp_Keep DkStencilOp_Keep
    DkCompareOp_Equal DkStencilOp_Keep DkStencilOp_Keep DkStencilOp_Keep.

Definition fill_cover_state : DepthStencilState :=
  mkDepthStencilState true
    DkCompareOp_NotEqual DkStencilOp_Zero DkStencilOp_Zero DkStencilOp_Zero
    DkCompareOp_NotEqual DkStencilOp_Zero DkStencilOp_Zero DkStencilOp_Zero.

(** Inside the scan window [0 .. lastImageDescriptor], no two slots map the
    same texture id. *)
Definition window_unique (r : DkRenderer) : Prop :=
  forall i j : Z,
    0 <= i <= lastImageDescriptor r ->
    0 <= j <= lastImageDescriptor r ->
    mapping_at (imageDescriptorMappings r) i = mapping_at (imageDescriptorMappings r) j ->
    mapping_at (imageDescriptorMappings r) i <> 0 ->
    i = j.

(** The allocator's array has its [MaxImages] entries and the high-water
    mark is a slot index. *)
Definition allocator_wf (r : DkRenderer) : Prop :=
  length (imageDescriptorMappings r) = Z.to_nat MaxImages
  /\ 0 <= lastImageDescriptor r < MaxImages.

(** The blend state [Flush] binds for a call. *)
Definition blend_binding (call : DKNVGcall) : Cmd :=
  BindBlendStates
    (srcRGB (blendFunc call)) (dstRGB (blendFunc call))
    (srcAlpha (blendFunc call)) (dstRGB (blendFunc call)).

(** [c] submits nothing to the queue. *)
Definition keeps_queue {A} (c : M A) : Prop :=
  forall r, queue (snd (c r)) = queue r.

(** From every state, the draw commands among those [c] records are [D]. *)
Definition draws {A} (c : M A) (D : list Cmd) : Prop :=
  forall r, exists cs, records c r cs /\ draws_of cs = D.

(** [SetUniforms] cannot bind a texture for [image]: no registered texture
    bears the id, or the allocator has no slot for it. *)
Definition binding_fails (r : DkRenderer) (image : Z) : Prop :=
  FindTexture r image = None
  \/ exists texture,
       FindTexture r image = Some texture
       /\ fst (AcquireImageDescriptor texture image r) = -1.

(** A 16x16 RGBA texture with the given id, for the runs below. *)
Definition texture_16 (id : Z) : Texture :=
  mkTexture id (mkTextureDescriptor 16 16 NVG_TEXTURE_RGBA 0).

(** A renderer with textures 1 .. 4097 registered whose 4096 slots map the
    textures 2 .. 4097: no slot is left for texture 1. *)
Definition exhausted_renderer : DkRenderer :=
  mkRenderer 1280 720 [] 0 [] None 4098
    (List.map texture_16 (seqZ 1 4097)) (seqZ 2 MaxImages) (MaxImages - 1).

(** ** Statements about the allocator *)

(** [s] is where a cache miss puts a new mapping: the lowest free slot at or
    below the high-water mark, or the slot after the mark when none is
    free. *)
Definition lowest_free (r : DkRenderer) (s : Z) : Prop :=
  (0 <= s <= lastImageDescriptor r
   /\ mapping_at (imageDescriptorMappings r) s = 0
   /\ forall j, 0 <= j < s -> mapping_at (imageDescriptorMappings r) j <> 0)
  \/ (s = lastImageDescriptor r + 1
      /\ forall j, 0 <= j <= lastImageDescriptor r ->
                   mapping_at (imageDescriptorMappings r) j <> 0).

(** No slot at or below the high-water mark maps [image]. *)
Definition unmapped (r : DkRenderer) (image : Z) : Prop :=
  forall j, 0 <= j <= lastImageDescriptor r ->
            mapping_at (imageDescriptorMappings r) j <> image.

(** ** The constructor's preset samplers and [Create] *)

Definition SamplerType_Total : Z := 0x10.

Inductive DkFilter := DkFilter_Nearest | DkFilter_Linear.
Inductive DkMipFilter := DkMipFilter_None | DkMipFilter_Nearest | DkMipFilter_Linear.
Inductive DkWrapMode := DkWrapMode_Repeat | DkWrapMode_ClampToEdge.

(** What [setFilter(min, mag, mip)] and [setWrapMode(u, v)] set in a
    [dk::Sampler]. *)
Record Sampler := mkSampler {
  minFilter : DkFilter;
  magFilter : DkFilter;
  mipFilter : DkMipFilter;
  wrapModeU : DkWrapMode;
  wrapModeV : DkWrapMode
}.

(** The body of the constructor's loop: the sampler of preset [i]. *)
Definition preset_sampler (i : Z) : Sampler :=
  let filter :=
    if has_flag i SamplerType_Nearest then DkFilter_Nearest else DkFilter_Linear in
  let mipFilter :=
    if has_flag i SamplerType_Nearest then DkMipFilter_Nearest else DkMipFilter_Linear in
  let uWrapMode :=
    if has_flag i SamplerType_RepeatX then DkWrapMode_Repeat else DkWrapMode_ClampToEdge in
  let vWrapMode :=
    if has_flag i SamplerType_RepeatY then DkWrapMode_Repeat else DkWrapMode_ClampToEdge in
  mkSampler filter filter
    (if has_flag i SamplerType_MipFilter then mipFilter else DkMipFilter_None)
    uWrapMode vWrapMode.

(** The commands of the constructor's setup list. *)
Inductive InitCmd :=
  | UpdateSamplerDescriptor (index : Z) (sampler : Sampler)
  | InitBarrier_InvalidateDescriptors
  | BindForSamplers
  | BindForImages.

(** [for (uint8_t i = 0; i < SamplerType_Total; i++)
      samplerDescriptorSet.update(initCmdBuf, i, ...)]. *)
Fixpoint sampler_loop (trips : nat) (i : Z) : list InitCmd :=
  match trips with
  | O => []
  | S k => UpdateSamplerDescriptor i (preset_sampler i) :: sampler_loop k (i + 1)
  end.

(** The command list the constructor submits before it returns. *)
Definition DkRenderer_init_cmdlist : list InitCmd :=
  sampler_loop (Z.to_nat SamplerType_Total) 0
  ++ [InitBarrier_InvalidateDescriptors; BindForSamplers; BindForImages].

(** [FragmentUniformSize], from the size of [DKNVGfragUniforms]: the sum is
    taken in [size_t] and stored in an [unsigned int]. *)
Definition FragmentUniformSize (sizeof_DKNVGfragUniforms : Z) : Z :=
  to_uint32
    (to_size_t (to_size_t (sizeof_DKNVGfragUniforms + 4)
                - sizeof_DKNVGfragUniforms mod 4)).

Inductive FragmentShader := fill_aa_fsh | fill_fsh.

Definition set_fragSize (v : Z) (ctx : DKNVGcontext) : DKNVGcontext :=
  mkContext v (ctx_flags ctx) (calls ctx) (ncalls ctx) (paths ctx) (npaths ctx)
    (nverts ctx) (nuniforms ctx).

(** [Create]: the return value, the fragment shader loaded beside
    [fill_vsh] and the context with its [fragSize] set; [fragSize] is an
    [int], the unsigned size is converted on the store. *)
Definition Create (sizeof_DKNVGfragUniforms : Z) (ctx : DKNVGcontext)
    : Z * FragmentShader * DKNVGcontext :=
  let fragmentShader :=
    if has_flag (ctx_flags ctx) NVG_ANTIALIAS then fill_aa_fsh else fill_fsh in
  (1, fragmentShader,
   set_fragSize (int_wrap (FragmentUniformSize sizeof_DKNVGfragUniforms)) ctx).

(** ** Runs of the public operations *)

Inductive PublicOp :=
  | DoCreateTexture (type w h imageFlags data : Z)
  | DoDeleteTexture (image : Z)
  | DoUpdateTexture (image x y w h data : Z)
  | DoFlush (ctx : DKNVGcontext).

Definition do_public (op : PublicOp) : M unit :=
  match op with
  | DoCreateTexture type w h imageFlags data =>
      CreateTexture type w h imageFlags data ;;; ret tt
  | DoDeleteTexture image => DeleteTexture image ;;; ret tt
  | DoUpdateTexture image x y w h data => UpdateTexture image x y w h data ;;; ret tt
  | DoFlush ctx => Flush ctx ;;; ret tt
  end.

Fixpoint run_public (ops : list PublicOp) : M unit :=
  match ops with
  | [] => ret tt
  | op :: rest => do_public op ;;; run_public rest
  end.

(** [c] keeps the property [P] of the renderer. *)
Definition preserves {A} (P : DkRenderer -> Prop) (c : M A) : Prop :=
  forall r, P r -> P (snd (c r)).

(** The allocator's invariant: the array has its size, the mark is a slot
    index, and no two slots up to the mark map the same texture id. *)
Definition allocator_inv (r : DkRenderer) : Prop :=
  allocator_wf r /\ window_unique r.

(** The registry of [r'] is the one of [r]: same textures, same counter. *)
Definition same_registry (r r' : DkRenderer) : Prop :=
  textures r' = textures r /\ nextTextureId r' = nextTextureId r.

(** ** Debug output ([source/debug.cpp]) *)

Module Debug.

(** The debug channel: the messages handed to [svcOutputDebugString], in
    order.  The copy [OutputDebugString] prints to [stdout] is not
    modelled. *)
Definition Log := list string.

Definition newline : Ascii.ascii := Ascii.ascii_of_nat 10.
Definition space : Ascii.ascii := Ascii.ascii_of_nat 32.
Definition nl : string := String newline EmptyString.

(** What [vsnprintf(tmp, 0x1000, ...)] leaves in [tmp] of the formatted
    text: at most 0xFFF characters before the terminator. *)
Definition vsnprintf_tmp (formatted : string) : string :=
  String.substring 0 (Z.to_nat 0xFFF) formatted.

(** [OutputDebugString], given the text its format and arguments stand
    for. *)
Definition OutputDebugString (formatted : string) (log : Log) : Log :=
  log ++ [vsnprintf_tmp formatted].

Definition hex_digits : string := "0123456789abcdef".

Definition hex_digit (n : N) : Ascii.ascii :=
  default space (String.get (N.to_nat n) hex_digits).

(** ["%02x "] of a [u8]: two lowercase hexadecimal digits and a space. *)
Definition format_02x (b : Byte.byte) : string :=
  String (hex_digit (Byte.to_N b / 16))
    (String (hex_digit (Byte.to_N b mod 16)) (String space EmptyString)).

(** The loop of [OutputDebugBytes] over the bytes left, with [count] an
    [int]. *)
Fixpoint dump_loop (bytes : list Byte.byte) (count : Z) (log : Log) : Log :=
  match bytes with
  | [] => log
  | b :: rest =>
      let log := OutputDebugString (format_02x b) log in
      let count := int_wrap (count + 1) in
      let log := if Z.rem count 16 =? 0 then OutputDebugString nl log else log in
      dump_loop rest count log
  end.

Definition header_columns : string :=
  nl +:+ nl +:+ "00 01 02 03 04 05 06 07 08 09 0A 0B 0C 0D 0E 0F" +:+ nl.

Definition header_rule : string :=
  "-----------------------------------------------" +:+ nl.

(** [OutputDebugBytes(buf, len)]: [buf] is the address, [bytes] the [len]
    bytes stored there. *)
Definition OutputDebugBytes (buf : Z) (bytes : list Byte.byte) (log : Log) : Log :=
  if (buf =? 0) || (Z.of_nat (length bytes) =? 0) then log
  else
    let log := OutputDebugString header_columns log in
    let log := OutputDebugString header_rule log in
    let log := dump_loop bytes 0 log in
    OutputDebugString nl log.

(** The text a reader of the channel sees. *)
Definition text_of (log : Log) : string :=
  foldr String.append EmptyString log.

(** Reading a dump back: every byte is two hexadecimal digits and a space,
    line breaks are skipped. *)
Definition unhex (c : Ascii.ascii) : option N :=
  N.of_nat <$> String.index 0 (String c EmptyString) hex_digits.

Fixpoint read_bytes (s : string) : option (list Byte.byte) :=
  match s with
  | EmptyString => Some []
  | String c rest =>
      if Ascii.eqb c newline then read_bytes rest
      else
        match rest with
        | String c2 (String sp rest') =>
            if Ascii.eqb sp space then
              match unhex c, unhex c2, read_bytes rest' with
              | Some hi, Some lo, Some bs =>
                  match Byte.of_N (16 * hi + lo) with
                  | Some b => Some (b :: bs)
                  | None => None
                  end
              | _, _, _ => None
              end
            else None
        | _ => None
        end
  end.

End Debug.

(** * Properties *)

(** ** Machine-integer facts *)

Lemma int_wrap_small (z : Z) :
  - 2 ^ 31 <= z <= INT_MAX -> int_wrap z = z.
Proof.
  unfold int_wrap, INT_MAX. intros Hz.
  rewrite Z.mod_small by lia. lia.
Qed.

Lemma int_wrap_range (z : Z) : - 2 ^ 31 <= int_wrap z <= INT_MAX.
Proof.
  unfold int_wrap, INT_MAX.
  pose proof (Z.mod_pos_bound (z + 2 ^ 31) (2 ^ 32) ltac:(lia)). lia.
Qed.

Lemma int_wrap_idemp (z : Z) : int_wrap (int_wrap z) = int_wrap z.
Proof. apply int_wrap_small, int_wrap_range. Qed.

(** ** The texture registry *)

Section Registry.

Lemma find_texture_None (id : Z) (ts : list Texture) :
  (forall t, In t ts -> Texture_id t <> id) -> find_texture id ts = None.
Proof.
  induction ts as [|t ts IH]; intros Hall; simpl; [reflexivity|].
  destruct (Z.eqb_spec (Texture_id t) id) as [Heq|Hne].
  - exfalso. apply (Hall t); [now left | exact Heq].
  - apply IH. intros t' Hin. apply Hall. now right.
Qed.

Lemma find_texture_Some (id : Z) (ts : list Texture) (t : Texture) :
  find_texture id ts = Some t -> In t ts /\ Texture_id t = id.
Proof.
  induction ts as [|t' ts IH]; simpl; [discriminate|].
  destruct (Z.eqb_spec (Texture_id t') id) as [Heq|Hne].
  - intros [= <-]. split; [now left | exact Heq].
  - intros Hfind. destruct (IH Hfind) as [Hin Hid]. split; [now right | exact Hid].
Qed.

Lemma CreateTexture_id (type w h imageFlags data : Z) (r : DkRenderer) :
  fst (CreateTexture type w h imageFlags data r) = nextTextureId r.
Proof.
  unfold CreateTexture, Texture_Initialize, UpdateImage, bind, get, modify, ret.
  simpl. destruct (data =? 0); reflexivity.
Qed.

Lemma CreateTexture_nextTextureId (type w h imageFlags data : Z) (r : DkRenderer) :
  nextTextureId (snd (CreateTexture type w h imageFlags data r))
  = int_wrap (nextTextureId r + 1).
Proof.
  unfold CreateTexture, Texture_Initialize, UpdateImage, bind, get, modify, ret.
  simpl. destruct (data =? 0); reflexivity.
Qed.

Lemma DeleteTexture_nextTextureId (image : Z) (r : DkRenderer) :
  nextTextureId (snd (DeleteTexture image r)) = nextTextureId r.
Proof.
  unfold DeleteTexture, FreeImageDescriptor, bind, get, modify, ret. simpl.
  destruct (erase_textures image (textures r) false); reflexivity.
Qed.

Lemma count_creates_nonneg (ops : list RegistryOp) : 0 <= count_creates ops.
Proof. induction ops as [|[?????|?] ops IH]; simpl; lia. Qed.

(** From a counter at [n], a run whose creations do not take the counter
    past [INT_MAX] returns [n], [n+1], ... *)
Lemma run_registry_ids (ops : list RegistryOp) :
  forall r : DkRenderer,
    - 2 ^ 31 <= nextTextureId r ->
    nextTextureId r + count_creates ops <= INT_MAX + 1 ->
    fst (run_registry ops r) = seqZ (nextTextureId r) (count_creates ops).
Proof.
  induction ops as [|[type w h fl data|image] ops IH]; intros r Hlo Hhi.
  - reflexivity.
  - pose proof (count_creates_nonneg ops) as Hc.
    cbn [run_registry count_creates] in *.
    unfold bind at 1.
    pose proof (CreateTexture_id type w h fl data r) as Hid.
    pose proof (CreateTexture_nextTextureId type w h fl data r) as Hnext.
    destruct (CreateTexture type w h fl data r) as [id r1]. simpl in Hid, Hnext.
    unfold bind at 1.
    pose proof (int_wrap_range (nextTextureId r + 1)) as Hrange.
    specialize (IH r1). rewrite Hnext in IH.
    destruct (run_registry ops r1) as [ids r2]. simpl in *.
    rewrite (seqZ_cons (nextTextureId r)) by lia.
    rewrite Hid. f_equal.
    replace (Z.pred (1 + count_creates ops)) with (count_creates ops) by lia.
    destruct (Z.eq_dec (count_creates ops) 0) as [Hz|Hnz].
    + (* the last creation of the run: the counter is not read again *)
      rewrite Hz in *. rewrite IH by lia. reflexivity.
    + rewrite int_wrap_small in IH by (unfold INT_MAX in *; lia).
      replace (Z.succ (nextTextureId r)) with (nextTextureId r + 1) by lia.
      apply IH; unfold INT_MAX in *; lia.
  - cbn [run_registry count_creates] in *. unfold bind at 1.
    pose proof (DeleteTexture_nextTextureId image r) as Hn.
    destruct (DeleteTexture image r) as [found r1]. simpl in Hn.
    rewrite <- Hn. apply IH; rewrite Hn; assumption.
Qed.

Lemma seqZ_StronglySorted (n : nat) :
  forall m : Z, StronglySorted Z.lt (seqZ m (Z.of_nat n)).
Proof.
  induction n as [|n IH]; intros m.
  - rewrite seqZ_nil by lia. constructor.
  - rewrite seqZ_cons by lia.
    replace (Z.pred (Z.of_nat (S n))) with (Z.of_nat n) by lia.
    constructor; [apply IH|].
    apply Forall_seqZ. lia.
Qed.

(** C6. On one renderer, from its construction, the ids returned by
    successive [CreateTexture] calls, whatever [DeleteTexture] calls come in
    between, are 1, 2, 3, ...: the i-th creation returns i.  So they start
    at 1, increase strictly and never repeat.  The counter is an [int]; the
    run may hold up to [INT_MAX] creations, the last of which returns
    [INT_MAX]. *)
Theorem CreateTexture_ids_increasing (vw vh : Z) (ops : list RegistryOp) :
  count_creates ops <= INT_MAX ->
  let ids := fst (run_registry ops (DkRenderer_new vw vh)) in
  (forall (i : nat) (id : Z), ids !! i = Some id -> id = Z.of_nat i + 1)
  /\ StronglySorted Z.lt ids
  /\ NoDup ids.
Proof.
  intros Hcount ids.
  assert (Hids : ids = seqZ 1 (count_creates ops)).
  { subst ids. rewrite run_registry_ids.
    - reflexivity.
    - simpl. lia.
    - simpl. unfold INT_MAX in *. lia. }
  rewrite Hids. split; [|split].
  - intros i id Hi. apply lookup_seqZ in Hi. lia.
  - pose proof (count_creates_nonneg ops) as Hc.
    rewrite <- (Z2Nat.id (count_creates ops)) by exact Hc.
    apply seqZ_StronglySorted.
  - apply NoDup_seqZ.
Qed.

Lemma CreateTexture_ids_increasing_witness :
  let ops := [OpCreateTexture NVG_TEXTURE_RGBA 100 100 0 4096;
              OpCreateTexture NVG_TEXTURE_ALPHA 8 8 0 0;
              OpDeleteTexture 1;
              OpCreateTexture NVG_TEXTURE_RGBA 16 16 0 0;
              OpDeleteTexture 3;
              OpCreateTexture NVG_TEXTURE_RGBA 16 16 0 0] in
  count_creates ops <= INT_MAX
  /\ fst (run_registry ops (DkRenderer_new 1280 720)) = [1; 2; 3; 4]
  /\ ((forall (i : nat) (id : Z),
         fst (run_registry ops (DkRenderer_new 1280 720)) !! i = Some id ->
         id = Z.of_nat i + 1)
      /\ StronglySorted Z.lt (fst (run_registry ops (DkRenderer_new 1280 720)))
      /\ NoDup (fst (run_registry ops (DkRenderer_new 1280 720)))).
Proof.
  split; [vm_compute; discriminate|].
  split; [vm_compute; reflexivity|].
  apply (CreateTexture_ids_increasing 1280 720).
  vm_compute; discriminate.
Defined.

(** C10. [GetTextureSize] on an id that no registered texture bears
    returns 0 and leaves the two output locations as they were. *)
Theorem GetTextureSize_unregistered (r : DkRenderer) (image w h : Z) :
  (forall t, In t (textures r) -> Texture_id t <> image) ->
  GetTextureSize r image w h = (0, w, h).
Proof.
  intros Hnone. unfold GetTextureSize, GetTextureDescriptor.
  rewrite find_texture_None by exact Hnone. reflexivity.
Qed.

Lemma GetTextureSize_unregistered_witness :
  let r := snd (CreateTexture NVG_TEXTURE_RGBA 64 32 0 0 (DkRenderer_new 1280 720)) in
  (forall t, In t (textures r) -> Texture_id t <> 5)
  /\ GetTextureSize r 1 11 22 = (1, 64, 32)
  /\ GetTextureSize r 5 11 22 = (0, 11, 22).
Proof.
  assert (Hnone : forall t,
             In t (textures (snd (CreateTexture NVG_TEXTURE_RGBA 64 32 0 0
                                    (DkRenderer_new 1280 720)))) ->
             Texture_id t <> 5).
  { intros t Hin. vm_compute in Hin. destruct Hin as [<-|[]].
    vm_compute. discriminate. }
  split; [exact Hnone|].
  split; [vm_compute; reflexivity|].
  exact (GetTextureSize_unregistered _ 5 11 22 Hnone).
Defined.

Lemma int_mul_one (a b : Z) : int_mul (int_mul a b) 1 = int_mul a b.
Proof. unfold int_mul. rewrite Z.mul_1_r. apply int_wrap_idemp. Qed.

(** What [UpdateTexture] does on a registered texture, in the C types. *)
Lemma UpdateTexture_registered (r : DkRenderer) (image x y w h data : Z)
    (texture : Texture) :
  FindTexture r image = Some texture ->
  let texDesc := textureDescriptor texture in
  let bpp := bytes_per_pixel (tex_type texDesc) in
  let rows := data + int_mul (int_mul y (tex_width texDesc)) bpp in
  UpdateTexture image x y w h data r =
    (1, if rows =? 0 then r
        else set_queue
               (queue r ++
                [[CopyBufferToImage (Texture_id texture) rows
                    (to_size_t (int_mul (int_mul (tex_width texDesc) h) bpp))
                    0 (to_uint32 y) 0 (to_uint32 (tex_width texDesc))
                    (to_uint32 h) 1]]) r).
Proof.
  intros Hfind texDesc bpp rows.
  unfold UpdateTexture, bind at 1, get. rewrite Hfind.
  fold texDesc. subst rows bpp. unfold bytes_per_pixel, UpdateImage.
  destruct (tex_type texDesc =? NVG_TEXTURE_RGBA).
  - unfold int_mul, bind, ret, queue_submitCommands, queue_waitIdle, modify.
    destruct (_ =? 0); reflexivity.
  - rewrite !int_mul_one. unfold int_mul.
    unfold bind, ret, queue_submitCommands, queue_waitIdle, modify.
    destruct (_ =? 0); reflexivity.
Qed.

Lemma pixel_bytes_bpp (type a b : Z) :
  pixel_bytes type a b = a * b * bytes_per_pixel type.
Proof.
  unfold pixel_bytes, bytes_per_pixel.
  destruct (type =? NVG_TEXTURE_RGBA); lia.
Qed.

Lemma bytes_per_pixel_cases (type : Z) :
  bytes_per_pixel type = 4 \/ bytes_per_pixel type = 1.
Proof. unfold bytes_per_pixel. destruct (type =? NVG_TEXTURE_RGBA); auto. Qed.

(** In range, the [int] products are the products. *)
Lemma int_mul_pixel_bytes (type a b : Z) :
  0 <= a * b * bytes_per_pixel type <= INT_MAX ->
  int_mul (int_mul a b) (bytes_per_pixel type) = a * b * bytes_per_pixel type.
Proof.
  intros H. unfold int_mul.
  pose proof (bytes_per_pixel_cases type) as Hbpp.
  rewrite (int_wrap_small (a * b)) by (unfold INT_MAX in *; lia).
  apply int_wrap_small. unfold INT_MAX in *. lia.
Qed.

(** What [UpdateImage_returns] says for non-null data. *)
Lemma UpdateImage_returns_data (host : Host) (type w h data : Z) :
  UpdateImage_returns host type w h data = true ->
  data <> 0 ->
  0 < data /\ 0 <= w /\ 0 <= h
  /\ 0 <= w * h * bytes_per_pixel type <= INT_MAX
  /\ w * h * bytes_per_pixel type <= scratch_available host
  /\ readable host data (w * h * bytes_per_pixel type) = true.
Proof.
  unfold UpdateImage_returns. rewrite pixel_bytes_bpp. intros H Hdata.
  apply orb_prop in H as [H|H]; [apply Z.eqb_eq in H; contradiction|].
  apply andb_prop in H as [H Hread].
  apply andb_prop in H as [H Hscratch].
  apply andb_prop in H as [H Hmax].
  apply andb_prop in H as [H Hh].
  apply andb_prop in H as [Hd Hw].
  apply Z.ltb_lt in Hd. apply Z.leb_le in Hw, Hh, Hmax, Hscratch.
  pose proof (bytes_per_pixel_cases type) as Hbpp.
  split; [exact Hd|]. split; [exact Hw|]. split; [exact Hh|].
  split; [split; [|exact Hmax]|split; [exact Hscratch | exact Hread]].
  destruct Hbpp as [-> | ->]; nia.
Qed.

(** C8, as amended.  On a registered texture for which the upload is
    defined ([UpdateTexture_returns]: the row offset is not negative and
    fits [int], null data comes with offset 0 only, and for non-null data
    the rows are not negative in number, their bytes fit [int] and the
    scratch pool, and can be read at the advanced pointer), [UpdateTexture]
    returns 1 and, with non-null data, submits one transfer: [h] full rows
    of the registered width from row [y] on, [width * h * bytes-per-pixel]
    bytes staged from [data] advanced by [y * width * bytes-per-pixel],
    whatever [x] and [w] are.  With null data it submits nothing and still
    returns 1.  On an unregistered id it returns 0 and changes nothing. *)
Theorem UpdateTexture_full_rows (host : Host) (r : DkRenderer)
    (image x y w h data : Z) :
  (FindTexture r image = None -> UpdateTexture image x y w h data r = (0, r))
  /\ (forall texture : Texture,
        FindTexture r image = Some texture ->
        UpdateTexture_returns host texture y h data = true ->
        let width := tex_width (textureDescriptor texture) in
        let bpp := bytes_per_pixel (tex_type (textureDescriptor texture)) in
        (data <> 0 ->
         UpdateTexture image x y w h data r =
           (1, set_queue
                 (queue r ++
                  [[CopyBufferToImage (Texture_id texture) (data + y * width * bpp)
                      (width * h * bpp)
                      0 (to_uint32 y) 0 (to_uint32 width) (to_uint32 h) 1]]) r))
        /\ (data = 0 -> UpdateTexture image x y w h data r = (1, r))).
Proof.
  split.
  - intros Hnone. unfold UpdateTexture, bind, get. rewrite Hnone. reflexivity.
  - intros texture Hfind Hret width bpp. subst width bpp.
    pose proof (UpdateTexture_registered r image x y w h data texture Hfind) as Heq.
    cbv zeta in Heq.
    unfold UpdateTexture_returns in Hret. cbv zeta in Hret.
    rewrite pixel_bytes_bpp in Hret.
    apply andb_prop in Hret as [Hoff Hrest].
    apply andb_prop in Hoff as [Hoff0 Hoff1].
    apply Z.leb_le in Hoff0, Hoff1.
    rewrite int_mul_pixel_bytes in Heq by lia.
    split; intros Hdata; rewrite Heq.
    + replace (data =? 0) with false in Hrest by (symmetry; now apply Z.eqb_neq).
      apply andb_prop in Hrest as [Hpos Himg]. apply Z.ltb_lt in Hpos.
      match type of Himg with
      | UpdateImage_returns _ _ _ _ ?rows = true =>
          assert (Hrows : rows <> 0) by lia;
          replace (rows =? 0) with false by (symmetry; now apply Z.eqb_neq)
      end.
      destruct (UpdateImage_returns_data _ _ _ _ _ Himg Hrows)
        as (_ & _ & _ & Hsize & _).
      rewrite int_mul_pixel_bytes by exact Hsize.
      unfold to_size_t. rewrite Z.mod_small by (unfold INT_MAX in Hsize; lia).
      reflexivity.
    + subst data. cbn [Z.eqb] in Hrest. apply Z.eqb_eq in Hrest.
      rewrite Hrest. reflexivity.
Qed.

(** The scenario of the spec: on a 100x100 RGBA texture whose 40000 bytes
    of pixels lie at address 65536, [UpdateTexture(id, 5, 10, 20, 4, data)]
    uploads 4 rows of 100 pixels (1600 bytes) from row 10, read 4000 bytes
    into [data]. *)
Lemma UpdateTexture_full_rows_witness :
  let host := mkHost 0x100000
                (fun p n => (65536 <=? p) && (p + n <=? 65536 + 40000)) in
  let r := snd (CreateTexture NVG_TEXTURE_RGBA 100 100 0 0 (DkRenderer_new 1280 720)) in
  let texture := mkTexture 1 (mkTextureDescriptor 100 100 NVG_TEXTURE_RGBA 0) in
  FindTexture r 1 = Some texture
  /\ UpdateTexture_returns host texture 10 4 65536 = true
  /\ 65536 <> 0
  /\ UpdateTexture 1 5 10 20 4 65536 r =
       (1, set_queue [[CopyBufferToImage 1 69536 1600 0 10 0 100 4 1]] r)
  /\ (FindTexture r 2 = None /\ UpdateTexture 2 5 10 20 4 65536 r = (0, r)).
Proof.
  intros host r texture.
  assert (Hfind : FindTexture r 1 = Some texture) by (vm_compute; reflexivity).
  assert (Hnone : FindTexture r 2 = None) by (vm_compute; reflexivity).
  assert (Hret : UpdateTexture_returns host texture 10 4 65536 = true)
    by (vm_compute; reflexivity).
  assert (Hdata : 65536 <> 0) by discriminate.
  split; [exact Hfind|]. split; [exact Hret|]. split; [exact Hdata|].
  split.
  - exact (proj1 (proj2 (UpdateTexture_full_rows host r 1 5 10 20 4 65536)
                    texture Hfind Hret) Hdata).
  - split; [exact Hnone|].
    exact (proj1 (UpdateTexture_full_rows host r 2 5 10 20 4 65536) Hnone).
Defined.

(** C8 as stated fails: with a null [data] and [y = 0] the call on a
    registered texture returns 1 and no transfer is submitted (the queue
    stays empty), where the claim has 4 full rows transferred. *)
Lemma UpdateTexture_null_data_counterexample :
  let r := snd (CreateTexture NVG_TEXTURE_RGBA 100 100 0 0 (DkRenderer_new 1280 720)) in
  FindTexture r 1 = Some (mkTexture 1 (mkTextureDescriptor 100 100 NVG_TEXTURE_RGBA 0))
  /\ fst (UpdateTexture 1 5 0 20 4 0 r) = 1
  /\ queue (snd (UpdateTexture 1 5 0 20 4 0 r)) = []
  /\ ~ (exists c, In [c] (queue (snd (UpdateTexture 1 5 0 20 4 0 r)))).
Proof.
  split; [vm_compute; reflexivity|].
  split; [vm_compute; reflexivity|].
  split; [vm_compute; reflexivity|].
  intros [c Hin]. vm_compute in Hin. exact Hin.
Qed.

End Registry.

(** ** Flush *)

Section FlushProperties.

(** C9. With a call count of zero [Flush] submits nothing to the queue
    (the renderer is left as it was) and returns the context with its four
    frame counters at zero. *)
Theorem Flush_no_calls (ctx : DKNVGcontext) (r : DkRenderer) :
  ncalls ctx = 0 ->
  queue (snd (Flush ctx r)) = queue r
  /\ snd (Flush ctx r) = r
  /\ nverts (fst (Flush ctx r)) = 0
  /\ npaths (fst (Flush ctx r)) = 0
  /\ ncalls (fst (Flush ctx r)) = 0
  /\ nuniforms (fst (Flush ctx r)) = 0.
Proof.
  intros Hn. unfold Flush. rewrite Hn. cbn.
  repeat split; reflexivity.
Qed.

Lemma Flush_no_calls_witness :
  let ctx := mkContext 180 (Z.lor NVG_ANTIALIAS NVG_STENCIL_STROKES)
               [] 0 [mkPath 0 6 6 14] 1 20 2 in
  let r := snd (CreateTexture NVG_TEXTURE_RGBA 100 100 0 4096
                  (DkRenderer_new 1280 720)) in
  ncalls ctx = 0
  /\ (queue (snd (Flush ctx r)) = queue r
      /\ snd (Flush ctx r) = r
      /\ nverts (fst (Flush ctx r)) = 0
      /\ npaths (fst (Flush ctx r)) = 0
      /\ ncalls (fst (Flush ctx r)) = 0
      /\ nuniforms (fst (Flush ctx r)) = 0).
Proof.
  split; [reflexivity|].
  apply Flush_no_calls. reflexivity.
Defined.

(** C4 fails on the code.  For a triangle batch whose blend function is
    (srcRGB, dstRGB, srcAlpha, dstAlpha) = (1, 2, 3, 4), [Flush] submits one
    command list, and the blend state it binds has alpha-destination
    factor 2, the call's dstRGB, not its dstAlpha 4. *)
Theorem Flush_blend_alpha_destination_is_dstRGB :
  let call := mkCall DKNVG_TRIANGLES 0 0 0 0 3 0 (mkBlend 1 2 3 4) in
  let ctx := mkContext 180 0 [call] 1 [] 0 3 1 in
  queue (snd (Flush ctx (DkRenderer_new 1280 720))) =
    [[BindColorState true; BindShaders; BindVtxAttribState; BindVtxBufferState;
      BindVtxBuffer 48;
      PushConstants viewUniformBuffer 8 (ViewSize 1280 720);
      BindUniformBuffer DkStage_Vertex viewUniformBuffer;
      BindBlendStates 1 2 3 2;
      PushConstants fragUniformBuffer 180 (CtxUniforms 0);
      BindUniformBuffer DkStage_Fragment fragUniformBuffer;
      Draw DkPrimitive_Triangles 3 1 0 0]]
  /\ dstAlpha (blendFunc call) = 4.
Proof. split; vm_compute; reflexivity. Qed.

End FlushProperties.

(** ** Strokes through the stencil buffer *)

Section StrokeProperties.

(** C3 fails on the code.  A stroke of one sub-path with the
    stencil-strokes flag set draws its strip three times and binds a
    depth-stencil state three times: before the first draw, before the
    second, and after the third.  The third draw is issued under the state
    of the second pass (compare Equal, all ops Keep), not under compare
    Always with ops Zero; no state with a Zero op is ever bound. *)
Theorem DrawStroke_clear_pass_state_not_bound :
  let call := mkCall DKNVG_STROKE 0 0 1 0 0 0 (mkBlend 1 2 3 4) in
  let ctx := mkContext 180 NVG_STENCIL_STROKES [call] 1 [mkPath 0 0 0 4] 1 4 2 in
  let r := DkRenderer_new 1280 720 in
  recorded_by (DrawStroke ctx call) r =
    [SetStencil DkFace_Front 255 0 255;
     BindDepthStencilState stroke_fill_state;
     PushConstants fragUniformBuffer 180 (CtxUniforms 180);
     BindUniformBuffer DkStage_Fragment fragUniformBuffer;
     Draw DkPrimitive_TriangleStrip 4 1 0 0;
     BindDepthStencilState stroke_aa_state;
     PushConstants fragUniformBuffer 180 (CtxUniforms 0);
     BindUniformBuffer DkStage_Fragment fragUniformBuffer;
     Draw DkPrimitive_TriangleStrip 4 1 0 0;
     Draw DkPrimitive_TriangleStrip 4 1 0 0;
     BindDepthStencilState DepthStencilState_default]
  /\ draws_with_state DepthStencilState_default (recorded_by (DrawStroke ctx call) r) =
       [(Draw DkPrimitive_TriangleStrip 4 1 0 0, stroke_fill_state);
        (Draw DkPrimitive_TriangleStrip 4 1 0 0, stroke_aa_state);
        (Draw DkPrimitive_TriangleStrip 4 1 0 0, stroke_aa_state)]
  /\ stencilFrontCompareOp stroke_aa_state = DkCompareOp_Equal
  /\ stencilFrontPassOp stroke_aa_state = DkStencilOp_Keep.
Proof. repeat split; vm_compute; reflexivity. Qed.

End StrokeProperties.

(** ** The descriptor slot allocator *)

Section AllocatorRuns.

(** C1 fails on the code.  Through the public operations: three textures
    are created and drawn in one frame (slots 0, 1, 2), texture 1 is deleted,
    a fourth texture is created, and a second frame draws textures 4 and 3.
    Afterwards texture 3, still registered, is mapped by two slots, 1 and 2.
    Acquiring texture 4 took the freed slot 0 and set the high-water mark
    back to 0, so the scan for texture 3 stopped before its slot 2.  The same
    run on the allocator alone: Acquire 1, 2, 3, Release 1, Acquire 4,
    Acquire 3. *)
Theorem texture_mapped_by_two_slots :
  let tri := fun image => mkCall DKNVG_TRIANGLES image 0 0 0 3 0 (mkBlend 1 2 3 4) in
  let frame := fun images =>
    mkContext 180 0 (List.map tri images) (Z.of_nat (length images)) [] 0 3 1 in
  let prog :=
    CreateTexture NVG_TEXTURE_RGBA 16 16 0 0 ;;;
    CreateTexture NVG_TEXTURE_RGBA 16 16 0 0 ;;;
    CreateTexture NVG_TEXTURE_RGBA 16 16 0 0 ;;;
    Flush (frame [1; 2; 3]) ;;;
    DeleteTexture 1 ;;;
    CreateTexture NVG_TEXTURE_RGBA 16 16 0 0 ;;;
    Flush (frame [4; 3]) in
  let r := snd (prog (DkRenderer_new 1280 720)) in
  let ops := [Acquire (texture_16 1) 1; Acquire (texture_16 2) 2;
              Acquire (texture_16 3) 3; Release 1;
              Acquire (texture_16 4) 4; Acquire (texture_16 3) 3] in
  List.map Texture_id (textures r) = [2; 3; 4]
  /\ slots_of r 3 = [1; 2]
  /\ slots_of r 4 = [0]
  /\ lastImageDescriptor r = 1
  /\ fst (run_alloc ops (DkRenderer_new 1280 720)) = [0; 1; 2; 0; 1]
  /\ slots_of (snd (run_alloc ops (DkRenderer_new 1280 720))) 3 = [1; 2].
Proof. repeat split; vm_compute; reflexivity. Qed.

(** C2 fails on the code.  With slots 0..2 handed out (high-water mark 2)
    and slot 0 released, acquiring a new texture is a cache miss that assigns
    slot 0, and the high-water mark afterwards is 0, not max 2 0 = 2. *)
Theorem Acquire_lowers_high_water_mark :
  let r := snd (run_alloc [Acquire (texture_16 1) 1; Acquire (texture_16 2) 2;
                           Acquire (texture_16 3) 3; Release 1]
                  (DkRenderer_new 1280 720)) in
  lastImageDescriptor r = 2
  /\ fst (AcquireImageDescriptor (texture_16 4) 4 r) = 0
  /\ recorded_by (AcquireImageDescriptor (texture_16 4) 4) r =
       [UpdateImageDescriptor 0 4; Barrier_InvalidateDescriptors]
  /\ lastImageDescriptor (snd (AcquireImageDescriptor (texture_16 4) 4 r)) = 0
  /\ Z.max (lastImageDescriptor r) 0 = 2.
Proof. repeat split; vm_compute; reflexivity. Qed.

(** C7 fails on the code.  [Acquire(texture 3, 3)] returns slot 2; texture
    3 is never released; after [Release(1)] and [Acquire(texture 4, 4)] the
    next [Acquire(texture 3, 3)] returns slot 1, through the cache-miss
    branch: it records a descriptor update and changes the mapping table and
    the high-water mark. *)
Theorem Acquire_again_misses_after_other_ops :
  let before := [Acquire (texture_16 1) 1; Acquire (texture_16 2) 2;
                 Acquire (texture_16 3) 3; Release 1; Acquire (texture_16 4) 4] in
  let r := snd (run_alloc before (DkRenderer_new 1280 720)) in
  fst (run_alloc before (DkRenderer_new 1280 720)) = [0; 1; 2; 0]
  /\ fst (AcquireImageDescriptor (texture_16 3) 3 r) = 1
  /\ recorded_by (AcquireImageDescriptor (texture_16 3) 3) r =
       [UpdateImageDescriptor 1 3; Barrier_InvalidateDescriptors]
  /\ existsb is_UpdateImageDescriptor
       (recorded_by (AcquireImageDescriptor (texture_16 3) 3) r) = true
  /\ mapping_at (imageDescriptorMappings r) 1 = 2
  /\ mapping_at
       (imageDescriptorMappings (snd (AcquireImageDescriptor (texture_16 3) 3 r))) 1
     = 3
  /\ lastImageDescriptor r = 0
  /\ lastImageDescriptor (snd (AcquireImageDescriptor (texture_16 3) 3 r)) = 1.
Proof. repeat split; vm_compute; reflexivity. Qed.

End AllocatorRuns.

(** ** What the dispatcher records *)

Section Recording.

Lemma records_recorded_by {A} (c : M A) (r : DkRenderer) (cs : list Cmd) :
  records c r cs -> recorded_by c r = cs.
Proof.
  unfold records, recorded_by. intros ->. apply drop_app_length.
Qed.

Lemma records_ret {A} (a : A) (r : DkRenderer) : records (ret a) r [].
Proof. unfold records, ret. simpl. now rewrite app_nil_r. Qed.

Lemma records_record (c : Cmd) (r : DkRenderer) : records (record c) r [c].
Proof. reflexivity. Qed.

Lemma records_bind {A B} (c : M A) (k : A -> M B) (r : DkRenderer)
    (cs1 cs2 : list Cmd) :
  records c r cs1 ->
  records (k (fst (c r))) (snd (c r)) cs2 ->
  records (bind c k) r (cs1 ++ cs2).
Proof.
  unfold records, bind. destruct (c r) as [a r1]. simpl.
  intros H1 H2. rewrite H2, H1. now rewrite app_assoc.
Qed.

Lemma records_seq {A B} (c : M A) (k : M B) (cs1 cs2 : list Cmd) :
  (forall r, records c r cs1) ->
  (forall r, records k r cs2) ->
  forall r, records (c ;;; k) r (cs1 ++ cs2).
Proof. intros H1 H2 r. apply records_bind; [apply H1 | apply H2]. Qed.

Lemma seqZ_of_to_nat (m n : Z) : seqZ m (Z.of_nat (Z.to_nat n)) = seqZ m n.
Proof.
  destruct (Z.le_gt_cases n 0) as [Hle|Hgt].
  - rewrite (seqZ_nil m n) by lia. apply seqZ_nil. lia.
  - now rewrite Z2Nat.id by lia.
Qed.

Lemma records_for_loop (body : Z -> M unit) (f : Z -> list Cmd) :
  (forall i r, records (body i) r (f i)) ->
  forall (trips : nat) (i : Z) (r : DkRenderer),
    records (for_loop trips i body) r (flat_map f (seqZ i (Z.of_nat trips))).
Proof.
  intros Hbody. induction trips as [|trips IH]; intros i r.
  - rewrite seqZ_nil by lia. apply records_ret.
  - rewrite seqZ_cons by lia.
    replace (Z.pred (Z.of_nat (S trips))) with (Z.of_nat trips) by lia.
    replace (Z.succ i) with (i + 1) by lia.
    cbn [for_loop flat_map].
    apply records_bind; [apply Hbody | apply IH].
Qed.

Lemma records_for_upto (body : Z -> M unit) (f : Z -> list Cmd) (n : Z) :
  (forall i r, records (body i) r (f i)) ->
  forall r, records (for_upto n body) r (flat_map f (seqZ 0 n)).
Proof.
  intros Hbody r. unfold for_upto.
  rewrite <- (seqZ_of_to_nat 0 n). now apply records_for_loop.
Qed.

Lemma flat_map_singleton {A B} (f : A -> B) (l : list A) :
  flat_map (fun a => [f a]) l = List.map f l.
Proof. induction l as [|a l IH]; simpl; [reflexivity | now rewrite IH]. Qed.

Lemma draw_fill_fans_records (ctx : DKNVGcontext) (call : DKNVGcall) (r : DkRenderer) :
  records (draw_fill_fans ctx call) r (fill_fans ctx call).
Proof.
  unfold draw_fill_fans, fill_fans, path_indices.
  rewrite <- flat_map_singleton.
  apply records_for_upto. intros i r'. apply records_record.
Qed.

Lemma draw_stroke_strips_records (ctx : DKNVGcontext) (call : DKNVGcall) (r : DkRenderer) :
  records (draw_stroke_strips ctx call) r (stroke_strips ctx call).
Proof.
  unfold draw_stroke_strips, stroke_strips, path_indices.
  rewrite <- flat_map_singleton.
  apply records_for_upto. intros i r'. apply records_record.
Qed.

(** *** The allocator's part *)

Lemma acquire_scan_nonneg (m : list Z) (last image : Z) (trips : nat) :
  forall desc free : Z,
    0 <= desc -> 0 <= free ->
    match acquire_scan m last image trips desc free with
    | Found d => 0 <= d
    | NotFound f => 0 <= f
    end.
Proof.
  induction trips as [|trips IH]; intros desc free Hd Hf; simpl; [exact Hf|].
  destruct (mapping_at m desc =? image); [exact Hd|].
  destruct ((mapping_at m desc =? 0) && (free =? last + 1)); apply IH; lia.
Qed.

(** A failed acquisition records nothing and changes nothing. *)
Lemma AcquireImageDescriptor_failure (texture : Texture) (image : Z) (r : DkRenderer) :
  0 <= lastImageDescriptor r ->
  fst (AcquireImageDescriptor texture image r) = -1 ->
  snd (AcquireImageDescriptor texture image r) = r.
Proof.
  intros Hlast. unfold AcquireImageDescriptor, bind, get. cbn [fst snd].
  pose proof (acquire_scan_nonneg (imageDescriptorMappings r)
                (lastImageDescriptor r) image
                (Z.to_nat (lastImageDescriptor r + 1)) 0
                (lastImageDescriptor r + 1) ltac:(lia) ltac:(lia)) as Hscan.
  destruct (acquire_scan _ _ _ _ _ _) as [d|f].
  - reflexivity.
  - destruct (f >=? MaxImages); [reflexivity|].
    unfold record, modify, ret. cbn. lia.
Qed.

Lemma AcquireImageDescriptor_records (texture : Texture) (image : Z) (r : DkRenderer) :
  exists u, records (AcquireImageDescriptor texture image) r u
            /\ forallb is_state_neutral u = true.
Proof.
  unfold AcquireImageDescriptor, records, bind, get. cbn [fst snd].
  destruct (acquire_scan _ _ _ _ _ _) as [d|f].
  - exists []. split; [apply records_ret | reflexivity].
  - destruct (f >=? MaxImages).
    + exists []. split; [apply records_ret | reflexivity].
    + exists [UpdateImageDescriptor f (Texture_id texture); Barrier_InvalidateDescriptors].
      split; [|reflexivity].
      unfold record, modify, ret. cbn. now rewrite <- app_assoc.
Qed.

Lemma SetUniforms_records (ctx : DKNVGcontext) (offset image : Z) (r : DkRenderer) :
  exists u, records (SetUniforms ctx offset image) r (uniform_binding ctx offset ++ u)
            /\ forallb is_state_neutral u = true.
Proof.
  unfold SetUniforms.
  set (r2 := snd ((record (PushConstants fragUniformBuffer (fragSize ctx) (CtxUniforms offset)) ;;;
                   record (BindUniformBuffer DkStage_Fragment fragUniformBuffer)) r)).
  assert (Hpre : forall (k : M unit) u,
             records k r2 u ->
             records (record (PushConstants fragUniformBuffer (fragSize ctx) (CtxUniforms offset)) ;;;
                      record (BindUniformBuffer DkStage_Fragment fragUniformBuffer) ;;; k)
               r (uniform_binding ctx offset ++ u)).
  { intros k u Hk. unfold records in *. unfold bind, record, modify in *.
    cbn in *. rewrite Hk. now rewrite <- !app_assoc. }
  assert (Htex : FindTexture r2 image = FindTexture r image) by reflexivity.
  destruct (FindTexture r image) as [texture|] eqn:Hfind.
  - destruct (AcquireImageDescriptor_records texture image r2) as (ua & Hua & Hneutral).
    destruct (fst (AcquireImageDescriptor texture image r2) =? -1) eqn:Hid.
    + exists ua. split; [|exact Hneutral]. apply Hpre.
      unfold records, bind, get in Hua |- *. cbn [fst snd]. rewrite Htex.
      destruct (AcquireImageDescriptor texture image r2) as [slot r3].
      cbn [fst snd] in *. rewrite Hid. exact Hua.
    + exists (ua ++ [BindTextures DkStage_Fragment
                       (dkMakeTextureHandle
                          (fst (AcquireImageDescriptor texture image r2))
                          (samplerId_of_flags (tex_flags (textureDescriptor texture))))]).
      split.
      * apply Hpre.
        unfold records, bind, get in Hua |- *. cbn [fst snd]. rewrite Htex.
        destruct (AcquireImageDescriptor texture image r2) as [slot r3].
        cbn [fst snd] in *. rewrite Hid.
        unfold record, modify. cbn [fst snd dynCmdBuf set_dynCmdBuf].
        rewrite Hua. now rewrite <- app_assoc.
      * rewrite forallb_app, Hneutral. reflexivity.
  - exists []. split; [|reflexivity]. apply Hpre.
    unfold records, bind, get. cbn [fst snd]. rewrite Htex.
    apply records_ret.
Qed.

(** *** Draw commands *)

Lemma draws_of_app (cs1 cs2 : list Cmd) :
  draws_of (cs1 ++ cs2) = draws_of cs1 ++ draws_of cs2.
Proof. apply List.filter_app. Qed.

Lemma draws_of_neutral (u : list Cmd) :
  forallb is_state_neutral u = true -> draws_of u = [].
Proof.
  induction u as [|c u IH]; simpl; [reflexivity|].
  intros H. apply andb_prop in H as [Hc Hu].
  unfold is_state_neutral in Hc. apply andb_prop in Hc as [Hd _].
  destruct (is_draw c); [discriminate|]. now apply IH.
Qed.

Lemma draws_of_all (l : list Cmd) :
  forallb is_draw l = true -> draws_of l = l.
Proof.
  induction l as [|c l IH]; simpl; [reflexivity|].
  intros H. apply andb_prop in H as [Hc Hl]. rewrite Hc. f_equal. now apply IH.
Qed.

Lemma draws_of_fill_fans (ctx : DKNVGcontext) (call : DKNVGcall) :
  draws_of (fill_fans ctx call) = fill_fans ctx call.
Proof.
  apply draws_of_all. unfold fill_fans.
  induction (path_indices call) as [|i l IH]; simpl; [reflexivity | exact IH].
Qed.

Lemma draws_of_stroke_strips (ctx : DKNVGcontext) (call : DKNVGcall) :
  draws_of (stroke_strips ctx call) = stroke_strips ctx call.
Proof.
  apply draws_of_all. unfold stroke_strips.
  induction (path_indices call) as [|i l IH]; simpl; [reflexivity | exact IH].
Qed.

Lemma draws_of_convex (ctx : DKNVGcontext) (call : DKNVGcall) (l : list Z) :
  draws_of (flat_map (convex_path_draws ctx call) l)
  = flat_map (convex_path_draws ctx call) l.
Proof.
  apply draws_of_all.
  induction l as [|i l IH]; simpl; [reflexivity|].
  destruct (strokeCount (path_at ctx call i) >? 0); simpl; exact IH.
Qed.

Lemma draws_ret {A} (a : A) : draws (ret a) [].
Proof. intros r. exists []. split; [apply records_ret | reflexivity]. Qed.

Lemma draws_record (c : Cmd) : draws (record c) (if is_draw c then [c] else []).
Proof.
  intros r. exists [c]. split; [apply records_record|].
  unfold draws_of. simpl. destruct (is_draw c); reflexivity.
Qed.

Lemma draws_bind {A B} (c : M A) (k : A -> M B) (D1 D2 : list Cmd) :
  draws c D1 -> (forall a, draws (k a) D2) -> draws (bind c k) (D1 ++ D2).
Proof.
  intros H1 H2 r.
  destruct (H1 r) as (cs1 & R1 & F1).
  destruct (H2 (fst (c r)) (snd (c r))) as (cs2 & R2 & F2).
  exists (cs1 ++ cs2). split; [now apply records_bind|].
  now rewrite draws_of_app, F1, F2.
Qed.

Lemma draws_seq {A B} (c : M A) (k : M B) (D1 D2 : list Cmd) :
  draws c D1 -> draws k D2 -> draws (c ;;; k) (D1 ++ D2).
Proof. intros H1 H2. apply draws_bind; [exact H1 | intros _; exact H2]. Qed.

Lemma draws_if {A} (b : bool) (c1 c2 : M A) (D1 D2 : list Cmd) :
  draws c1 D1 -> draws c2 D2 ->
  draws (if b then c1 else c2) (if b then D1 else D2).
Proof. destruct b; trivial. Qed.

Lemma draws_eq {A} (c : M A) (D D' : list Cmd) : draws c D -> D = D' -> draws c D'.
Proof. intros H <-. exact H. Qed.

Lemma draws_SetUniforms (ctx : DKNVGcontext) (offset image : Z) :
  draws (SetUniforms ctx offset image) [].
Proof.
  intros r. destruct (SetUniforms_records ctx offset image r) as (u & Hrec & Hneutral).
  eexists. split; [exact Hrec|].
  rewrite draws_of_app, (draws_of_neutral u Hneutral). reflexivity.
Qed.

Lemma draws_draw_fill_fans (ctx : DKNVGcontext) (call : DKNVGcall) :
  draws (draw_fill_fans ctx call) (fill_fans ctx call).
Proof.
  intros r. eexists. split; [apply draw_fill_fans_records | apply draws_of_fill_fans].
Qed.

Lemma draws_draw_stroke_strips (ctx : DKNVGcontext) (call : DKNVGcall) :
  draws (draw_stroke_strips ctx call) (stroke_strips ctx call).
Proof.
  intros r. eexists.
  split; [apply draw_stroke_strips_records | apply draws_of_stroke_strips].
Qed.

Ltac draws_step :=
  first
    [ apply draws_SetUniforms
    | apply draws_draw_fill_fans
    | apply draws_draw_stroke_strips
    | apply draws_record
    | apply draws_ret
    | eapply draws_seq
    | eapply draws_if ].

Lemma draws_DrawFill (ctx : DKNVGcontext) (call : DKNVGcall) :
  draws (DrawFill ctx call)
    (fill_fans ctx call
     ++ (if has_flag (ctx_flags ctx) NVG_ANTIALIAS then stroke_strips ctx call else [])
     ++ [cover_strip call]).
Proof.
  unfold DrawFill. eapply draws_eq; [repeat draws_step|].
  cbn [is_draw app]. destruct (has_flag (ctx_flags ctx) NVG_ANTIALIAS);
    cbn [app]; rewrite ?app_nil_r; reflexivity.
Qed.

Lemma draws_DrawConvexFill (ctx : DKNVGcontext) (call : DKNVGcall) :
  draws (DrawConvexFill ctx call)
    (flat_map (convex_path_draws ctx call) (path_indices call)).
Proof.
  unfold DrawConvexFill.
  eapply draws_eq; [eapply draws_seq; [apply draws_SetUniforms|]|reflexivity].
  intros r. eexists. split; [|apply draws_of_convex].
  apply records_for_upto. intros i r'. unfold convex_path_draws, fill_fan, stroke_strip.
  destruct (strokeCount (path_at ctx call i) >? 0).
  - apply (records_bind _ _ _ [_] [_]); apply records_record.
  - apply (records_bind _ _ _ [_] []); [apply records_record | apply records_ret].
Qed.

Lemma draws_DrawStroke (ctx : DKNVGcontext) (call : DKNVGcall) :
  draws (DrawStroke ctx call)
    (if has_flag (ctx_flags ctx) NVG_STENCIL_STROKES
     then stroke_strips ctx call ++ stroke_strips ctx call ++ stroke_strips ctx call
     else stroke_strips ctx call).
Proof.
  unfold DrawStroke. destruct (has_flag (ctx_flags ctx) NVG_STENCIL_STROKES).
  - eapply draws_eq; [repeat draws_step|].
    cbn [is_draw app]. rewrite ?app_nil_r. reflexivity.
  - eapply draws_eq; [repeat draws_step|]. reflexivity.
Qed.

Lemma draws_DrawTriangles (ctx : DKNVGcontext) (call : DKNVGcall) :
  draws (DrawTriangles ctx call) [triangle_list call].
Proof.
  unfold DrawTriangles. eapply draws_eq; [repeat draws_step|]. reflexivity.
Qed.

(** Whatever the state of the registry and of the allocator, a dispatched
    call records exactly its draws. *)
Lemma draws_dispatch (ctx : DKNVGcontext) (call : DKNVGcall) :
  draws (dispatch ctx call) (call_draws ctx call).
Proof.
  unfold dispatch, call_draws.
  destruct (call_type call =? DKNVG_FILL); [apply draws_DrawFill|].
  destruct (call_type call =? DKNVG_CONVEXFILL); [apply draws_DrawConvexFill|].
  destruct (call_type call =? DKNVG_STROKE); [apply draws_DrawStroke|].
  destruct (call_type call =? DKNVG_TRIANGLES); [apply draws_DrawTriangles|].
  apply draws_ret.
Qed.

End Recording.

(** ** Soft degradation of SetUniforms *)

Section SoftDegrade.

Lemma AcquireImageDescriptor_fst_dynCmdBuf (texture : Texture) (image : Z)
    (buf : list Cmd) (r : DkRenderer) :
  fst (AcquireImageDescriptor texture image (set_dynCmdBuf buf r))
  = fst (AcquireImageDescriptor texture image r).
Proof.
  unfold AcquireImageDescriptor, bind, get. cbn [fst snd].
  cbn [lastImageDescriptor imageDescriptorMappings set_dynCmdBuf].
  destruct (acquire_scan _ _ _ _ _ _) as [d|f]; [reflexivity|].
  destruct (f >=? MaxImages); reflexivity.
Qed.

(** C5, as amended.  When the image id resolves to no registered texture, or
    the allocator has no slot for it, [SetUniforms] still pushes the uniform
    block and binds it to the fragment stage; it records nothing else (no
    descriptor update, no texture binding), changes nothing else in the
    renderer and returns.  The draws of a dispatched call are recorded in
    full all the same. *)
Theorem SetUniforms_soft_degrade (ctx : DKNVGcontext) (offset image : Z)
    (r : DkRenderer) :
  0 <= lastImageDescriptor r ->
  binding_fails r image ->
  SetUniforms ctx offset image r
  = (tt, set_dynCmdBuf (dynCmdBuf r ++ uniform_binding ctx offset) r)
  /\ forall call : DKNVGcall,
       draws_of (recorded_by (dispatch ctx call) r) = call_draws ctx call.
Proof.
  intros Hlast Hfail. split.
  - unfold SetUniforms, bind at 1, record at 1, modify at 1.
    unfold bind at 1, record at 1, modify at 1.
    unfold bind at 1, get.
    set (r2 := set_dynCmdBuf _ (set_dynCmdBuf _ r)).
    assert (Hr2 : r2 = set_dynCmdBuf (dynCmdBuf r ++ uniform_binding ctx offset) r).
    { subst r2. unfold set_dynCmdBuf, uniform_binding. cbn.
      now rewrite <- app_assoc. }
    change (FindTexture r2 image) with (FindTexture r image).
    destruct Hfail as [Hnone | (texture & Hsome & Hslot)].
    + rewrite Hnone. unfold ret. now rewrite Hr2.
    + rewrite Hsome. unfold bind.
      assert (Hslot2 : fst (AcquireImageDescriptor texture image r2) = -1).
      { rewrite Hr2, AcquireImageDescriptor_fst_dynCmdBuf. exact Hslot. }
      pose proof (AcquireImageDescriptor_failure texture image r2
                    ltac:(rewrite Hr2; exact Hlast) Hslot2) as Hsame.
      destruct (AcquireImageDescriptor texture image r2) as [slot r3].
      cbn [fst snd] in Hslot2, Hsame. subst slot r3.
      cbn. unfold ret. now rewrite Hr2.
  - intros call. destruct (draws_dispatch ctx call r) as (cs & Hrec & Hdraws).
    now rewrite (records_recorded_by _ _ _ Hrec).
Qed.

Lemma SetUniforms_soft_degrade_witness :
  let ctx := mkContext 180 0 [] 0 [] 0 0 0 in
  (0 <= lastImageDescriptor (DkRenderer_new 1280 720)
   /\ binding_fails (DkRenderer_new 1280 720) 7
   /\ SetUniforms ctx 360 7 (DkRenderer_new 1280 720)
      = (tt, set_dynCmdBuf (uniform_binding ctx 360) (DkRenderer_new 1280 720)))
  /\ (0 <= lastImageDescriptor exhausted_renderer
      /\ binding_fails exhausted_renderer 1
      /\ SetUniforms ctx 360 1 exhausted_renderer
         = (tt, set_dynCmdBuf (uniform_binding ctx 360) exhausted_renderer)).
Proof.
  assert (Hfresh : binding_fails (DkRenderer_new 1280 720) 7)
    by (left; vm_compute; reflexivity).
  assert (Hfull : binding_fails exhausted_renderer 1).
  { right. exists (texture_16 1). split; vm_compute; reflexivity. }
  split.
  - split; [vm_compute; discriminate|]. split; [exact Hfresh|].
    exact (proj1 (SetUniforms_soft_degrade _ 360 7 (DkRenderer_new 1280 720)
                    ltac:(vm_compute; discriminate) Hfresh)).
  - split; [vm_compute; discriminate|]. split; [exact Hfull|].
    exact (proj1 (SetUniforms_soft_degrade _ 360 1 exhausted_renderer
                    ltac:(vm_compute; discriminate) Hfull)).
Defined.

(** C5 as stated fails: for an image id that resolves to no texture, the
    uniform-block binding is not skipped; [SetUniforms] records the push of
    the block and its binding to the fragment stage. *)
Lemma SetUniforms_binds_uniforms_counterexample :
  let ctx := mkContext 180 0 [] 0 [] 0 0 0 in
  let r := DkRenderer_new 1280 720 in
  FindTexture r 7 = None
  /\ recorded_by (SetUniforms ctx 360 7) r =
       [PushConstants fragUniformBuffer 180 (CtxUniforms 360);
        BindUniformBuffer DkStage_Fragment fragUniformBuffer]
  /\ existsb is_BindUniformBuffer (recorded_by (SetUniforms ctx 360 7) r) = true
  /\ existsb is_BindTextures (recorded_by (SetUniforms ctx 360 7) r) = false.
Proof. repeat split; vm_compute; reflexivity. Qed.

End SoftDegrade.

(** ** Depth-stencil state under which the draws are issued *)

Section StencilStates.

Lemma draws_with_state_app (b : DepthStencilState) (cs1 cs2 : list Cmd) :
  draws_with_state b (cs1 ++ cs2)
  = draws_with_state b cs1 ++ draws_with_state (bound_state b cs1) cs2.
Proof.
  revert b. induction cs1 as [|c cs1 IH]; intros b; [reflexivity|].
  destruct c; cbn [app draws_with_state bound_state]; rewrite IH; reflexivity.
Qed.

Lemma bound_state_app (b : DepthStencilState) (cs1 cs2 : list Cmd) :
  bound_state b (cs1 ++ cs2) = bound_state (bound_state b cs1) cs2.
Proof.
  revert b. induction cs1 as [|c cs1 IH]; intros b; [reflexivity|].
  destruct c; cbn [app bound_state]; apply IH.
Qed.

Lemma neutral_draws_with_state (b : DepthStencilState) (u : list Cmd) :
  forallb is_state_neutral u = true ->
  draws_with_state b u = [] /\ bound_state b u = b.
Proof.
  induction u as [|c u IH]; [now split|].
  cbn [forallb]. intros H. apply andb_prop in H as [Hc Hu].
  destruct c; try discriminate Hc; cbn [draws_with_state bound_state]; now apply IH.
Qed.

Lemma draws_under (b : DepthStencilState) (ds : list Cmd) :
  forallb is_draw ds = true ->
  draws_with_state b ds = under b ds /\ bound_state b ds = b.
Proof.
  induction ds as [|c ds IH]; [now split|].
  cbn [forallb]. intros H. apply andb_prop in H as [Hc Hds].
  destruct c; try discriminate Hc. cbn [draws_with_state bound_state under List.map].
  destruct (IH Hds) as [-> ->]. now split.
Qed.

Lemma stroke_strips_all_draws (ctx : DKNVGcontext) (call : DKNVGcall) :
  forallb is_draw (stroke_strips ctx call) = true.
Proof.
  unfold stroke_strips.
  induction (path_indices call) as [|i l IH]; simpl; [reflexivity | exact IH].
Qed.

Lemma fill_fans_all_draws (ctx : DKNVGcontext) (call : DKNVGcall) :
  forallb is_draw (fill_fans ctx call) = true.
Proof.
  unfold fill_fans.
  induction (path_indices call) as [|i l IH]; simpl; [reflexivity | exact IH].
Qed.

Lemma stencil_ret {A} (a : A) (b : DepthStencilState) : stencil_run (ret a) b [] b.
Proof. intros r. exists []. repeat split. apply records_ret. Qed.

Lemma stencil_bind_state (s b : DepthStencilState) :
  stencil_run (record (BindDepthStencilState s)) b [] s.
Proof. intros r. exists [BindDepthStencilState s]. repeat split. Qed.

Lemma stencil_record_neutral (c : Cmd) (b : DepthStencilState) :
  is_state_neutral c = true -> stencil_run (record c) b [] b.
Proof.
  intros Hc r. exists [c]. split; [apply records_record|].
  apply (neutral_draws_with_state b [c]). cbn. now rewrite Hc.
Qed.

Lemma stencil_record_draw (p : DkPrimitive) (n i f fi : Z) (b : DepthStencilState) :
  stencil_run (record (Draw p n i f fi)) b [(Draw p n i f fi, b)] b.
Proof. intros r. exists [Draw p n i f fi]. repeat split. Qed.

Lemma stencil_bind {A B} (c : M A) (k : A -> M B) (b b1 b2 : DepthStencilState)
    (T1 T2 : list (Cmd * DepthStencilState)) :
  stencil_run c b T1 b1 ->
  (forall a, stencil_run (k a) b1 T2 b2) ->
  stencil_run (bind c k) b (T1 ++ T2) b2.
Proof.
  intros H1 H2 r.
  destruct (H1 r) as (cs1 & R1 & D1 & B1).
  destruct (H2 (fst (c r)) (snd (c r))) as (cs2 & R2 & D2 & B2).
  exists (cs1 ++ cs2). split; [now apply records_bind|].
  rewrite draws_with_state_app, bound_state_app, D1, B1, D2, B2. now split.
Qed.

Lemma stencil_seq {A B} (c : M A) (k : M B) (b b1 b2 : DepthStencilState)
    (T1 T2 : list (Cmd * DepthStencilState)) :
  stencil_run c b T1 b1 -> stencil_run k b1 T2 b2 ->
  stencil_run (c ;;; k) b (T1 ++ T2) b2.
Proof. intros H1 H2. eapply stencil_bind; [exact H1 | intros _; exact H2]. Qed.

Lemma stencil_eq {A} (c : M A) (b b' : DepthStencilState)
    (T T' : list (Cmd * DepthStencilState)) :
  stencil_run c b T b' -> T = T' -> stencil_run c b T' b'.
Proof. intros H <-. exact H. Qed.

Lemma stencil_SetUniforms (ctx : DKNVGcontext) (offset image : Z)
    (b : DepthStencilState) :
  stencil_run (SetUniforms ctx offset image) b [] b.
Proof.
  intros r. destruct (SetUniforms_records ctx offset image r) as (u & Hrec & Hneutral).
  eexists. split; [exact Hrec|].
  apply neutral_draws_with_state.
  rewrite forallb_app, Hneutral. reflexivity.
Qed.

Lemma stencil_draw_stroke_strips (ctx : DKNVGcontext) (call : DKNVGcall)
    (b : DepthStencilState) :
  stencil_run (draw_stroke_strips ctx call) b (under b (stroke_strips ctx call)) b.
Proof.
  intros r. eexists. split; [apply draw_stroke_strips_records|].
  apply draws_under, stroke_strips_all_draws.
Qed.

Lemma stencil_draw_fill_fans (ctx : DKNVGcontext) (call : DKNVGcall)
    (b : DepthStencilState) :
  stencil_run (draw_fill_fans ctx call) b (under b (fill_fans ctx call)) b.
Proof.
  intros r. eexists. split; [apply draw_fill_fans_records|].
  apply draws_under, fill_fans_all_draws.
Qed.

Ltac stencil_step :=
  first
    [ apply stencil_SetUniforms
    | apply stencil_draw_stroke_strips
    | apply stencil_draw_fill_fans
    | apply stencil_bind_state
    | apply stencil_record_draw
    | apply stencil_record_neutral; reflexivity
    | apply stencil_ret
    | eapply stencil_seq ].

(** With the stencil-strokes flag set, whatever is bound beforehand and
    whatever the call and the renderer state: the strips of the first pass
    are drawn under the fill state (Equal, pass Incr), those of the second
    and of the third pass under the anti-aliasing state (Equal, all Keep),
    and the default state is left bound. *)
Lemma DrawStroke_stencil_states (ctx : DKNVGcontext) (call : DKNVGcall)
    (b : DepthStencilState) :
  has_flag (ctx_flags ctx) NVG_STENCIL_STROKES = true ->
  stencil_run (DrawStroke ctx call) b
    (under stroke_fill_state (stroke_strips ctx call)
     ++ under stroke_aa_state (stroke_strips ctx call)
     ++ under stroke_aa_state (stroke_strips ctx call))
    DepthStencilState_default.
Proof.
  intros Hflag. unfold DrawStroke. rewrite Hflag.
  eapply stencil_eq; [repeat stencil_step|].
  cbn [app]. rewrite ?app_nil_r. reflexivity.
Qed.

(** (X4) A fill with antialiasing binds three distinct states before its draws:
    fans under the winding state, fringes under the stencil-equal state, the
    cover strip under the not-equal/zero state; the default state is left
    bound. *)
Lemma DrawFill_stencil_states (ctx : DKNVGcontext) (call : DKNVGcall)
    (b : DepthStencilState) :
  has_flag (ctx_flags ctx) NVG_ANTIALIAS = true ->
  stencil_run (DrawFill ctx call) b
    (under fill_winding_state (fill_fans ctx call)
     ++ under fill_fringe_state (stroke_strips ctx call)
     ++ [(cover_strip call, fill_cover_state)])
    DepthStencilState_default.
Proof.
  intros Hflag. unfold DrawFill. rewrite Hflag.
  eapply stencil_eq; [repeat stencil_step|].
  cbn [app]. rewrite ?app_nil_r. reflexivity.
Qed.

End StencilStates.

(** ** The allocator in general *)

Section Allocator.

Lemma mapping_at_insert_eq (m : list Z) (i v : Z) :
  0 <= i -> (Z.to_nat i < length m)%nat ->
  mapping_at (<[Z.to_nat i := v]> m) i = v.
Proof.
  intros Hi Hlen. unfold mapping_at.
  now rewrite list_lookup_insert_eq.
Qed.

Lemma mapping_at_insert_ne (m : list Z) (i j v : Z) :
  0 <= i -> 0 <= j -> i <> j ->
  mapping_at (<[Z.to_nat i := v]> m) j = mapping_at m j.
Proof.
  intros Hi Hj Hne. unfold mapping_at.
  rewrite list_lookup_insert_ne; [reflexivity | lia].
Qed.

(** What the scan of [AcquireImageDescriptor] returns. *)
Lemma acquire_scan_spec (m : list Z) (last image : Z) (trips : nat) :
  forall desc free : Z,
    match acquire_scan m last image trips desc free with
    | Found d =>
        desc <= d < desc + Z.of_nat trips /\ mapping_at m d = image
    | NotFound f =>
        (forall j, desc <= j < desc + Z.of_nat trips -> mapping_at m j <> image)
        /\ (f = free
            \/ (desc <= f < desc + Z.of_nat trips /\ mapping_at m f = 0
                /\ free = last + 1))
    end.
Proof.
  induction trips as [|trips IH]; intros desc free.
  - cbn. split; [lia | now left].
  - cbn [acquire_scan].
    destruct (Z.eqb_spec (mapping_at m desc) image) as [Heq|Hne].
    + split; [lia | exact Heq].
    + destruct ((mapping_at m desc =? 0) && (free =? last + 1)) eqn:Hfree.
      * specialize (IH (desc + 1) desc).
        apply andb_prop in Hfree as [H0 Hf].
        apply Z.eqb_eq in H0. apply Z.eqb_eq in Hf.
        destruct (acquire_scan m last image trips (desc + 1) desc) as [d|f].
        -- destruct IH as [Hd Hm]. split; [lia | exact Hm].
        -- destruct IH as [Hall Hf']. split.
           ++ intros j Hj. destruct (Z.eq_dec j desc) as [->|Hjd]; [exact Hne|].
              apply Hall. lia.
           ++ right. destruct Hf' as [->|(Hr & Hm0 & Habs)].
              ** repeat split; [lia | lia | exact H0 | exact Hf].
              ** repeat split; [lia | lia | exact Hm0 | exact Hf].
      * specialize (IH (desc + 1) free).
        destruct (acquire_scan m last image trips (desc + 1) free) as [d|f].
        -- destruct IH as [Hd Hm]. split; [lia | exact Hm].
        -- destruct IH as [Hall Hf']. split.
           ++ intros j Hj. destruct (Z.eq_dec j desc) as [->|Hjd]; [exact Hne|].
              apply Hall. lia.
           ++ destruct Hf' as [->|(Hr & Hm0 & Hfr)]; [now left|].
              right. repeat split; [lia | lia | exact Hm0 | exact Hfr].
Qed.

(** The scan stops at the first slot that maps the image. *)
Lemma acquire_scan_first_match (m : list Z) (last image : Z) (trips : nat) :
  forall desc free d : Z,
    desc <= d < desc + Z.of_nat trips ->
    (forall j, desc <= j < d -> mapping_at m j <> image) ->
    mapping_at m d = image ->
    acquire_scan m last image trips desc free = Found d.
Proof.
  induction trips as [|trips IH]; intros desc free d Hd Hbefore Hat; [lia|].
  cbn [acquire_scan].
  destruct (Z.eqb_spec (mapping_at m desc) image) as [Heq|Hne].
  - destruct (Z.eq_dec desc d) as [->|Hdd]; [reflexivity|].
    exfalso. apply (Hbefore desc); [lia | exact Heq].
  - assert (desc <> d) by (intros ->; contradiction).
    destruct ((mapping_at m desc =? 0) && (free =? last + 1));
      apply IH; try lia; try exact Hat; intros j Hj; apply Hbefore; lia.
Qed.

(** Whenever [AcquireImageDescriptor] records commands (the cache-miss
    branch), the high-water mark afterwards is the slot it returns. *)
Lemma AcquireImageDescriptor_miss_mark (texture : Texture) (image : Z) (r : DkRenderer) :
  recorded_by (AcquireImageDescriptor texture image) r <> [] ->
  lastImageDescriptor (snd (AcquireImageDescriptor texture image r))
  = fst (AcquireImageDescriptor texture image r).
Proof.
  unfold recorded_by, AcquireImageDescriptor, bind, get. cbn [fst snd].
  destruct (acquire_scan _ _ _ _ _ _) as [d|f].
  - unfold ret. cbn [snd]. rewrite drop_all. congruence.
  - destruct (f >=? MaxImages).
    + unfold ret. cbn [snd]. rewrite drop_all. congruence.
    + intros _. reflexivity.
Qed.

(** [AcquireImageDescriptor] by the outcome of its scan. *)
Lemma AcquireImageDescriptor_unfold (texture : Texture) (image : Z) (r : DkRenderer) :
  AcquireImageDescriptor texture image r =
    match acquire_scan (imageDescriptorMappings r) (lastImageDescriptor r) image
            (Z.to_nat (lastImageDescriptor r + 1)) 0 (lastImageDescriptor r + 1) with
    | Found d => (d, r)
    | NotFound f =>
        if f >=? MaxImages then (-1, r)
        else (f, mkRenderer (viewWidth r) (viewHeight r)
                   (dynCmdBuf r ++ [UpdateImageDescriptor f (Texture_id texture);
                                    Barrier_InvalidateDescriptors])
                   (dynCmdMem r) (queue r) (vertexBuffer r) (nextTextureId r)
                   (textures r)
                   (<[Z.to_nat f := image]> (imageDescriptorMappings r)) f)
    end.
Proof.
  unfold AcquireImageDescriptor, bind, get. cbn [fst snd].
  destruct (acquire_scan _ _ _ _ _ _) as [d|f]; [reflexivity|].
  destruct (f >=? MaxImages); [reflexivity|].
  unfold record, modify, ret, set_lastImageDescriptor, set_imageDescriptorMappings,
    set_dynCmdBuf. cbn. now rewrite <- app_assoc.
Qed.

(** (X6) An acquisition repeated at once is a cache hit: same slot, nothing
    recorded, nothing changed. *)
Lemma AcquireImageDescriptor_repeat (texture : Texture) (image : Z) (r : DkRenderer) :
  allocator_wf r ->
  fst (AcquireImageDescriptor texture image r) <> -1 ->
  AcquireImageDescriptor texture image (snd (AcquireImageDescriptor texture image r))
  = (fst (AcquireImageDescriptor texture image r),
     snd (AcquireImageDescriptor texture image r)).
Proof.
  intros [Hlen Hlast].
  pose proof (acquire_scan_spec (imageDescriptorMappings r) (lastImageDescriptor r)
                image (Z.to_nat (lastImageDescriptor r + 1)) 0
                (lastImageDescriptor r + 1)) as Hspec.
  rewrite (AcquireImageDescriptor_unfold texture image r).
  destruct (acquire_scan _ _ _ _ _ _) as [d|f] eqn:Hscan.
  - intros _. cbn [fst snd]. rewrite AcquireImageDescriptor_unfold, Hscan. reflexivity.
  - destruct (Z.geb_spec f MaxImages) as [Hge|Hlt]; cbn [fst snd]; [congruence|].
    intros _. destruct Hspec as [Hall Hf].
    rewrite Z2Nat.id in Hall, Hf by lia.
    assert (Hf0 : 0 <= f <= lastImageDescriptor r + 1) by (destruct Hf; lia).
    rewrite AcquireImageDescriptor_unfold.
    cbn [lastImageDescriptor imageDescriptorMappings].
    rewrite (acquire_scan_first_match _ f image (Z.to_nat (f + 1)) 0 (f + 1) f).
    + reflexivity.
    + lia.
    + intros j Hj. rewrite mapping_at_insert_ne by lia. apply Hall. lia.
    + apply mapping_at_insert_eq; [lia|]. rewrite Hlen. lia.
Qed.

Lemma mapping_at_insert_zero (m : list Z) (i : Z) :
  0 <= i -> mapping_at (<[Z.to_nat i := 0]> m) i = 0.
Proof.
  intros Hi. destruct (decide (Z.to_nat i < length m)%nat) as [Hlt|Hge].
  - now apply mapping_at_insert_eq.
  - rewrite list_insert_ge by lia. unfold mapping_at.
    now rewrite lookup_ge_None_2 by lia.
Qed.

(** What the loop of [FreeImageDescriptor] leaves in each slot. *)
Lemma free_scan_spec (image : Z) (trips : nat) :
  forall (desc : Z) (m : list Z) (j : Z),
    0 <= desc -> 0 <= j ->
    mapping_at (free_scan image trips desc m) j =
      if (desc <=? j) && (j <? desc + Z.of_nat trips) && (mapping_at m j =? image)
      then 0 else mapping_at m j.
Proof.
  induction trips as [|trips IH]; intros desc m j Hdesc Hj.
  - cbn [free_scan].
    replace ((desc <=? j) && (j <? desc + Z.of_nat 0)) with false; [reflexivity|].
    symmetry. apply andb_false_iff.
    destruct (Z.leb_spec desc j); [right; apply Z.ltb_ge; lia | now left].
  - cbn [free_scan]. rewrite IH by lia.
    destruct (Z.eq_dec j desc) as [->|Hjd].
    + replace (desc + 1 <=? desc) with false by (symmetry; apply Z.leb_gt; lia).
      replace (desc <=? desc) with true by (symmetry; apply Z.leb_le; lia).
      replace (desc <? desc + Z.of_nat (S trips)) with true
        by (symmetry; apply Z.ltb_lt; lia).
      cbn [andb].
      destruct (mapping_at m desc =? image); [now apply mapping_at_insert_zero | reflexivity].
    + assert (Hm : mapping_at (if mapping_at m desc =? image
                               then <[Z.to_nat desc := 0]> m else m) j
                   = mapping_at m j).
      { destruct (mapping_at m desc =? image); [|reflexivity].
        apply mapping_at_insert_ne; lia. }
      rewrite Hm.
      replace ((desc + 1 <=? j) && (j <? desc + 1 + Z.of_nat trips))
        with ((desc <=? j) && (j <? desc + Z.of_nat (S trips))); [reflexivity|].
      destruct (Z.leb_spec desc j), (Z.leb_spec (desc + 1) j),
        (Z.ltb_spec j (desc + Z.of_nat (S trips))),
        (Z.ltb_spec j (desc + 1 + Z.of_nat trips)); cbn; try reflexivity; lia.
Qed.

Lemma free_scan_length (image : Z) (trips : nat) :
  forall (desc : Z) (m : list Z), length (free_scan image trips desc m) = length m.
Proof.
  induction trips as [|trips IH]; intros desc m; [reflexivity|].
  cbn [free_scan]. rewrite IH.
  destruct (mapping_at m desc =? image); [apply length_insert | reflexivity].
Qed.

Lemma AcquireImageDescriptor_invariant (texture : Texture) (image : Z) (r : DkRenderer) :
  allocator_wf r -> window_unique r ->
  allocator_wf (snd (AcquireImageDescriptor texture image r))
  /\ window_unique (snd (AcquireImageDescriptor texture image r)).
Proof.
  intros [Hlen Hlast] Huniq.
  pose proof (acquire_scan_spec (imageDescriptorMappings r) (lastImageDescriptor r)
                image (Z.to_nat (lastImageDescriptor r + 1)) 0
                (lastImageDescriptor r + 1)) as Hspec.
  rewrite AcquireImageDescriptor_unfold.
  destruct (acquire_scan _ _ _ _ _ _) as [d|f]; [now repeat split|].
  destruct (Z.geb_spec f MaxImages) as [Hge|Hlt]; cbn [snd]; [now repeat split|].
  destruct Hspec as [Hall Hf]. rewrite Z2Nat.id in Hall, Hf by lia.
  assert (Hf0 : 0 <= f <= lastImageDescriptor r + 1) by (destruct Hf; lia).
  split.
  - split; cbn [imageDescriptorMappings lastImageDescriptor];
      [now rewrite length_insert | lia].
  - intros i j. cbn [imageDescriptorMappings lastImageDescriptor]. intros Hi Hj.
    destruct (Z.eq_dec i f) as [->|Hif], (Z.eq_dec j f) as [->|Hjf].
    + reflexivity.
    + rewrite mapping_at_insert_eq by (rewrite ?Hlen; lia).
      rewrite mapping_at_insert_ne by lia.
      intros Heq _. exfalso. apply (Hall j); [lia | now symmetry].
    + rewrite (mapping_at_insert_eq _ f) by (rewrite ?Hlen; lia).
      rewrite mapping_at_insert_ne by lia.
      intros Heq _. exfalso. apply (Hall i); [lia | exact Heq].
    + rewrite !mapping_at_insert_ne by lia. apply Huniq; lia.
Qed.

Lemma FreeImageDescriptor_invariant (image : Z) (r : DkRenderer) :
  allocator_wf r -> window_unique r ->
  allocator_wf (snd (FreeImageDescriptor image r))
  /\ window_unique (snd (FreeImageDescriptor image r)).
Proof.
  intros [Hlen Hlast] Huniq. unfold FreeImageDescriptor, modify. cbn [snd].
  split.
  - split; cbn [imageDescriptorMappings lastImageDescriptor set_imageDescriptorMappings];
      [now rewrite free_scan_length | exact Hlast].
  - intros i j.
    cbn [imageDescriptorMappings lastImageDescriptor set_imageDescriptorMappings].
    intros Hi Hj. rewrite !free_scan_spec by lia.
    destruct ((0 <=? i) && _ && _); [congruence|].
    destruct ((0 <=? j) && _ && _); [congruence|].
    apply Huniq; lia.
Qed.

Lemma DkRenderer_new_invariant (vw vh : Z) :
  allocator_wf (DkRenderer_new vw vh) /\ window_unique (DkRenderer_new vw vh).
Proof.
  split.
  - split; cbn [DkRenderer_new imageDescriptorMappings lastImageDescriptor].
    + apply length_replicate.
    + unfold MaxImages. lia.
  - intros i j. cbn [DkRenderer_new lastImageDescriptor]. lia.
Qed.

Lemma run_alloc_Acquire_state (texture : Texture) (image : Z)
    (ops : list AllocOp) (r : DkRenderer) :
  snd (run_alloc (Acquire texture image :: ops) r)
  = snd (run_alloc ops (snd (AcquireImageDescriptor texture image r))).
Proof.
  cbn [run_alloc]. unfold bind.
  destruct (AcquireImageDescriptor texture image r) as [slot r1]. cbn [snd].
  destruct (run_alloc ops r1) as [slots r2]. reflexivity.
Qed.

Lemma run_alloc_Release_state (image : Z) (ops : list AllocOp) (r : DkRenderer) :
  snd (run_alloc (Release image :: ops) r)
  = snd (run_alloc ops (snd (FreeImageDescriptor image r))).
Proof.
  cbn [run_alloc]. unfold bind.
  destruct (FreeImageDescriptor image r) as [u r1]. reflexivity.
Qed.

Lemma run_alloc_invariant (ops : list AllocOp) :
  forall r : DkRenderer,
    allocator_wf r -> window_unique r ->
    allocator_wf (snd (run_alloc ops r)) /\ window_unique (snd (run_alloc ops r)).
Proof.
  induction ops as [|[texture image|image] ops IH]; intros r Hwf Huniq.
  - now split.
  - rewrite run_alloc_Acquire_state.
    destruct (AcquireImageDescriptor_invariant texture image r Hwf Huniq) as [Hwf1 Hu1].
    now apply IH.
  - rewrite run_alloc_Release_state.
    destruct (FreeImageDescriptor_invariant image r Hwf Huniq) as [Hwf1 Hu1].
    now apply IH.
Qed.

(** In every state the allocator reaches from the constructed renderer,
    the slots up to the high-water mark map each texture id at most once. *)
Lemma run_alloc_window_unique (vw vh : Z) (ops : list AllocOp) :
  window_unique (snd (run_alloc ops (DkRenderer_new vw vh))).
Proof.
  destruct (DkRenderer_new_invariant vw vh) as [Hwf Huniq].
  exact (proj2 (run_alloc_invariant ops _ Hwf Huniq)).
Qed.

End Allocator.

(** ** The command lists Flush submits *)

Section Submissions.

Lemma keeps_ret {A} (a : A) : keeps_queue (ret a).
Proof. intros r. reflexivity. Qed.

Lemma keeps_record (c : Cmd) : keeps_queue (record c).
Proof. intros r. reflexivity. Qed.

Lemma keeps_bind {A B} (c : M A) (k : A -> M B) :
  keeps_queue c -> (forall a, keeps_queue (k a)) -> keeps_queue (bind c k).
Proof.
  intros H1 H2 r. unfold bind. specialize (H1 r).
  destruct (c r) as [a r1]. cbn [snd] in H1. rewrite <- H1. apply H2.
Qed.

Lemma keeps_if {A} (b : bool) (c1 c2 : M A) :
  keeps_queue c1 -> keeps_queue c2 -> keeps_queue (if b then c1 else c2).
Proof. destruct b; trivial. Qed.

Lemma keeps_for_loop (body : Z -> M unit) :
  (forall i, keeps_queue (body i)) ->
  forall (trips : nat) (i : Z), keeps_queue (for_loop trips i body).
Proof.
  intros Hbody. induction trips as [|trips IH]; intros i.
  - apply keeps_ret.
  - cbn [for_loop]. apply keeps_bind; [apply Hbody | intros _; apply IH].
Qed.

Lemma keeps_AcquireImageDescriptor (texture : Texture) (image : Z) :
  keeps_queue (AcquireImageDescriptor texture image).
Proof.
  intros r. rewrite AcquireImageDescriptor_unfold.
  destruct (acquire_scan _ _ _ _ _ _) as [d|f]; [reflexivity|].
  destruct (f >=? MaxImages); reflexivity.
Qed.

Lemma keeps_SetUniforms (ctx : DKNVGcontext) (offset image : Z) :
  keeps_queue (SetUniforms ctx offset image).
Proof.
  unfold SetUniforms.
  apply keeps_bind; [apply keeps_record | intros _].
  apply keeps_bind; [apply keeps_record | intros _].
  apply keeps_bind; [intros r; reflexivity | intros r0].
  destruct (FindTexture r0 image) as [texture|]; [|apply keeps_ret].
  apply keeps_bind; [apply keeps_AcquireImageDescriptor | intros slot].
  apply keeps_if; [apply keeps_ret | apply keeps_record].
Qed.

Ltac keeps_step :=
  first
    [ apply keeps_SetUniforms
    | apply keeps_record
    | apply keeps_ret
    | apply keeps_for_loop; intros ?
    | apply keeps_bind; [|intros ?]
    | apply keeps_if ].

Lemma keeps_dispatch (ctx : DKNVGcontext) (call : DKNVGcall) :
  keeps_queue (dispatch ctx call).
Proof.
  unfold dispatch, DrawFill, DrawConvexFill, DrawStroke, DrawTriangles,
    draw_fill_fans, draw_stroke_strips, for_upto.
  repeat keeps_step.
Qed.

Lemma Flush_call_unfold (ctx : DKNVGcontext) (i : Z) (r : DkRenderer) :
  Flush_call ctx i r =
    let r2 := snd (dispatch ctx (call_at ctx i)
                     (set_dynCmdBuf (dynCmdBuf r ++ [blend_binding (call_at ctx i)]) r)) in
    (tt, set_queue (queue r2 ++ [dynCmdBuf r2])
           (set_dynCmdBuf []
              (set_dynCmdMem ((dynCmdMem r2 + 1) mod NumFramebuffers) r2))).
Proof.
  unfold Flush_call, bind, record, modify, dynCmdMem_end, queue_submitCommands,
    queue_waitIdle, get, ret, blend_binding.
  destruct (dispatch ctx (call_at ctx i) _) as [u r2]. reflexivity.
Qed.

(** One turn of the loop of [Flush]: the list being recorded, the call's
    blend binding and what the dispatch records are submitted as one command
    list, and a new list is started. *)
Lemma Flush_call_submits (ctx : DKNVGcontext) (i : Z) (r : DkRenderer) :
  exists body,
    queue (snd (Flush_call ctx i r))
    = queue r ++ [dynCmdBuf r ++ blend_binding (call_at ctx i) :: body]
    /\ draws_of body = call_draws ctx (call_at ctx i)
    /\ dynCmdBuf (snd (Flush_call ctx i r)) = [].
Proof.
  rewrite Flush_call_unfold.
  set (call := call_at ctx i).
  set (r1 := set_dynCmdBuf (dynCmdBuf r ++ [blend_binding call]) r).
  destruct (draws_dispatch ctx call r1) as (body & Hrec & Hdraws).
  pose proof (keeps_dispatch ctx call r1) as Hq.
  unfold records in Hrec.
  exists body. cbv zeta. cbn [snd queue dynCmdBuf set_queue set_dynCmdBuf set_dynCmdMem].
  rewrite Hq, Hrec. subst r1. cbn [queue dynCmdBuf set_dynCmdBuf].
  rewrite <- app_assoc. repeat split. exact Hdraws.
Qed.

Lemma Flush_loop_submits (ctx : DKNVGcontext) (trips : nat) :
  forall (i : Z) (r : DkRenderer),
    draws_of (dynCmdBuf r) = [] ->
    exists subs,
      queue (snd (for_loop trips i (Flush_call ctx) r)) = queue r ++ subs
      /\ List.map draws_of subs
         = List.map (fun k => call_draws ctx (call_at ctx k)) (seqZ i (Z.of_nat trips))
      /\ Forall2 (fun sub k => In (blend_binding (call_at ctx k)) sub)
           subs (seqZ i (Z.of_nat trips)).
Proof.
  induction trips as [|trips IH]; intros i r Hbuf.
  - exists []. rewrite seqZ_nil by lia. cbn. rewrite app_nil_r. repeat split.
    constructor.
  - destruct (Flush_call_submits ctx i r) as (body & Hq & Hdraws & Hempty).
    cbn [for_loop]. unfold bind.
    destruct (Flush_call ctx i r) as [u r1]. cbn [snd] in Hq, Hempty.
    destruct (IH (i + 1) r1) as (subs & Hq' & Hmap & Hblend).
    { rewrite Hempty. reflexivity. }
    exists ((dynCmdBuf r ++ blend_binding (call_at ctx i) :: body) :: subs).
    rewrite seqZ_cons by lia.
    replace (Z.pred (Z.of_nat (S trips))) with (Z.of_nat trips) by lia.
    replace (Z.succ i) with (i + 1) by lia.
    split; [|split].
    + rewrite Hq', Hq. now rewrite <- app_assoc.
    + cbn [List.map]. rewrite Hmap. f_equal.
      rewrite draws_of_app, Hbuf. cbn. exact Hdraws.
    + constructor; [|exact Hblend].
      apply in_or_app. right. now left.
Qed.

(** With calls to flush, [Flush] submits one command list per call, in the
    order of the calls; the list of call [k] holds the blend binding of the
    call, whose fourth factor is the call's dstRGB, and its draws are
    exactly the draws of the call. *)
Lemma Flush_submits_calls_in_order (ctx : DKNVGcontext) (r : DkRenderer) :
  0 < ncalls ctx ->
  exists subs,
    queue (snd (Flush ctx r)) = queue r ++ subs
    /\ List.map draws_of subs
       = List.map (fun k => call_draws ctx (call_at ctx k)) (seqZ 0 (ncalls ctx))
    /\ Forall2 (fun sub k => In (blend_binding (call_at ctx k)) sub)
         subs (seqZ 0 (ncalls ctx)).
Proof.
  intros Hn.
  pose (r1 := mkRenderer (viewWidth r) (viewHeight r)
                [BindColorState true; BindShaders; BindVtxAttribState;
                 BindVtxBufferState;
                 BindVtxBuffer (to_size_t (to_size_t (nverts ctx) * sizeof_NVGvertex));
                 PushConstants viewUniformBuffer sizeof_View
                   (ViewSize (viewWidth r) (viewHeight r));
                 BindUniformBuffer DkStage_Vertex viewUniformBuffer]
                (dynCmdMem r) (queue r)
                (Some (to_size_t (to_size_t (nverts ctx) * sizeof_NVGvertex)))
                (nextTextureId r) (textures r)
                (imageDescriptorMappings r) (lastImageDescriptor r)).
  assert (Hflush : snd (Flush ctx r)
                   = snd (for_loop (Z.to_nat (ncalls ctx)) 0 (Flush_call ctx) r1)).
  { unfold Flush.
    replace (ncalls ctx >? 0) with true by (symmetry; apply Z.gtb_lt; lia).
    unfold for_upto, bind, dynCmdMem_begin, UpdateVertexBuffer, record, modify,
      get, ret.
    cbn [fst snd dynCmdBuf set_dynCmdBuf set_vertexBuffer vertexBuffer default
         viewWidth viewHeight app from_option].
    match goal with
    | |- context [for_loop _ 0 (Flush_call ctx) ?st] => change st with r1
    end.
    destruct (for_loop (Z.to_nat (ncalls ctx)) 0 (Flush_call ctx) r1) as [u r2].
    reflexivity. }
  destruct (Flush_loop_submits ctx (Z.to_nat (ncalls ctx)) 0 r1 eq_refl)
    as (subs & Hq & Hmap & Hblend).
  rewrite seqZ_of_to_nat in Hmap, Hblend.
  exists subs. rewrite Hflush. split; [exact Hq | split; assumption].
Qed.

End Submissions.

(** ** Further properties of the registry and of the passes *)

Section Further.

Lemma find_texture_app_new (id : Z) (ts : list Texture) (t : Texture) :
  (forall t', In t' ts -> Texture_id t' <> id) ->
  Texture_id t = id ->
  find_texture id (ts ++ [t]) = Some t.
Proof.
  intros Hfresh Hid. induction ts as [|t' ts IH]; cbn.
  - rewrite Hid, Z.eqb_refl. reflexivity.
  - destruct (Z.eqb_spec (Texture_id t') id) as [Heq|Hne].
    + exfalso. apply (Hfresh t'); [now left | exact Heq].
    + apply IH. intros t'' Hin. apply Hfresh. now right.
Qed.

(** (X1) Round trip: a texture created with size [w] x [h] reports exactly
    that size, whatever its data, provided its id is not already borne by a
    registered texture (ids are handed out increasingly, so it is not). *)
Lemma CreateTexture_GetTextureSize (r : DkRenderer)
    (type w h imageFlags data w0 h0 : Z) :
  (forall t, In t (textures r) -> Texture_id t <> nextTextureId r) ->
  GetTextureSize (snd (CreateTexture type w h imageFlags data r))
    (fst (CreateTexture type w h imageFlags data r)) w0 h0
  = (1, w, h).
Proof.
  intros Hfresh.
  unfold CreateTexture, Texture_Initialize, UpdateImage, bind, get, modify, ret,
    queue_submitCommands, queue_waitIdle.
  unfold GetTextureSize, GetTextureDescriptor.
  destruct (data =? 0); cbn;
    rewrite (find_texture_app_new (nextTextureId r) (textures r)
               (mkTexture (nextTextureId r) (mkTextureDescriptor w h type imageFlags))
               Hfresh eq_refl);
    reflexivity.
Qed.

Lemma CreateTexture_GetTextureSize_witness :
  (forall t, In t (textures (DkRenderer_new 1280 720)) ->
             Texture_id t <> nextTextureId (DkRenderer_new 1280 720))
  /\ GetTextureSize
       (snd (CreateTexture NVG_TEXTURE_ALPHA 640 480 0 4096 (DkRenderer_new 1280 720)))
       (fst (CreateTexture NVG_TEXTURE_ALPHA 640 480 0 4096 (DkRenderer_new 1280 720)))
       0 0
     = (1, 640, 480).
Proof.
  assert (Hfresh : forall t, In t (textures (DkRenderer_new 1280 720)) ->
                             Texture_id t <> nextTextureId (DkRenderer_new 1280 720))
    by (intros t []).
  split; [exact Hfresh|].
  exact (CreateTexture_GetTextureSize _ NVG_TEXTURE_ALPHA 640 480 0 4096 0 0 Hfresh).
Defined.

Lemma erase_textures_none (image : Z) (ts : list Texture) :
  (forall t, In t ts -> Texture_id t <> image) ->
  erase_textures image ts false = (ts, false).
Proof.
  induction ts as [|t ts IH]; intros Hnone; cbn; [reflexivity|].
  destruct (Z.eqb_spec (Texture_id t) image) as [Heq|Hne].
  - exfalso. apply (Hnone t); [now left | exact Heq].
  - rewrite IH; [reflexivity|]. intros t' Hin. apply Hnone. now right.
Qed.

Lemma insert_zero_same (m : list Z) (i : Z) :
  mapping_at m i = 0 -> <[Z.to_nat i := 0]> m = m.
Proof.
  unfold mapping_at. intros H0.
  destruct (m !! Z.to_nat i) as [x|] eqn:Hx.
  - cbn in H0. subst x. now apply list_insert_id.
  - apply list_insert_ge. now apply lookup_ge_None.
Qed.

Lemma free_scan_noop (image : Z) (trips : nat) :
  forall (desc : Z) (m : list Z),
    (forall j, desc <= j < desc + Z.of_nat trips ->
               mapping_at m j = image -> image = 0) ->
    free_scan image trips desc m = m.
Proof.
  induction trips as [|trips IH]; intros desc m Hnone; [reflexivity|].
  cbn [free_scan].
  destruct (Z.eqb_spec (mapping_at m desc) image) as [Heq|Hne].
  - assert (H0 : image = 0) by (apply (Hnone desc); [lia | exact Heq]).
    rewrite insert_zero_same by congruence.
    apply IH. intros j Hj. apply Hnone. lia.
  - apply IH. intros j Hj. apply Hnone. lia.
Qed.

(** (X2) [DeleteTexture] on an id that no registered texture bears and no
    slot up to the high-water mark maps returns 0 and leaves the renderer as
    it was. *)
Lemma DeleteTexture_unregistered (r : DkRenderer) (image : Z) :
  (forall t, In t (textures r) -> Texture_id t <> image) ->
  (forall j, 0 <= j <= lastImageDescriptor r ->
             mapping_at (imageDescriptorMappings r) j <> image) ->
  DeleteTexture image r = (0, r).
Proof.
  intros Hnone Hslots.
  unfold DeleteTexture, bind, get. rewrite erase_textures_none by exact Hnone.
  unfold FreeImageDescriptor, modify, ret. cbn.
  rewrite free_scan_noop.
  - destruct r; reflexivity.
  - intros j Hj Heq. exfalso. apply (Hslots j); [lia | exact Heq].
Qed.

Lemma DeleteTexture_unregistered_witness :
  let r := snd (run_alloc [Acquire (texture_16 1) 1]
                  (snd (CreateTexture NVG_TEXTURE_RGBA 16 16 0 0
                          (DkRenderer_new 1280 720)))) in
  (forall t, In t (textures r) -> Texture_id t <> 9)
  /\ (forall j, 0 <= j <= lastImageDescriptor r ->
                mapping_at (imageDescriptorMappings r) j <> 9)
  /\ DeleteTexture 9 r = (0, r).
Proof.
  set (r := snd (run_alloc [Acquire (texture_16 1) 1]
                   (snd (CreateTexture NVG_TEXTURE_RGBA 16 16 0 0
                           (DkRenderer_new 1280 720))))).
  assert (Hnone : forall t, In t (textures r) -> Texture_id t <> 9).
  { intros t Hin. vm_compute in Hin. destruct Hin as [<-|[]]. vm_compute. discriminate. }
  assert (Hslots : forall j, 0 <= j <= lastImageDescriptor r ->
                             mapping_at (imageDescriptorMappings r) j <> 9).
  { intros j Hj. change (lastImageDescriptor r) with 0 in Hj.
    assert (j = 0) as -> by lia. vm_compute. discriminate. }
  split; [exact Hnone|]. split; [exact Hslots|].
  exact (DeleteTexture_unregistered r 9 Hnone Hslots).
Defined.

Lemma convex_all_draws (ctx : DKNVGcontext) (call : DKNVGcall) (l : list Z) :
  forallb is_draw (flat_map (convex_path_draws ctx call) l) = true.
Proof.
  induction l as [|i l IH]; cbn; [reflexivity|].
  destruct (strokeCount (path_at ctx call i) >? 0); cbn; exact IH.
Qed.

(** (X3) A convex fill changes no depth-stencil state: all its draws are
    issued under the state bound beforehand, which stays bound. *)
Lemma DrawConvexFill_stencil_states (ctx : DKNVGcontext) (call : DKNVGcall)
    (b : DepthStencilState) :
  stencil_run (DrawConvexFill ctx call) b
    (under b (flat_map (convex_path_draws ctx call) (path_indices call))) b.
Proof.
  unfold DrawConvexFill.
  eapply stencil_eq; [eapply stencil_seq; [apply stencil_SetUniforms|]|reflexivity].
  intros r. exists (flat_map (convex_path_draws ctx call) (path_indices call)). split.
  - apply (records_for_upto _ (convex_path_draws ctx call)). intros i r'.
    unfold convex_path_draws, fill_fan, stroke_strip.
    destruct (strokeCount (path_at ctx call i) >? 0).
    + apply (records_bind _ _ _ [_] [_]); apply records_record.
    + apply (records_bind _ _ _ [_] []); [apply records_record | apply records_ret].
  - apply draws_under, convex_all_draws.
Qed.

(** (X5) With calls to flush, [Flush] submits one command list per call, in
    the order of the calls, and the draws of each list are exactly the draws
    of its call. *)
Lemma Flush_draws_in_call_order (ctx : DKNVGcontext) (r : DkRenderer) :
  0 < ncalls ctx ->
  exists subs,
    queue (snd (Flush ctx r)) = queue r ++ subs
    /\ List.map draws_of subs
       = List.map (fun k => call_draws ctx (call_at ctx k)) (seqZ 0 (ncalls ctx)).
Proof.
  intros Hn.
  destruct (Flush_submits_calls_in_order ctx r Hn) as (subs & Hq & Hmap & _).
  exists subs. now split.
Qed.

Lemma Flush_draws_in_call_order_witness :
  let ctx := mkContext 180 NVG_ANTIALIAS
               [mkCall DKNVG_CONVEXFILL 0 0 1 0 0 0 (mkBlend 1 2 3 4);
                mkCall DKNVG_TRIANGLES 0 0 0 20 6 180 (mkBlend 1 2 3 4)]
               2 [mkPath 0 6 6 14] 1 26 2 in
  0 < ncalls ctx
  /\ exists subs,
       queue (snd (Flush ctx (DkRenderer_new 1280 720))) = [] ++ subs
       /\ List.map draws_of subs
          = List.map (fun k => call_draws ctx (call_at ctx k)) (seqZ 0 (ncalls ctx)).
Proof.
  split; [reflexivity|].
  apply (Flush_draws_in_call_order _ (DkRenderer_new 1280 720)). reflexivity.
Defined.

Lemma DrawFill_stencil_states_witness :
  let ctx := mkContext 180 NVG_ANTIALIAS [] 0 [mkPath 0 6 6 14] 1 26 2 in
  let call := mkCall DKNVG_FILL 0 0 1 20 4 0 (mkBlend 1 2 3 4) in
  has_flag (ctx_flags ctx) NVG_ANTIALIAS = true
  /\ stencil_run (DrawFill ctx call) DepthStencilState_default
       (under fill_winding_state (fill_fans ctx call)
        ++ under fill_fringe_state (stroke_strips ctx call)
        ++ [(cover_strip call, fill_cover_state)])
       DepthStencilState_default.
Proof.
  split; [reflexivity|].
  apply DrawFill_stencil_states. reflexivity.
Defined.

Lemma AcquireImageDescriptor_repeat_witness :
  let r := DkRenderer_new 1280 720 in
  allocator_wf r
  /\ fst (AcquireImageDescriptor (texture_16 1) 1 r) <> -1
  /\ AcquireImageDescriptor (texture_16 1) 1
       (snd (AcquireImageDescriptor (texture_16 1) 1 r))
     = (fst (AcquireImageDescriptor (texture_16 1) 1 r),
        snd (AcquireImageDescriptor (texture_16 1) 1 r)).
Proof.
  assert (Hok : fst (AcquireImageDescriptor (texture_16 1) 1 (DkRenderer_new 1280 720))
                <> -1) by (vm_compute; discriminate).
  split; [exact (proj1 (DkRenderer_new_invariant 1280 720))|].
  split; [exact Hok|].
  exact (AcquireImageDescriptor_repeat (texture_16 1) 1 (DkRenderer_new 1280 720)
           (proj1 (DkRenderer_new_invariant 1280 720)) Hok).
Defined.

End Further.

(** ** The allocator: bounds, failure, slot choice, release *)

Section AllocatorCoverage.

Lemma acquire_scan_keeps_free (m : list Z) (last image : Z) (trips : nat) :
  forall desc free : Z,
    free <> last + 1 ->
    match acquire_scan m last image trips desc free with
    | Found _ => True
    | NotFound f => f = free
    end.
Proof.
  induction trips as [|trips IH]; intros desc free Hfree; cbn [acquire_scan];
    [reflexivity|].
  destruct (mapping_at m desc =? image); [exact I|].
  replace (free =? last + 1) with false by (symmetry; now apply Z.eqb_neq).
  rewrite andb_false_r. now apply IH.
Qed.

(** The candidate of a scan that starts with no candidate: the lowest free
    slot scanned, or none. *)
Lemma acquire_scan_candidate (m : list Z) (last image : Z) (trips : nat) :
  forall desc : Z,
    desc + Z.of_nat trips <= last + 1 ->
    match acquire_scan m last image trips desc (last + 1) with
    | Found _ => True
    | NotFound f =>
        (f = last + 1
         /\ forall j, desc <= j < desc + Z.of_nat trips -> mapping_at m j <> 0)
        \/ (desc <= f < desc + Z.of_nat trips
            /\ mapping_at m f = 0
            /\ forall j, desc <= j < f -> mapping_at m j <> 0)
    end.
Proof.
  induction trips as [|trips IH]; intros desc Hrange; cbn [acquire_scan].
  - left. split; [reflexivity | lia].
  - destruct (mapping_at m desc =? image); [exact I|].
    rewrite Z.eqb_refl, andb_true_r.
    destruct (Z.eqb_spec (mapping_at m desc) 0) as [H0|Hn0].
    + pose proof (acquire_scan_keeps_free m last image trips (desc + 1) desc
                    ltac:(lia)) as Hkeep.
      destruct (acquire_scan m last image trips (desc + 1) desc) as [d|f];
        [exact I|].
      subst f. right. repeat split; [lia | lia | exact H0 | lia].
    + specialize (IH (desc + 1) ltac:(lia)).
      destruct (acquire_scan m last image trips (desc + 1) (last + 1)) as [d|f];
        [exact I|].
      destruct IH as [[Hf Hall]|(Hf & Hm & Hall)].
      * left. split; [exact Hf|]. intros j Hj.
        destruct (Z.eq_dec j desc) as [->|Hjd]; [exact Hn0 | apply Hall; lia].
      * right. repeat split; [lia | lia | exact Hm |]. intros j Hj.
        destruct (Z.eq_dec j desc) as [->|Hjd]; [exact Hn0 | apply Hall; lia].
Qed.

(** The three outcomes of an acquisition on a well-formed allocator. *)
Lemma AcquireImageDescriptor_cases (texture : Texture) (image : Z) (r : DkRenderer) :
  allocator_wf r ->
  (exists d, 0 <= d <= lastImageDescriptor r
             /\ mapping_at (imageDescriptorMappings r) d = image
             /\ AcquireImageDescriptor texture image r = (d, r))
  \/ (unmapped r image
      /\ lowest_free r MaxImages
      /\ AcquireImageDescriptor texture image r = (-1, r))
  \/ (exists f, unmapped r image
                /\ lowest_free r f /\ 0 <= f < MaxImages
                /\ AcquireImageDescriptor texture image r
                   = (f, mkRenderer (viewWidth r) (viewHeight r)
                           (dynCmdBuf r ++ [UpdateImageDescriptor f (Texture_id texture);
                                            Barrier_InvalidateDescriptors])
                           (dynCmdMem r) (queue r) (vertexBuffer r) (nextTextureId r)
                           (textures r)
                           (<[Z.to_nat f := image]> (imageDescriptorMappings r)) f)).
Proof.
  intros [Hlen Hlast].
  pose proof (acquire_scan_spec (imageDescriptorMappings r) (lastImageDescriptor r)
                image (Z.to_nat (lastImageDescriptor r + 1)) 0
                (lastImageDescriptor r + 1)) as Hspec.
  pose proof (acquire_scan_candidate (imageDescriptorMappings r)
                (lastImageDescriptor r) image
                (Z.to_nat (lastImageDescriptor r + 1)) 0 ltac:(lia)) as Hcand.
  rewrite AcquireImageDescriptor_unfold.
  destruct (acquire_scan _ _ _ _ _ _) as [d|f].
  - left. exists d. destruct Hspec as [Hd Hm]. repeat split; [lia | lia | exact Hm].
  - right. destruct Hspec as [Hall _]. rewrite Z2Nat.id in Hall, Hcand by lia.
    assert (Hun : unmapped r image) by (intros j Hj; apply Hall; lia).
    assert (Hlow : lowest_free r f).
    { destruct Hcand as [[Hf Hnone]|(Hf & Hm & Hbelow)].
      - right. split; [exact Hf|]. intros j Hj. apply Hnone. lia.
      - left. repeat split; [lia | lia | exact Hm | exact Hbelow]. }
    assert (Hf : 0 <= f <= lastImageDescriptor r + 1)
      by (destruct Hlow as [(? & _)|(? & _)]; lia).
    destruct (Z.geb_spec f MaxImages) as [Hge|Hlt].
    + left. assert (f = MaxImages) as -> by lia. now repeat split.
    + right. exists f. repeat split; try assumption; lia.
Qed.

(** (X7) On a well-formed allocator, [AcquireImageDescriptor] returns -1 or a
    slot index inside the array; a returned slot maps the image afterwards;
    and the allocator stays well-formed (the array keeps its size, the mark
    stays a slot index). *)
Lemma AcquireImageDescriptor_in_bounds (texture : Texture) (image : Z)
    (r : DkRenderer) :
  allocator_wf r ->
  let s := fst (AcquireImageDescriptor texture image r) in
  let r' := snd (AcquireImageDescriptor texture image r) in
  (s = -1 \/ 0 <= s < MaxImages)
  /\ (s <> -1 -> mapping_at (imageDescriptorMappings r') s = image)
  /\ allocator_wf r'.
Proof.
  intros Hwf.
  destruct (AcquireImageDescriptor_cases texture image r Hwf)
    as [(d & Hd & Hm & ->)|[(_ & _ & ->)|(f & _ & _ & Hf & ->)]]; cbn [fst snd].
  - split; [right; destruct Hwf; lia|]. split; [intros _; exact Hm | exact Hwf].
  - split; [now left|]. split; [congruence | exact Hwf].
  - destruct Hwf as [Hlen Hlast]. split; [right; lia|]. split.
    + intros _. cbn [imageDescriptorMappings].
      apply mapping_at_insert_eq; [lia | rewrite Hlen; lia].
    + split; cbn [imageDescriptorMappings lastImageDescriptor];
        [now rewrite length_insert | lia].
Qed.

Lemma AcquireImageDescriptor_in_bounds_witness :
  allocator_wf exhausted_renderer
  /\ fst (AcquireImageDescriptor (texture_16 1) 1 exhausted_renderer) = -1
  /\ fst (AcquireImageDescriptor (texture_16 7) 7 exhausted_renderer) = 5
  /\ (let s := fst (AcquireImageDescriptor (texture_16 7) 7 exhausted_renderer) in
      let r' := snd (AcquireImageDescriptor (texture_16 7) 7 exhausted_renderer) in
      (s = -1 \/ 0 <= s < MaxImages)
      /\ (s <> -1 -> mapping_at (imageDescriptorMappings r') s = 7)
      /\ allocator_wf r').
Proof.
  assert (Hwf : allocator_wf exhausted_renderer).
  { split; [vm_compute; reflexivity|].
    cbn [exhausted_renderer lastImageDescriptor]. unfold MaxImages. lia. }
  split; [exact Hwf|].
  split; [vm_compute; reflexivity|].
  split; [vm_compute; reflexivity|].
  exact (AcquireImageDescriptor_in_bounds (texture_16 7) 7 exhausted_renderer Hwf).
Defined.

(** (X8) On a well-formed allocator, [AcquireImageDescriptor] fails (returns
    -1) exactly when the mark is at the last slot of the array and every
    slot holds the id of another texture: none maps the image and none is
    free. *)
Lemma AcquireImageDescriptor_fails_iff (texture : Texture) (image : Z)
    (r : DkRenderer) :
  allocator_wf r ->
  fst (AcquireImageDescriptor texture image r) = -1
  <-> (lastImageDescriptor r = MaxImages - 1
       /\ forall j, 0 <= j < MaxImages ->
                    mapping_at (imageDescriptorMappings r) j <> image
                    /\ mapping_at (imageDescriptorMappings r) j <> 0).
Proof.
  intros Hwf.
  destruct (AcquireImageDescriptor_cases texture image r Hwf)
    as [(d & Hd & Hm & ->)|[(Hun & Hlow & ->)|(f & Hun & Hlow & Hf & ->)]];
    cbn [fst]; destruct Hwf as [Hlen Hlast].
  - split; [lia|]. intros [Hmark Hall]. exfalso.
    apply (proj1 (Hall d ltac:(lia))). exact Hm.
  - split; [intros _ | reflexivity].
    destruct Hlow as [(Hs & _)|(Hs & Hnone)]; [lia|].
    split; [lia|]. intros j Hj. split; [apply Hun | apply Hnone]; lia.
  - split; [lia|]. intros [Hmark Hall]. exfalso.
    destruct Hlow as [(Hs & Hm & _)|(Hs & _)]; [|lia].
    apply (proj2 (Hall f ltac:(lia))). exact Hm.
Qed.

Lemma AcquireImageDescriptor_fails_iff_witness :
  allocator_wf exhausted_renderer
  /\ (fst (AcquireImageDescriptor (texture_16 1) 1 exhausted_renderer) = -1
      <-> (lastImageDescriptor exhausted_renderer = MaxImages - 1
           /\ forall j, 0 <= j < MaxImages ->
                mapping_at (imageDescriptorMappings exhausted_renderer) j <> 1
                /\ mapping_at (imageDescriptorMappings exhausted_renderer) j <> 0)).
Proof.
  assert (Hwf : allocator_wf exhausted_renderer).
  { split; [vm_compute; reflexivity|].
    cbn [exhausted_renderer lastImageDescriptor]. unfold MaxImages. lia. }
  split; [exact Hwf|].
  exact (AcquireImageDescriptor_fails_iff (texture_16 1) 1 exhausted_renderer Hwf).
Defined.

(** (X9) A cache miss that finds room: when no slot up to the mark maps the
    image and the acquisition does not fail, the slot returned is the lowest
    free slot at or below the mark, or the slot after the mark when none is
    free; exactly a descriptor update of that slot followed by the
    descriptor-cache barrier is recorded; the table changes in that slot
    only; and the queue and the registry (the textures and the id counter)
    are left as they were. *)
Lemma AcquireImageDescriptor_miss (texture : Texture) (image : Z) (r : DkRenderer) :
  allocator_wf r ->
  unmapped r image ->
  fst (AcquireImageDescriptor texture image r) <> -1 ->
  let s := fst (AcquireImageDescriptor texture image r) in
  let r' := snd (AcquireImageDescriptor texture image r) in
  lowest_free r s
  /\ recorded_by (AcquireImageDescriptor texture image) r
     = [UpdateImageDescriptor s (Texture_id texture); Barrier_InvalidateDescriptors]
  /\ imageDescriptorMappings r' = <[Z.to_nat s := image]> (imageDescriptorMappings r)
  /\ queue r' = queue r /\ textures r' = textures r
  /\ nextTextureId r' = nextTextureId r.
Proof.
  intros Hwf Hun.
  unfold recorded_by.
  destruct (AcquireImageDescriptor_cases texture image r Hwf)
    as [(d & Hd & Hm & ->)|[(_ & _ & ->)|(f & _ & Hlow & Hf & ->)]]; cbn [fst snd].
  - intros _. exfalso. now apply (Hun d).
  - congruence.
  - intros _. cbn [dynCmdBuf imageDescriptorMappings queue textures nextTextureId].
    rewrite drop_app_length. now repeat split.
Qed.

Lemma AcquireImageDescriptor_miss_witness :
  let r := snd (run_alloc [Acquire (texture_16 1) 1; Acquire (texture_16 2) 2;
                           Acquire (texture_16 3) 3; Release 2]
                  (DkRenderer_new 1280 720)) in
  allocator_wf r
  /\ unmapped r 9
  /\ fst (AcquireImageDescriptor (texture_16 9) 9 r) = 1
  /\ lowest_free r (fst (AcquireImageDescriptor (texture_16 9) 9 r))
  /\ recorded_by (AcquireImageDescriptor (texture_16 9) 9) r
     = [UpdateImageDescriptor 1 9; Barrier_InvalidateDescriptors].
Proof.
  set (r := snd (run_alloc [Acquire (texture_16 1) 1; Acquire (texture_16 2) 2;
                            Acquire (texture_16 3) 3; Release 2]
                   (DkRenderer_new 1280 720))).
  assert (Hwf : allocator_wf r).
  { apply run_alloc_invariant; apply DkRenderer_new_invariant. }
  assert (Hun : unmapped r 9).
  { intros j Hj. change (lastImageDescriptor r) with 2 in Hj.
    assert (j = 0 \/ j = 1 \/ j = 2) as [->|[->| ->]] by lia;
      vm_compute; discriminate. }
  assert (Hok : fst (AcquireImageDescriptor (texture_16 9) 9 r) <> -1)
    by (vm_compute; discriminate).
  pose proof (AcquireImageDescriptor_miss (texture_16 9) 9 r Hwf Hun Hok) as H.
  cbv zeta in H. destruct H as (Hlow & Hrec & _).
  split; [exact Hwf|]. split; [exact Hun|].
  split; [vm_compute; reflexivity|].
  split; [exact Hlow | exact Hrec].
Defined.

Lemma FreeImageDescriptor_length (image : Z) (r : DkRenderer) :
  length (imageDescriptorMappings (snd (FreeImageDescriptor image r)))
  = length (imageDescriptorMappings r).
Proof. apply free_scan_length. Qed.

Lemma FreeImageDescriptor_zeroes (image : Z) (r : DkRenderer) (j : Z) :
  0 <= j <= lastImageDescriptor r ->
  mapping_at (imageDescriptorMappings r) j = image ->
  mapping_at (imageDescriptorMappings (snd (FreeImageDescriptor image r))) j = 0.
Proof.
  intros Hj Hm. unfold FreeImageDescriptor, modify.
  cbn [snd imageDescriptorMappings set_imageDescriptorMappings].
  rewrite free_scan_spec by lia.
  replace (0 <=? j) with true by (symmetry; apply Z.leb_le; lia).
  replace (j <? 0 + Z.of_nat (Z.to_nat (lastImageDescriptor r + 1))) with true
    by (symmetry; apply Z.ltb_lt; lia).
  rewrite Hm, Z.eqb_refl. reflexivity.
Qed.

Lemma FreeImageDescriptor_keeps (image : Z) (r : DkRenderer) (j : Z) :
  0 <= j ->
  mapping_at (imageDescriptorMappings r) j <> image ->
  mapping_at (imageDescriptorMappings (snd (FreeImageDescriptor image r))) j
  = mapping_at (imageDescriptorMappings r) j.
Proof.
  intros Hj Hm. unfold FreeImageDescriptor, modify.
  cbn [snd imageDescriptorMappings set_imageDescriptorMappings].
  rewrite free_scan_spec by lia.
  replace (mapping_at (imageDescriptorMappings r) j =? image) with false
    by (symmetry; now apply Z.eqb_neq).
  now rewrite andb_false_r.
Qed.

Lemma FreeImageDescriptor_unmapped (image : Z) (r : DkRenderer) :
  image <> 0 -> unmapped (snd (FreeImageDescriptor image r)) image.
Proof.
  intros Himage j Hj.
  assert (Hj' : 0 <= j <= lastImageDescriptor r) by exact Hj.
  destruct (Z.eq_dec (mapping_at (imageDescriptorMappings r) j) image) as [Heq|Hne].
  - rewrite FreeImageDescriptor_zeroes by assumption. congruence.
  - rewrite FreeImageDescriptor_keeps by (assumption || lia). exact Hne.
Qed.

Lemma FreeImageDescriptor_above (image : Z) (r : DkRenderer) (j : Z) :
  0 <= j -> lastImageDescriptor r < j ->
  mapping_at (imageDescriptorMappings (snd (FreeImageDescriptor image r))) j
  = mapping_at (imageDescriptorMappings r) j.
Proof.
  intros Hj Habove. unfold FreeImageDescriptor, modify.
  cbn [snd imageDescriptorMappings set_imageDescriptorMappings].
  rewrite free_scan_spec by lia.
  replace (j <? 0 + Z.of_nat (Z.to_nat (lastImageDescriptor r + 1))) with false
    by (symmetry; apply Z.ltb_ge; lia).
  now rewrite andb_false_r.
Qed.

(** (X10) [FreeImageDescriptor] changes the mapping table only: every slot
    at or below the mark that maps the image is set to 0, every other slot
    keeps its value (a slot that maps something else, and a slot above the
    mark whatever it maps), and the array keeps its size.  For a texture id
    (not 0) no slot up to the mark maps it afterwards. *)
Lemma FreeImageDescriptor_clears (image : Z) (r : DkRenderer) :
  let r' := snd (FreeImageDescriptor image r) in
  r' = set_imageDescriptorMappings (imageDescriptorMappings r') r
  /\ length (imageDescriptorMappings r') = length (imageDescriptorMappings r)
  /\ (forall j, 0 <= j <= lastImageDescriptor r ->
                mapping_at (imageDescriptorMappings r) j = image ->
                mapping_at (imageDescriptorMappings r') j = 0)
  /\ (forall j, 0 <= j ->
                mapping_at (imageDescriptorMappings r) j <> image ->
                mapping_at (imageDescriptorMappings r') j
                = mapping_at (imageDescriptorMappings r) j)
  /\ (forall j, 0 <= j -> lastImageDescriptor r < j ->
                mapping_at (imageDescriptorMappings r') j
                = mapping_at (imageDescriptorMappings r) j)
  /\ (image <> 0 -> unmapped r' image).
Proof.
  cbv zeta.
  split; [reflexivity|].
  split; [apply FreeImageDescriptor_length|].
  split; [intros j; apply FreeImageDescriptor_zeroes|].
  split; [intros j; apply FreeImageDescriptor_keeps|].
  split; [intros j; apply FreeImageDescriptor_above|].
  apply FreeImageDescriptor_unmapped.
Qed.

(** (X11) Acquire, release, acquire again.  After an acquisition of a
    texture id (not 0) that returned slot [s], releasing the id frees slot
    [s] and leaves no slot up to the mark mapped to it; the next acquisition
    of the id is a cache miss again: it returns a slot not above [s] and
    records a descriptor update followed by the barrier. *)
Lemma Acquire_Release_Acquire (texture : Texture) (image : Z) (r : DkRenderer) :
  allocator_wf r ->
  image <> 0 ->
  fst (AcquireImageDescriptor texture image r) <> -1 ->
  let s := fst (AcquireImageDescriptor texture image r) in
  let r1 := snd (AcquireImageDescriptor texture image r) in
  let r2 := snd (FreeImageDescriptor image r1) in
  let s2 := fst (AcquireImageDescriptor texture image r2) in
  mapping_at (imageDescriptorMappings r2) s = 0
  /\ unmapped r2 image
  /\ 0 <= s2 <= s
  /\ recorded_by (AcquireImageDescriptor texture image) r2
     = [UpdateImageDescriptor s2 (Texture_id texture); Barrier_InvalidateDescriptors].
Proof.
  intros Hwf Himage Hok s r1 r2 s2.
  assert (Hs : 0 <= s <= lastImageDescriptor r1
               /\ mapping_at (imageDescriptorMappings r1) s = image
               /\ allocator_wf r1).
  { subst s r1.
    destruct (AcquireImageDescriptor_cases texture image r Hwf)
      as [(d & Hd & Hm & Heq)|[(_ & _ & Heq)|(f & _ & _ & Hf & Heq)]];
      rewrite Heq in Hok |- *; cbn [fst snd] in *.
    - split; [exact Hd | split; [exact Hm | exact Hwf]].
    - congruence.
    - destruct Hwf as [Hlen Hlast].
      cbn [imageDescriptorMappings lastImageDescriptor].
      split; [lia|]. split.
      + apply mapping_at_insert_eq; [lia | rewrite Hlen; lia].
      + split; cbn [imageDescriptorMappings lastImageDescriptor];
          [now rewrite length_insert | lia]. }
  destruct Hs as (Hs & Hms & Hwf1).
  pose proof (FreeImageDescriptor_length image r1) as Hlen2. fold r2 in Hlen2.
  assert (H0 : mapping_at (imageDescriptorMappings r2) s = 0)
    by now apply FreeImageDescriptor_zeroes.
  pose proof (FreeImageDescriptor_unmapped image r1 Himage) as Hun. fold r2 in Hun.
  assert (Hwf2 : allocator_wf r2).
  { destruct Hwf1 as [Hlen1 Hlast1]. split; [now rewrite Hlen2 | exact Hlast1]. }
  assert (Hmark : lastImageDescriptor r2 = lastImageDescriptor r1) by reflexivity.
  split; [exact H0|]. split; [exact Hun|].
  unfold recorded_by. subst s2.
  destruct (AcquireImageDescriptor_cases texture image r2 Hwf2)
    as [(d & Hd & Hm & Heq)|[(_ & Hlow & Heq)|(f & _ & Hlow & Hf & Heq)]];
    rewrite Heq; cbn [fst snd dynCmdBuf].
  - exfalso. now apply (Hun d).
  - exfalso. destruct Hwf2 as [_ Hlast2].
    destruct Hlow as [(Hle & _)|(_ & Hnone)]; [lia|].
    apply (Hnone s); [lia | exact H0].
  - rewrite drop_app_length. split; [|reflexivity].
    destruct Hlow as [(Hle & _ & Hbelow)|(_ & Hnone)].
    + split; [lia|]. destruct (Z.le_gt_cases f s) as [Hfs|Hfs]; [exact Hfs|].
      exfalso. apply (Hbelow s); [lia | exact H0].
    + exfalso. apply (Hnone s); [lia | exact H0].
Qed.

Lemma Acquire_Release_Acquire_witness :
  let r := snd (run_alloc [Acquire (texture_16 1) 1; Acquire (texture_16 2) 2]
                  (DkRenderer_new 1280 720)) in
  allocator_wf r
  /\ 2 <> 0
  /\ fst (AcquireImageDescriptor (texture_16 2) 2 r) <> -1
  /\ (let s := fst (AcquireImageDescriptor (texture_16 2) 2 r) in
      let r1 := snd (AcquireImageDescriptor (texture_16 2) 2 r) in
      let r2 := snd (FreeImageDescriptor 2 r1) in
      let s2 := fst (AcquireImageDescriptor (texture_16 2) 2 r2) in
      mapping_at (imageDescriptorMappings r2) s = 0
      /\ unmapped r2 2
      /\ 0 <= s2 <= s
      /\ recorded_by (AcquireImageDescriptor (texture_16 2) 2) r2
         = [UpdateImageDescriptor s2 (Texture_id (texture_16 2));
            Barrier_InvalidateDescriptors]).
Proof.
  set (r := snd (run_alloc [Acquire (texture_16 1) 1; Acquire (texture_16 2) 2]
                   (DkRenderer_new 1280 720))).
  assert (Hwf : allocator_wf r).
  { apply run_alloc_invariant; apply DkRenderer_new_invariant. }
  assert (Hok : fst (AcquireImageDescriptor (texture_16 2) 2 r) <> -1)
    by (vm_compute; discriminate).
  split; [exact Hwf|]. split; [discriminate|]. split; [exact Hok|].
  exact (Acquire_Release_Acquire (texture_16 2) 2 r Hwf ltac:(discriminate) Hok).
Defined.

End AllocatorCoverage.

(** ** The registry: deletion, lookup, distinct ids *)

Section RegistryCoverage.

Lemma erase_textures_spec (image : Z) (ts : list Texture) :
  forall found : bool,
    erase_textures image ts found
    = (List.filter (fun t => negb (Texture_id t =? image)) ts,
       found || existsb (fun t => Texture_id t =? image) ts).
Proof.
  induction ts as [|t ts IH]; intros found; cbn.
  - now rewrite orb_false_r.
  - destruct (Texture_id t =? image); cbn.
    + rewrite IH. now rewrite orb_true_r.
    + now rewrite IH.
Qed.

Lemma find_texture_filter_same (image : Z) (ts : list Texture) :
  find_texture image (List.filter (fun t => negb (Texture_id t =? image)) ts) = None.
Proof.
  apply find_texture_None. intros t Hin.
  apply List.filter_In in Hin as [_ Hne].
  apply negb_true_iff, Z.eqb_neq in Hne. exact Hne.
Qed.

Lemma find_texture_filter_other (image id : Z) (ts : list Texture) :
  id <> image ->
  find_texture id (List.filter (fun t => negb (Texture_id t =? image)) ts)
  = find_texture id ts.
Proof.
  intros Hne. induction ts as [|t ts IH]; cbn; [reflexivity|].
  destruct (Z.eqb_spec (Texture_id t) image) as [Heq|Hneq]; cbn.
  - replace (Texture_id t =? id) with false; [exact IH|].
    symmetry. apply Z.eqb_neq. congruence.
  - destruct (Texture_id t =? id); [reflexivity | exact IH].
Qed.

Lemma DeleteTexture_unfold (image : Z) (r : DkRenderer) :
  DeleteTexture image r
  = (if existsb (fun t => Texture_id t =? image) (textures r) then 1 else 0,
     snd (FreeImageDescriptor image
            (set_textures
               (List.filter (fun t => negb (Texture_id t =? image)) (textures r)) r))).
Proof.
  unfold DeleteTexture, bind, get. rewrite erase_textures_spec. reflexivity.
Qed.

(** (X12) [DeleteTexture] returns 1 when some registered texture bears the
    id and 0 otherwise.  Afterwards no texture is found under the id (so
    [GetTextureSize] on it returns 0 and writes nothing), every other id
    resolves as before, and, for an id other than 0, no slot up to the
    high-water mark maps it. *)
Lemma DeleteTexture_removes (image : Z) (r : DkRenderer) :
  let r' := snd (DeleteTexture image r) in
  (fst (DeleteTexture image r) = 1
   <-> exists t, In t (textures r) /\ Texture_id t = image)
  /\ (fst (DeleteTexture image r) = 0 \/ fst (DeleteTexture image r) = 1)
  /\ FindTexture r' image = None
  /\ (forall w h, GetTextureSize r' image w h = (0, w, h))
  /\ (forall id, id <> image -> FindTexture r' id = FindTexture r id)
  /\ (image <> 0 -> unmapped r' image).
Proof.
  rewrite DeleteTexture_unfold. cbn [fst snd].
  set (kept := List.filter (fun t => negb (Texture_id t =? image)) (textures r)).
  assert (Hnone : find_texture image kept = None) by apply find_texture_filter_same.
  split; [|split; [|split; [|split; [|split]]]].
  - destruct (existsb _ (textures r)) eqn:Hex.
    + split; [intros _ | reflexivity].
      apply existsb_exists in Hex as (t & Hin & Heq).
      exists t. split; [exact Hin | now apply Z.eqb_eq].
    + split; [discriminate|]. intros (t & Hin & Heq). exfalso.
      assert (existsb (fun t => Texture_id t =? image) (textures r) = true).
      { apply existsb_exists. exists t. split; [exact Hin | now apply Z.eqb_eq]. }
      congruence.
  - destruct (existsb _ (textures r)); [now right | now left].
  - exact Hnone.
  - intros w h. unfold GetTextureSize, GetTextureDescriptor.
    unfold FreeImageDescriptor, modify. cbn [snd textures set_imageDescriptorMappings
                                              set_textures].
    fold kept. now rewrite Hnone.
  - intros id Hid. unfold FindTexture, FreeImageDescriptor, modify.
    cbn [snd textures set_imageDescriptorMappings set_textures].
    now apply find_texture_filter_other.
  - intros Himage.
    now apply FreeImageDescriptor_unmapped.
Qed.

(** The registered textures bear ids below the counter, in increasing
    order. *)
Lemma CreateTexture_textures (type w h imageFlags data : Z) (r : DkRenderer) :
  textures (snd (CreateTexture type w h imageFlags data r))
  = textures r ++ [mkTexture (nextTextureId r) (mkTextureDescriptor w h type imageFlags)].
Proof.
  unfold CreateTexture, Texture_Initialize, UpdateImage, bind, get, modify, ret,
    queue_submitCommands, queue_waitIdle.
  destruct (data =? 0); reflexivity.
Qed.

Lemma StronglySorted_snoc (l : list Z) (x : Z) :
  StronglySorted Z.lt l -> (forall y, In y l -> y < x) ->
  StronglySorted Z.lt (l ++ [x]).
Proof.
  induction 1 as [|a l Hs IH Hall]; intros Hlt; cbn.
  - constructor; constructor.
  - constructor.
    + apply IH. intros y Hy. apply Hlt. now right.
    + rewrite Forall_forall in Hall |- *. intros y Hy.
      apply list_elem_of_In, in_app_or in Hy as [Hy|[<-|[]]].
      * apply Hall. now apply list_elem_of_In.
      * apply Hlt. now left.
Qed.

Lemma run_registry_Create_state (type w h fl data : Z) (ops : list RegistryOp)
    (r : DkRenderer) :
  snd (run_registry (OpCreateTexture type w h fl data :: ops) r)
  = snd (run_registry ops (snd (CreateTexture type w h fl data r))).
Proof.
  cbn [run_registry]. unfold bind.
  destruct (CreateTexture type w h fl data r) as [id r1]. cbn [snd].
  destruct (run_registry ops r1) as [ids r2]. reflexivity.
Qed.

Lemma run_registry_Delete_state (image : Z) (ops : list RegistryOp) (r : DkRenderer) :
  snd (run_registry (OpDeleteTexture image :: ops) r)
  = snd (run_registry ops (snd (DeleteTexture image r))).
Proof.
  cbn [run_registry]. unfold bind.
  destruct (DeleteTexture image r) as [found r1]. reflexivity.
Qed.

Lemma registry_run_sorted (ops : list RegistryOp) :
  forall r : DkRenderer,
    StronglySorted Z.lt (List.map Texture_id (textures r)) ->
    (forall t, In t (textures r) -> 1 <= Texture_id t < nextTextureId r) ->
    1 <= nextTextureId r ->
    nextTextureId r + count_creates ops <= INT_MAX ->
    StronglySorted Z.lt (List.map Texture_id (textures (snd (run_registry ops r))))
    /\ (forall t, In t (textures (snd (run_registry ops r))) ->
                  1 <= Texture_id t < nextTextureId (snd (run_registry ops r)))
    /\ nextTextureId (snd (run_registry ops r)) = nextTextureId r + count_creates ops.
Proof.
  induction ops as [|[type w h fl data|image] ops IH]; intros r Hsorted Hids Hlo Hhi.
  - cbn. split; [exact Hsorted|]. split; [exact Hids | lia].
  - pose proof (count_creates_nonneg ops) as Hc.
    rewrite run_registry_Create_state. cbn [count_creates] in *.
    pose proof (CreateTexture_nextTextureId type w h fl data r) as Hnext.
    pose proof (CreateTexture_textures type w h fl data r) as Htex.
    rewrite int_wrap_small in Hnext by (unfold INT_MAX in *; lia).
    set (r1 := snd (CreateTexture type w h fl data r)) in *.
    replace (nextTextureId r + (1 + count_creates ops))
      with (nextTextureId r1 + count_creates ops) by lia.
    apply IH; try lia.
    + rewrite Htex, List.map_app. cbn.
      apply StronglySorted_snoc; [exact Hsorted|].
      intros y Hy. apply List.in_map_iff in Hy as (t & <- & Hin).
      apply Hids. exact Hin.
    + intros t Hin. rewrite Htex in Hin.
      apply in_app_or in Hin as [Hin|[<-|[]]].
      * specialize (Hids t Hin). lia.
      * cbn. lia.
  - rewrite run_registry_Delete_state. cbn [count_creates] in *.
    set (r1 := snd (DeleteTexture image r)).
    assert (Htex : textures r1
                   = List.filter (fun t => negb (Texture_id t =? image)) (textures r))
      by (subst r1; rewrite DeleteTexture_unfold; reflexivity).
    assert (Hn : nextTextureId r1 = nextTextureId r)
      by (subst r1; rewrite DeleteTexture_unfold; reflexivity).
    rewrite <- Hn. apply IH; rewrite ?Hn; try assumption.
    + rewrite Htex. clear - Hsorted.
      induction (textures r) as [|t ts IHts]; cbn; [constructor|].
      cbn in Hsorted. apply StronglySorted_inv in Hsorted as [Hs Hall].
      destruct (negb (Texture_id t =? image)); cbn; [|now apply IHts].
      constructor; [now apply IHts|].
      rewrite Forall_forall in Hall |- *. intros y Hy.
      apply Hall. apply list_elem_of_In in Hy. apply list_elem_of_In.
      apply List.in_map_iff in Hy as (t' & <- & Hin).
      apply List.filter_In in Hin as [Hin _].
      apply List.in_map_iff. now exists t'.
    + intros t Hin. rewrite Htex in Hin.
      apply List.filter_In in Hin as [Hin _]. now apply Hids.
Qed.

Lemma find_texture_sorted (ts : list Texture) (t : Texture) :
  StronglySorted Z.lt (List.map Texture_id ts) ->
  In t ts -> find_texture (Texture_id t) ts = Some t.
Proof.
  induction ts as [|t' ts IH]; intros Hsorted Hin; [destruct Hin|].
  cbn in Hsorted. apply StronglySorted_inv in Hsorted as [Hs Hall].
  cbn. destruct Hin as [->|Hin].
  - now rewrite Z.eqb_refl.
  - destruct (Z.eqb_spec (Texture_id t') (Texture_id t)) as [Heq|Hne].
    + exfalso. rewrite Forall_forall in Hall.
      assert (Texture_id t' < Texture_id t).
      { apply Hall. apply list_elem_of_In, List.in_map_iff. now exists t. }
      lia.
    + now apply IH.
Qed.

(** (X13) In every state reached from the constructed renderer by
    [CreateTexture] and [DeleteTexture] calls (fewer than [INT_MAX]
    creations), the registered textures bear pairwise distinct ids, in
    increasing order of registration and all between 1 and the id counter,
    and looking up the id of a registered texture finds that very
    texture. *)
Lemma registry_ids_distinct (vw vh : Z) (ops : list RegistryOp) :
  count_creates ops < INT_MAX ->
  let r := snd (run_registry ops (DkRenderer_new vw vh)) in
  StronglySorted Z.lt (List.map Texture_id (textures r))
  /\ NoDup (List.map Texture_id (textures r))
  /\ (forall t, In t (textures r) -> 1 <= Texture_id t < nextTextureId r)
  /\ (forall t, In t (textures r) -> FindTexture r (Texture_id t) = Some t).
Proof.
  intros Hcount r.
  destruct (registry_run_sorted ops (DkRenderer_new vw vh)) as (Hsorted & Hids & _).
  - constructor.
  - intros t [].
  - cbn. lia.
  - cbn. lia.
  - fold r in Hsorted, Hids. split; [exact Hsorted|]. split; [|split].
    + clear - Hsorted. induction Hsorted as [|a l Hs IH Hall]; constructor.
      * intros Hin. rewrite Forall_forall in Hall. specialize (Hall a Hin). lia.
      * exact IH.
    + exact Hids.
    + intros t Hin. now apply find_texture_sorted.
Qed.

Lemma registry_ids_distinct_witness :
  let ops := [OpCreateTexture NVG_TEXTURE_RGBA 100 100 0 4096;
              OpCreateTexture NVG_TEXTURE_ALPHA 8 8 0 0;
              OpDeleteTexture 1;
              OpCreateTexture NVG_TEXTURE_RGBA 16 16 0 0] in
  count_creates ops < INT_MAX
  /\ List.map Texture_id (textures (snd (run_registry ops (DkRenderer_new 1280 720))))
     = [2; 3]
  /\ (let r := snd (run_registry ops (DkRenderer_new 1280 720)) in
      StronglySorted Z.lt (List.map Texture_id (textures r))
      /\ NoDup (List.map Texture_id (textures r))
      /\ (forall t, In t (textures r) -> 1 <= Texture_id t < nextTextureId r)
      /\ (forall t, In t (textures r) -> FindTexture r (Texture_id t) = Some t)).
Proof.
  split; [vm_compute; reflexivity|].
  split; [vm_compute; reflexivity|].
  apply (registry_ids_distinct 1280 720). vm_compute. reflexivity.
Defined.

End RegistryCoverage.

(** ** Samplers: the selector of SetUniforms and the constructor's presets *)

Section Samplers.

Lemma sampler_loop_lookup (trips : nat) :
  forall (i : Z) (k : nat),
    (k < trips)%nat ->
    sampler_loop trips i !! k
    = Some (UpdateSamplerDescriptor (i + Z.of_nat k) (preset_sampler (i + Z.of_nat k))).
Proof.
  induction trips as [|trips IH]; intros i k Hk; [lia|].
  destruct k as [|k].
  - cbn. now rewrite Z.add_0_r.
  - change (sampler_loop (S trips) i !! S k) with (sampler_loop trips (i + 1) !! k).
    rewrite IH by lia.
    replace (i + 1 + Z.of_nat k) with (i + Z.of_nat (S k)) by lia. reflexivity.
Qed.

Lemma sampler_loop_length (trips : nat) (i : Z) : length (sampler_loop trips i) = trips.
Proof. revert i. induction trips as [|trips IH]; intros i; cbn; [|rewrite IH]; reflexivity. Qed.

(** (X14) The sampler selector composed by [SetUniforms] is a valid preset
    index for every flag word, and the preset it selects was set up by the
    constructor (at that index of its command list) with: nearest filtering
    exactly when the texture has NVG_IMAGE_NEAREST, a mip filter exactly when
    it has NVG_IMAGE_GENERATE_MIPMAPS, and repeat wrapping in u and v exactly
    when it has NVG_IMAGE_REPEATX and NVG_IMAGE_REPEATY. *)
Lemma sampler_selected_for_flags (imageFlags : Z) :
  let id := samplerId_of_flags imageFlags in
  let nearest := has_flag imageFlags NVG_IMAGE_NEAREST in
  0 <= id < SamplerType_Total
  /\ DkRenderer_init_cmdlist !! Z.to_nat id
     = Some (UpdateSamplerDescriptor id (preset_sampler id))
  /\ preset_sampler id
     = mkSampler
         (if nearest then DkFilter_Nearest else DkFilter_Linear)
         (if nearest then DkFilter_Nearest else DkFilter_Linear)
         (if has_flag imageFlags NVG_IMAGE_GENERATE_MIPMAPS
          then (if nearest then DkMipFilter_Nearest else DkMipFilter_Linear)
          else DkMipFilter_None)
         (if has_flag imageFlags NVG_IMAGE_REPEATX
          then DkWrapMode_Repeat else DkWrapMode_ClampToEdge)
         (if has_flag imageFlags NVG_IMAGE_REPEATY
          then DkWrapMode_Repeat else DkWrapMode_ClampToEdge).
Proof.
  intros id nearest.
  assert (Hid : 0 <= id < SamplerType_Total
                /\ preset_sampler id
                   = mkSampler
                       (if nearest then DkFilter_Nearest else DkFilter_Linear)
                       (if nearest then DkFilter_Nearest else DkFilter_Linear)
                       (if has_flag imageFlags NVG_IMAGE_GENERATE_MIPMAPS
                        then (if nearest then DkMipFilter_Nearest else DkMipFilter_Linear)
                        else DkMipFilter_None)
                       (if has_flag imageFlags NVG_IMAGE_REPEATX
                        then DkWrapMode_Repeat else DkWrapMode_ClampToEdge)
                       (if has_flag imageFlags NVG_IMAGE_REPEATY
                        then DkWrapMode_Repeat else DkWrapMode_ClampToEdge)).
  { subst id nearest. unfold samplerId_of_flags, sampler_bit.
    destruct (has_flag imageFlags NVG_IMAGE_GENERATE_MIPMAPS),
      (has_flag imageFlags NVG_IMAGE_NEAREST),
      (has_flag imageFlags NVG_IMAGE_REPEATX),
      (has_flag imageFlags NVG_IMAGE_REPEATY);
      (split; [vm_compute; split; [discriminate | reflexivity] | reflexivity]). }
  destruct Hid as [Hrange Hpreset].
  split; [exact Hrange|]. split; [|exact Hpreset].
  unfold DkRenderer_init_cmdlist. unfold SamplerType_Total in *.
  rewrite lookup_app_l by (rewrite sampler_loop_length; lia).
  rewrite sampler_loop_lookup by lia.
  rewrite Z2Nat.id by lia. reflexivity.
Qed.

End Samplers.

(** ** What the dispatcher keeps *)

Section Preservation.

Variable P : DkRenderer -> Prop.
Hypothesis P_dynCmdBuf : forall b r, P r -> P (set_dynCmdBuf b r).
Hypothesis P_dynCmdMem : forall v r, P r -> P (set_dynCmdMem v r).
Hypothesis P_queue : forall q r, P r -> P (set_queue q r).
Hypothesis P_vertexBuffer : forall v r, P r -> P (set_vertexBuffer v r).
Hypothesis P_acquire :
  forall texture image, preserves P (AcquireImageDescriptor texture image).

Lemma preserves_ret {A} (a : A) : preserves P (ret a).
Proof. intros r H. exact H. Qed.

Lemma preserves_get : preserves P get.
Proof. intros r H. exact H. Qed.

Lemma preserves_record (c : Cmd) : preserves P (record c).
Proof. intros r H. now apply P_dynCmdBuf. Qed.

Lemma preserves_bind {A B} (c : M A) (k : A -> M B) :
  preserves P c -> (forall a, preserves P (k a)) -> preserves P (bind c k).
Proof.
  intros H1 H2 r H. unfold bind. specialize (H1 r H).
  destruct (c r) as [a r1]. now apply H2.
Qed.

Lemma preserves_if {A} (b : bool) (c1 c2 : M A) :
  preserves P c1 -> preserves P c2 -> preserves P (if b then c1 else c2).
Proof. destruct b; trivial. Qed.

Lemma preserves_for_loop (body : Z -> M unit) :
  (forall i, preserves P (body i)) ->
  forall (trips : nat) (i : Z), preserves P (for_loop trips i body).
Proof.
  intros Hbody. induction trips as [|trips IH]; intros i.
  - apply preserves_ret.
  - cbn [for_loop]. apply preserves_bind; [apply Hbody | intros _; apply IH].
Qed.

Lemma preserves_SetUniforms (ctx : DKNVGcontext) (offset image : Z) :
  preserves P (SetUniforms ctx offset image).
Proof.
  unfold SetUniforms.
  apply preserves_bind; [apply preserves_record | intros _].
  apply preserves_bind; [apply preserves_record | intros _].
  apply preserves_bind; [apply preserves_get | intros r0].
  destruct (FindTexture r0 image) as [texture|]; [|apply preserves_ret].
  apply preserves_bind; [apply P_acquire | intros slot].
  apply preserves_if; [apply preserves_ret | apply preserves_record].
Qed.

Ltac preserves_step :=
  first
    [ apply preserves_SetUniforms
    | apply preserves_record
    | apply preserves_ret
    | apply preserves_get
    | apply preserves_for_loop; intros ?
    | apply preserves_bind; [|intros ?]
    | apply preserves_if ].

Lemma preserves_dispatch (ctx : DKNVGcontext) (call : DKNVGcall) :
  preserves P (dispatch ctx call).
Proof.
  unfold dispatch, DrawFill, DrawConvexFill, DrawStroke, DrawTriangles,
    draw_fill_fans, draw_stroke_strips, for_upto.
  repeat preserves_step.
Qed.

Lemma preserves_Flush_call (ctx : DKNVGcontext) (i : Z) :
  preserves P (Flush_call ctx i).
Proof.
  intros r H. rewrite Flush_call_unfold. cbv zeta. cbn [snd].
  apply P_queue, P_dynCmdBuf, P_dynCmdMem, preserves_dispatch, P_dynCmdBuf, H.
Qed.

Lemma preserves_Flush (ctx : DKNVGcontext) : preserves P (Flush ctx).
Proof.
  unfold Flush.
  apply preserves_bind; [|intros _; apply preserves_ret].
  apply preserves_if; [|apply preserves_ret].
  apply preserves_bind; [intros r H; now apply P_dynCmdBuf | intros _].
  apply preserves_bind; [intros r H; now apply P_vertexBuffer | intros _].
  unfold for_upto.
  repeat (apply preserves_bind; [first [apply preserves_record | apply preserves_get]
                                | intros ?]).
  apply preserves_for_loop. intros i. apply preserves_Flush_call.
Qed.

End Preservation.

(** ** Runs of the public operations *)

Section PublicRuns.

Lemma allocator_inv_frame (r r' : DkRenderer) :
  imageDescriptorMappings r' = imageDescriptorMappings r ->
  lastImageDescriptor r' = lastImageDescriptor r ->
  allocator_inv r -> allocator_inv r'.
Proof.
  unfold allocator_inv, allocator_wf, window_unique. intros -> ->. trivial.
Qed.

Lemma preserves_allocator_inv_Acquire (texture : Texture) (image : Z) :
  preserves allocator_inv (AcquireImageDescriptor texture image).
Proof.
  intros r [Hwf Huniq]. now apply AcquireImageDescriptor_invariant.
Qed.

Lemma preserves_allocator_inv_Flush (ctx : DKNVGcontext) :
  preserves allocator_inv (Flush ctx).
Proof.
  apply preserves_Flush;
    try (intros v r; apply allocator_inv_frame; reflexivity).
  apply preserves_allocator_inv_Acquire.
Qed.

Lemma CreateTexture_allocator (type w h imageFlags data : Z) (r : DkRenderer) :
  imageDescriptorMappings (snd (CreateTexture type w h imageFlags data r))
  = imageDescriptorMappings r
  /\ lastImageDescriptor (snd (CreateTexture type w h imageFlags data r))
     = lastImageDescriptor r.
Proof.
  unfold CreateTexture, Texture_Initialize, UpdateImage, bind, get, modify, ret,
    queue_submitCommands, queue_waitIdle.
  destruct (data =? 0); split; reflexivity.
Qed.

(** [UpdateTexture] changes nothing but the queue. *)
Lemma UpdateTexture_state (image x y w h data : Z) (r : DkRenderer) :
  snd (UpdateTexture image x y w h data r)
  = set_queue (queue (snd (UpdateTexture image x y w h data r))) r.
Proof.
  unfold UpdateTexture, UpdateImage, bind, get, modify, ret,
    queue_submitCommands, queue_waitIdle.
  destruct r as [vw vh buf mem q vb nid ts m last].
  destruct (FindTexture _ image) as [texture|]; [|reflexivity].
  destruct (_ =? 0); reflexivity.
Qed.

Lemma preserves_allocator_inv_public (op : PublicOp) :
  preserves allocator_inv (do_public op).
Proof.
  intros r Hinv. destruct op as [type w h imageFlags data|image|image x y w h data|ctx];
    cbn [do_public]; unfold bind, ret.
  - destruct (CreateTexture_allocator type w h imageFlags data r) as [Hm Hl].
    destruct (CreateTexture type w h imageFlags data r) as [id r1]. cbn [snd] in *.
    now apply (allocator_inv_frame r).
  - pose proof (DeleteTexture_unfold image r) as Hd.
    destruct (DeleteTexture image r) as [res r1]. cbn [snd].
    injection Hd as _ ->.
    set (r0 := set_textures _ r).
    destruct (allocator_inv_frame r r0 eq_refl eq_refl Hinv) as [Hwf Huniq].
    exact (FreeImageDescriptor_invariant image r0 Hwf Huniq).
  - pose proof (UpdateTexture_state image x y w h data r) as Hu.
    destruct (UpdateTexture image x y w h data r) as [res r1]. cbn [snd] in *.
    rewrite Hu. now apply (allocator_inv_frame r).
  - pose proof (preserves_allocator_inv_Flush ctx r Hinv) as Hf.
    destruct (Flush ctx r) as [ctx1 r1]. exact Hf.
Qed.

Lemma run_public_cons (op : PublicOp) (ops : list PublicOp) (r : DkRenderer) :
  snd (run_public (op :: ops) r) = snd (run_public ops (snd (do_public op r))).
Proof.
  cbn [run_public]. unfold bind. destruct (do_public op r) as [u r1]. reflexivity.
Qed.

(** (X15) Memory safety of the slot table over the public interface.  In
    every state reached from the constructed renderer by CreateTexture,
    DeleteTexture, UpdateTexture and Flush, in any order and with any
    arguments and frames, the mapping array has its [MaxImages] entries and
    the high-water mark is a slot index, so both scans index the array
    inside its bounds; and no two slots up to the mark map the same texture
    id. *)
Theorem run_public_allocator_inv (vw vh : Z) (ops : list PublicOp) :
  let r := snd (run_public ops (DkRenderer_new vw vh)) in
  length (imageDescriptorMappings r) = Z.to_nat MaxImages
  /\ 0 <= lastImageDescriptor r < MaxImages
  /\ window_unique r.
Proof.
  cbv zeta.
  assert (H : forall r0, allocator_inv r0 -> allocator_inv (snd (run_public ops r0))).
  { induction ops as [|op ops IH]; intros r0 H0; [exact H0|].
    rewrite run_public_cons. apply IH. now apply preserves_allocator_inv_public. }
  destruct (H (DkRenderer_new vw vh) (DkRenderer_new_invariant vw vh))
    as [[Hlen Hlast] Huniq].
  split; [exact Hlen | split; [exact Hlast | exact Huniq]].
Qed.

Lemma same_registry_frame (r r1 r2 : DkRenderer) :
  textures r2 = textures r1 -> nextTextureId r2 = nextTextureId r1 ->
  same_registry r r1 -> same_registry r r2.
Proof. unfold same_registry. intros -> ->. trivial. Qed.

Lemma preserves_same_registry_Acquire (r : DkRenderer) (texture : Texture) (image : Z) :
  preserves (same_registry r) (AcquireImageDescriptor texture image).
Proof.
  intros r1 H. rewrite AcquireImageDescriptor_unfold.
  destruct (acquire_scan _ _ _ _ _ _) as [d|f]; [exact H|].
  destruct (f >=? MaxImages); exact H.
Qed.

Lemma Flush_same_registry (ctx : DKNVGcontext) (r : DkRenderer) :
  same_registry r (snd (Flush ctx r)).
Proof.
  apply (preserves_Flush (same_registry r));
    try (intros v r1; apply same_registry_frame; reflexivity).
  - apply preserves_same_registry_Acquire.
  - split; reflexivity.
Qed.

(** (X16) Drawing and uploading never touch the registry: after [Flush],
    whatever the frame, and after [UpdateTexture], whatever its arguments,
    the registered textures and the id counter are the ones before, so every
    id resolves to the same texture and [GetTextureSize] answers the same. *)
Theorem Flush_UpdateTexture_keep_registry (ctx : DKNVGcontext)
    (image x y w h data : Z) (r : DkRenderer) :
  let rf := snd (Flush ctx r) in
  let ru := snd (UpdateTexture image x y w h data r) in
  textures rf = textures r /\ nextTextureId rf = nextTextureId r
  /\ textures ru = textures r /\ nextTextureId ru = nextTextureId r
  /\ (forall id, FindTexture rf id = FindTexture r id
                 /\ FindTexture ru id = FindTexture r id)
  /\ (forall id w0 h0, GetTextureSize rf id w0 h0 = GetTextureSize r id w0 h0
                       /\ GetTextureSize ru id w0 h0 = GetTextureSize r id w0 h0).
Proof.
  cbv zeta. destruct (Flush_same_registry ctx r) as [Ht Hn].
  pose proof (UpdateTexture_state image x y w h data r) as Hu.
  assert (Htu : textures (snd (UpdateTexture image x y w h data r)) = textures r)
    by (rewrite Hu; reflexivity).
  assert (Hnu : nextTextureId (snd (UpdateTexture image x y w h data r))
                = nextTextureId r) by (rewrite Hu; reflexivity).
  split; [exact Ht|]. split; [exact Hn|]. split; [exact Htu|]. split; [exact Hnu|].
  split.
  - intros id. unfold FindTexture. now rewrite Ht, Htu.
  - intros id w0 h0. unfold GetTextureSize, GetTextureDescriptor. now rewrite Ht, Htu.
Qed.

Lemma Flush_loop_ends_empty (ctx : DKNVGcontext) (trips : nat) :
  forall (i : Z) (r : DkRenderer),
    dynCmdBuf (snd (for_loop (S trips) i (Flush_call ctx) r)) = [].
Proof.
  induction trips as [|trips IH]; intros i r.
  - destruct (Flush_call_submits ctx i r) as (body & _ & _ & Hempty).
    cbn [for_loop]. unfold bind, ret.
    destruct (Flush_call ctx i r) as [u r1]. exact Hempty.
  - change (for_loop (S (S trips)) i (Flush_call ctx))
      with (Flush_call ctx i ;;; for_loop (S trips) (i + 1) (Flush_call ctx)).
    unfold bind. destruct (Flush_call ctx i r) as [u r1]. apply IH.
Qed.

(** (X17) [Flush] ends the frame.  It returns the context with the four
    counters reset and the size, flags and arrays kept; when the frame had
    calls, no recorded command is left unsubmitted; and a second [Flush]
    right after it submits nothing and changes nothing. *)
Theorem Flush_ends_frame (ctx : DKNVGcontext) (r : DkRenderer) :
  let ctx1 := fst (Flush ctx r) in
  let r1 := snd (Flush ctx r) in
  ncalls ctx1 = 0 /\ npaths ctx1 = 0 /\ nverts ctx1 = 0 /\ nuniforms ctx1 = 0
  /\ fragSize ctx1 = fragSize ctx /\ ctx_flags ctx1 = ctx_flags ctx
  /\ calls ctx1 = calls ctx /\ paths ctx1 = paths ctx
  /\ (0 < ncalls ctx -> dynCmdBuf r1 = [])
  /\ Flush ctx1 r1 = (ctx1, r1).
Proof.
  cbv zeta.
  assert (Hfst : fst (Flush ctx r) = reset_calls ctx).
  { unfold Flush. unfold bind at 1.
    match goal with |- fst (let (_, _) := ?c in _) = _ => destruct c end.
    reflexivity. }
  rewrite Hfst. cbn [reset_calls ncalls npaths nverts nuniforms fragSize ctx_flags
                      calls paths].
  repeat (split; [reflexivity|]). split.
  - intros Hpos. unfold Flush.
    replace (ncalls ctx >? 0) with true by (symmetry; apply Z.gtb_lt; lia).
    unfold for_upto.
    destruct (Z.to_nat (ncalls ctx)) as [|trips] eqn:Htrips; [lia|].
    unfold dynCmdMem_begin, UpdateVertexBuffer, record, modify, get, bind, ret.
    cbn [fst snd].
    match goal with
    | |- context [for_loop (S trips) 0 (Flush_call ctx) ?st] =>
        pose proof (Flush_loop_ends_empty ctx trips 0 st) as Hend;
        destruct (for_loop (S trips) 0 (Flush_call ctx) st) as [u r2]
    end.
    exact Hend.
  - unfold Flush at 1, reset_calls at 1. cbn [ncalls].
    unfold bind, ret. cbn. reflexivity.
Qed.

End PublicRuns.

(** ** What the dispatcher binds *)

Section DispatchCoverage.

(** The list being recorded does not influence an acquisition. *)
Lemma AcquireImageDescriptor_dynCmdBuf (texture : Texture) (image : Z)
    (b : list Cmd) (r : DkRenderer) :
  AcquireImageDescriptor texture image (set_dynCmdBuf b r)
  = (fst (AcquireImageDescriptor texture image r),
     set_dynCmdBuf (b ++ recorded_by (AcquireImageDescriptor texture image) r)
       (snd (AcquireImageDescriptor texture image r))).
Proof.
  unfold recorded_by. rewrite !AcquireImageDescriptor_unfold.
  cbn [set_dynCmdBuf imageDescriptorMappings lastImageDescriptor].
  destruct (acquire_scan _ _ _ _ _ _) as [d|f]; cbn [fst snd].
  - now rewrite drop_all, app_nil_r.
  - destruct (f >=? MaxImages); cbn [fst snd dynCmdBuf].
    + now rewrite drop_all, app_nil_r.
    + rewrite drop_app_length. reflexivity.
Qed.

(** (X18) The texture path of [SetUniforms].  When the image id is
    registered and a slot can be acquired, the call records the uniform
    binding, then what the acquisition records (nothing on a cache hit, the
    descriptor update and barrier on a miss), then one [bindTextures] whose
    handle pairs the acquired slot with the sampler preset selected by the
    texture's flags; the slot is inside the table and maps the image id
    afterwards, and the registry (the textures and the id counter) is
    untouched. *)
Theorem SetUniforms_binds_texture (ctx : DKNVGcontext) (offset image : Z)
    (texture : Texture) (r : DkRenderer) :
  allocator_wf r ->
  FindTexture r image = Some texture ->
  fst (AcquireImageDescriptor texture image r) <> -1 ->
  let s := fst (AcquireImageDescriptor texture image r) in
  let r' := snd (SetUniforms ctx offset image r) in
  recorded_by (SetUniforms ctx offset image) r
  = uniform_binding ctx offset
    ++ recorded_by (AcquireImageDescriptor texture image) r
    ++ [BindTextures DkStage_Fragment
          (dkMakeTextureHandle s
             (samplerId_of_flags (tex_flags (textureDescriptor texture))))]
  /\ 0 <= s < MaxImages
  /\ mapping_at (imageDescriptorMappings r') s = image
  /\ textures r' = textures r
  /\ nextTextureId r' = nextTextureId r.
Proof.
  intros Hwf Hfind Hok s r'.
  assert (HSU : snd (SetUniforms ctx offset image r)
                = set_dynCmdBuf
                    (dynCmdBuf r ++ uniform_binding ctx offset
                     ++ recorded_by (AcquireImageDescriptor texture image) r
                     ++ [BindTextures DkStage_Fragment
                           (dkMakeTextureHandle s
                              (samplerId_of_flags (tex_flags (textureDescriptor texture))))])
                    (snd (AcquireImageDescriptor texture image r))).
  { unfold SetUniforms, bind, record, modify, get. cbn [fst snd].
    change (FindTexture (set_dynCmdBuf _ (set_dynCmdBuf _ r)) image)
      with (FindTexture r image).
    rewrite Hfind.
    change (set_dynCmdBuf ?b (set_dynCmdBuf ?a r)) with (set_dynCmdBuf b r).
    rewrite AcquireImageDescriptor_dynCmdBuf. fold s.
    replace (s =? -1) with false by (symmetry; now apply Z.eqb_neq).
    cbn [snd set_dynCmdBuf dynCmdBuf uniform_binding]. unfold samplerId_of_flags.
    match goal with
    | |- set_dynCmdBuf ?a (set_dynCmdBuf ?b ?x) = _ =>
        change (set_dynCmdBuf a (set_dynCmdBuf b x)) with (set_dynCmdBuf a x)
    end.
    f_equal. rewrite <- !app_assoc. reflexivity. }
  subst r'. rewrite HSU.
  split; [|split; [|split; [|split]]].
  - unfold recorded_by at 1. rewrite HSU. cbn [dynCmdBuf set_dynCmdBuf].
    now rewrite drop_app_length.
  - subst s.
    destruct (AcquireImageDescriptor_cases texture image r Hwf)
      as [(d & Hd & Hm & Heq)|[(_ & _ & Heq)|(f & _ & _ & Hf & Heq)]];
      rewrite Heq in Hok |- *; cbn [fst] in *; [|congruence|exact Hf].
    destruct Hwf as [_ Hlast]. lia.
  - subst s. cbn [imageDescriptorMappings set_dynCmdBuf].
    destruct (AcquireImageDescriptor_cases texture image r Hwf)
      as [(d & Hd & Hm & Heq)|[(_ & _ & Heq)|(f & _ & _ & Hf & Heq)]];
      rewrite Heq in Hok |- *; cbn [fst snd imageDescriptorMappings] in *;
      [exact Hm|congruence|].
    destruct Hwf as [Hlen _]. apply mapping_at_insert_eq; [lia | rewrite Hlen; lia].
  - cbn [textures set_dynCmdBuf]. rewrite AcquireImageDescriptor_unfold.
    destruct (acquire_scan _ _ _ _ _ _) as [d|f]; [reflexivity|].
    destruct (f >=? MaxImages); reflexivity.
  - cbn [nextTextureId set_dynCmdBuf]. rewrite AcquireImageDescriptor_unfold.
    destruct (acquire_scan _ _ _ _ _ _) as [d|f]; [reflexivity|].
    destruct (f >=? MaxImages); reflexivity.
Qed.

Lemma SetUniforms_binds_texture_witness :
  let flags := Z.lor NVG_IMAGE_REPEATX NVG_IMAGE_NEAREST in
  let r := snd (CreateTexture NVG_TEXTURE_RGBA 16 16 flags 0 (DkRenderer_new 1280 720)) in
  let texture := mkTexture 1 (mkTextureDescriptor 16 16 NVG_TEXTURE_RGBA flags) in
  let ctx := mkContext 180 NVG_ANTIALIAS [] 0 [] 0 0 0 in
  allocator_wf r
  /\ FindTexture r 1 = Some texture
  /\ fst (AcquireImageDescriptor texture 1 r) <> -1
  /\ recorded_by (SetUniforms ctx 0 1) r
     = uniform_binding ctx 0
       ++ recorded_by (AcquireImageDescriptor texture 1) r
       ++ [BindTextures DkStage_Fragment
             (dkMakeTextureHandle (fst (AcquireImageDescriptor texture 1 r))
                (samplerId_of_flags (tex_flags (textureDescriptor texture))))]
  /\ 0 <= fst (AcquireImageDescriptor texture 1 r) < MaxImages
  /\ mapping_at (imageDescriptorMappings (snd (SetUniforms ctx 0 1 r)))
       (fst (AcquireImageDescriptor texture 1 r)) = 1
  /\ textures (snd (SetUniforms ctx 0 1 r)) = textures r
  /\ nextTextureId (snd (SetUniforms ctx 0 1 r)) = nextTextureId r.
Proof.
  intros flags r texture ctx.
  assert (Hwf : allocator_wf r).
  { split; [vm_compute; reflexivity|].
    change (lastImageDescriptor r) with 0. unfold MaxImages. lia. }
  assert (Hfind : FindTexture r 1 = Some texture) by reflexivity.
  assert (Hok : fst (AcquireImageDescriptor texture 1 r) <> -1)
    by (vm_compute; discriminate).
  split; [exact Hwf|]. split; [exact Hfind|]. split; [exact Hok|].
  exact (SetUniforms_binds_texture ctx 0 1 texture r Hwf Hfind Hok).
Defined.

Lemma stencil_DrawConvexFill_loop (ctx : DKNVGcontext) (call : DKNVGcall)
    (b : DepthStencilState) :
  stencil_run
    (for_upto (pathCount call) (fun i =>
       record (Draw DkPrimitive_TriangleFan
                 (fillCount (path_at ctx call i)) 1 (fillOffset (path_at ctx call i)) 0) ;;;
       if strokeCount (path_at ctx call i) >? 0
       then record (Draw DkPrimitive_TriangleStrip
                      (strokeCount (path_at ctx call i)) 1
                      (strokeOffset (path_at ctx call i)) 0)
       else ret tt))
    b (under b (flat_map (convex_path_draws ctx call) (path_indices call))) b.
Proof.
  intros r. exists (flat_map (convex_path_draws ctx call) (path_indices call)). split.
  - apply (records_for_upto _ (convex_path_draws ctx call)). intros i r'.
    unfold convex_path_draws, fill_fan, stroke_strip.
    destruct (strokeCount (path_at ctx call i) >? 0).
    + apply (records_bind _ _ _ [_] [_]); apply records_record.
    + apply (records_bind _ _ _ [_] []); [apply records_record | apply records_ret].
  - apply draws_under, convex_all_draws.
Qed.

Ltac stencil_pass :=
  first
    [ apply stencil_SetUniforms
    | apply stencil_draw_stroke_strips
    | apply stencil_draw_fill_fans
    | apply stencil_bind_state
    | apply stencil_record_draw
    | apply stencil_record_neutral; reflexivity
    | apply stencil_ret
    | eapply stencil_seq ].

(** (X19) Only a Fill and a stencil Stroke bind depth-stencil states.  For
    every other call (a ConvexFill, a Stroke without the stencil-strokes
    flag, a Triangles call, a call of an unknown type) the dispatcher binds
    none: the draws of the call are issued under the state bound beforehand,
    and that state is still bound afterwards. *)
Theorem dispatch_keeps_stencil_state (ctx : DKNVGcontext) (call : DKNVGcall)
    (b : DepthStencilState) :
  call_type call <> DKNVG_FILL ->
  (call_type call = DKNVG_STROKE ->
   has_flag (ctx_flags ctx) NVG_STENCIL_STROKES = false) ->
  stencil_run (dispatch ctx call) b (under b (call_draws ctx call)) b.
Proof.
  intros Hfill Hstroke. unfold dispatch, call_draws.
  destruct (Z.eqb_spec (call_type call) DKNVG_FILL) as [Heq|_]; [contradiction|].
  destruct (call_type call =? DKNVG_CONVEXFILL).
  - unfold DrawConvexFill.
    eapply stencil_eq;
      [eapply stencil_seq; [apply stencil_SetUniforms | apply stencil_DrawConvexFill_loop]
      | reflexivity].
  - destruct (Z.eqb_spec (call_type call) DKNVG_STROKE) as [Heq|_].
    + unfold DrawStroke. rewrite (Hstroke Heq).
      eapply stencil_eq; [repeat stencil_pass | reflexivity].
    + destruct (call_type call =? DKNVG_TRIANGLES).
      * unfold DrawTriangles. eapply stencil_eq; [repeat stencil_pass | reflexivity].
      * apply stencil_ret.
Qed.

Lemma dispatch_keeps_stencil_state_witness :
  let ctx := mkContext 180 NVG_ANTIALIAS [] 0 [mkPath 0 6 6 14] 1 26 2 in
  let call := mkCall DKNVG_STROKE 0 0 1 0 0 0 (mkBlend 1 2 3 4) in
  call_type call <> DKNVG_FILL
  /\ (call_type call = DKNVG_STROKE ->
      has_flag (ctx_flags ctx) NVG_STENCIL_STROKES = false)
  /\ stencil_run (dispatch ctx call) fill_cover_state
       (under fill_cover_state (call_draws ctx call)) fill_cover_state.
Proof.
  intros ctx call.
  assert (H1 : call_type call <> DKNVG_FILL) by discriminate.
  assert (H2 : call_type call = DKNVG_STROKE ->
               has_flag (ctx_flags ctx) NVG_STENCIL_STROKES = false)
    by (intros _; reflexivity).
  split; [exact H1|]. split; [exact H2|].
  exact (dispatch_keeps_stencil_state ctx call fill_cover_state H1 H2).
Defined.

(** (X20) Without the antialias flag a Fill has two passes, not three: the
    fans are drawn under the winding state and the cover strip under the
    not-equal/zero state; no draw is issued under the stencil-equal state,
    and the default state is left bound. *)
Theorem DrawFill_no_antialias_stencil_states (ctx : DKNVGcontext) (call : DKNVGcall)
    (b : DepthStencilState) :
  has_flag (ctx_flags ctx) NVG_ANTIALIAS = false ->
  stencil_run (DrawFill ctx call) b
    (under fill_winding_state (fill_fans ctx call)
     ++ [(cover_strip call, fill_cover_state)])
    DepthStencilState_default.
Proof.
  intros Hflag. unfold DrawFill. rewrite Hflag.
  eapply stencil_eq; [repeat stencil_pass|].
  cbn [app]. rewrite ?app_nil_r. reflexivity.
Qed.

Lemma DrawFill_no_antialias_stencil_states_witness :
  let ctx := mkContext 180 NVG_STENCIL_STROKES [] 0 [mkPath 0 6 6 14] 1 26 2 in
  let call := mkCall DKNVG_FILL 0 0 1 20 4 0 (mkBlend 1 2 3 4) in
  has_flag (ctx_flags ctx) NVG_ANTIALIAS = false
  /\ stencil_run (DrawFill ctx call) DepthStencilState_default
       (under fill_winding_state (fill_fans ctx call)
        ++ [(cover_strip call, fill_cover_state)])
       DepthStencilState_default.
Proof.
  split; [reflexivity|].
  apply DrawFill_no_antialias_stencil_states. reflexivity.
Defined.

End DispatchCoverage.

(** ** Creation and upload *)

Section CreateCoverage.

Lemma int_mul_0_l (a : Z) : int_mul 0 a = 0.
Proof. unfold int_mul. rewrite Z.mul_0_l. reflexivity. Qed.

Lemma CreateTexture_unfold (type w h imageFlags data : Z) (r : DkRenderer) :
  CreateTexture type w h imageFlags data r
  = (nextTextureId r,
     let texture :=
       mkTexture (nextTextureId r) (mkTextureDescriptor w h type imageFlags) in
     let copy :=
       [CopyBufferToImage (nextTextureId r) data
          (to_size_t (int_mul (int_mul w h) (bytes_per_pixel type)))
          0 0 0 (to_uint32 w) (to_uint32 h) 1] in
     set_textures (textures r ++ [texture])
       (set_queue (if data =? 0 then queue r else queue r ++ [copy])
          (set_nextTextureId (int_wrap (nextTextureId r + 1)) r))).
Proof.
  unfold CreateTexture, Texture_Initialize, UpdateImage, bind, get, modify, ret,
    queue_submitCommands, queue_waitIdle, bytes_per_pixel.
  destruct r as [vw vh buf mem q vb nid ts m last].
  destruct (data =? 0); cbn; [reflexivity|].
  destruct (type =? NVG_TEXTURE_RGBA); [reflexivity|].
  now rewrite int_mul_one.
Qed.

(** (X21) Creating a texture with pixel data for which the upload is
    defined ([UpdateImage_returns]: [w] and [h] not negative, [w * h *
    bytes-per-pixel] within [int] and the scratch pool, that many bytes
    readable at [data]) uploads the whole image in one copy, and uploading
    the whole image again through [UpdateTexture] (row 0, all [h] rows, the
    same data) submits exactly that copy a second time, whatever [x] and [w]
    are passed; creation with null data uploads nothing.  The new id is
    taken not to be borne by a registered texture already. *)
Theorem CreateTexture_then_UpdateTexture (host : Host) (r : DkRenderer)
    (type w h imageFlags data x w' : Z) :
  (forall t, In t (textures r) -> Texture_id t <> nextTextureId r) ->
  UpdateImage_returns host type w h data = true ->
  let id := fst (CreateTexture type w h imageFlags data r) in
  let r1 := snd (CreateTexture type w h imageFlags data r) in
  let copy :=
    [CopyBufferToImage id data (w * h * bytes_per_pixel type)
       0 0 0 (to_uint32 w) (to_uint32 h) 1] in
  (data = 0 -> queue r1 = queue r)
  /\ (data <> 0 ->
      queue r1 = queue r ++ [copy]
      /\ UpdateTexture_returns host
           (mkTexture id (mkTextureDescriptor w h type imageFlags)) 0 h data = true
      /\ UpdateTexture id x 0 w' h data r1 = (1, set_queue (queue r1 ++ [copy]) r1)).
Proof.
  intros Hfresh Hret. rewrite CreateTexture_unfold. cbv zeta. cbn [fst snd].
  set (texture := mkTexture (nextTextureId r) (mkTextureDescriptor w h type imageFlags)).
  split.
  - intros ->. reflexivity.
  - intros Hdata.
    destruct (UpdateImage_returns_data _ _ _ _ _ Hret Hdata)
      as (Hpos & Hw & Hh & Hsize & _).
    assert (Hbytes : to_size_t (int_mul (int_mul w h) (bytes_per_pixel type))
                     = w * h * bytes_per_pixel type).
    { rewrite int_mul_pixel_bytes by exact Hsize.
      unfold to_size_t. apply Z.mod_small. unfold INT_MAX in Hsize. lia. }
    rewrite Hbytes.
    replace (data =? 0) with false by (symmetry; now apply Z.eqb_neq).
    split; [reflexivity|].
    assert (Hupd : UpdateTexture_returns host texture 0 h data = true).
    { unfold UpdateTexture_returns. cbv zeta. subst texture.
      cbn [textureDescriptor tex_type tex_width].
      rewrite pixel_bytes_bpp. rewrite !Z.mul_0_l, Z.add_0_r.
      replace (data =? 0) with false by (symmetry; now apply Z.eqb_neq).
      rewrite Hret. replace (0 <? data) with true by (symmetry; now apply Z.ltb_lt).
      reflexivity. }
    split; [exact Hupd|].
    match goal with
    | |- UpdateTexture _ _ _ _ _ _ ?st = _ => set (r1 := st)
    end.
    assert (Hfind : FindTexture r1 (nextTextureId r) = Some texture).
    { unfold FindTexture. subst r1. cbn [textures set_textures].
      now apply find_texture_app_new. }
    rewrite (UpdateTexture_registered r1 (nextTextureId r) x 0 w' h data texture Hfind).
    cbv zeta. subst texture. cbn [textureDescriptor tex_type tex_width Texture_id].
    rewrite !int_mul_0_l, Z.add_0_r, Hbytes.
    replace (data =? 0) with false by (symmetry; now apply Z.eqb_neq).
    reflexivity.
Qed.

Lemma CreateTexture_then_UpdateTexture_witness :
  let host := mkHost 0x100000 (fun p n => (4096 <=? p) && (p + n <=? 4096 + 8192)) in
  let r := DkRenderer_new 1280 720 in
  (forall t, In t (textures r) -> Texture_id t <> nextTextureId r)
  /\ UpdateImage_returns host NVG_TEXTURE_RGBA 64 32 4096 = true
  /\ (4096 = 0 -> queue (snd (CreateTexture NVG_TEXTURE_RGBA 64 32 0 4096 r)) = queue r)
  /\ (4096 <> 0 ->
      queue (snd (CreateTexture NVG_TEXTURE_RGBA 64 32 0 4096 r))
      = queue r ++ [[CopyBufferToImage 1 4096 8192 0 0 0 64 32 1]]
      /\ UpdateTexture_returns host
           (mkTexture 1 (mkTextureDescriptor 64 32 NVG_TEXTURE_RGBA 0)) 0 32 4096 = true
      /\ UpdateTexture 1 5 0 20 32 4096 (snd (CreateTexture NVG_TEXTURE_RGBA 64 32 0 4096 r))
         = (1, set_queue
                 (queue (snd (CreateTexture NVG_TEXTURE_RGBA 64 32 0 4096 r))
                  ++ [[CopyBufferToImage 1 4096 8192 0 0 0 64 32 1]])
                 (snd (CreateTexture NVG_TEXTURE_RGBA 64 32 0 4096 r)))).
Proof.
  intros host r.
  assert (Hfresh : forall t, In t (textures r) -> Texture_id t <> nextTextureId r)
    by (intros t []).
  assert (Hret : UpdateImage_returns host NVG_TEXTURE_RGBA 64 32 4096 = true)
    by (vm_compute; reflexivity).
  split; [exact Hfresh|]. split; [exact Hret|].
  exact (CreateTexture_then_UpdateTexture host r NVG_TEXTURE_RGBA 64 32 0 4096 5 20
           Hfresh Hret).
Defined.

(** (X22) [Create] returns 1, picks the antialiasing fragment shader
    exactly when the antialias flag is set, and sets the context's
    [fragSize] to the uniform block size rounded to the next multiple of 4
    strictly above the size of [DKNVGfragUniforms]: a size that is a
    multiple of 4 already still grows by 4 (176 gives 180).  Nothing else of
    the context changes.  The size is taken to leave the rounded size within
    [int], the type of [fragSize]. *)
Theorem Create_fragSize (sizeof_DKNVGfragUniforms : Z) (ctx : DKNVGcontext) :
  0 <= sizeof_DKNVGfragUniforms <= INT_MAX - 4 ->
  let ctx' := snd (Create sizeof_DKNVGfragUniforms ctx) in
  fst (fst (Create sizeof_DKNVGfragUniforms ctx)) = 1
  /\ (snd (fst (Create sizeof_DKNVGfragUniforms ctx)) = fill_aa_fsh
      <-> has_flag (ctx_flags ctx) NVG_ANTIALIAS = true)
  /\ fragSize ctx' = 4 * (sizeof_DKNVGfragUniforms / 4) + 4
  /\ fragSize ctx' mod 4 = 0
  /\ sizeof_DKNVGfragUniforms < fragSize ctx' <= sizeof_DKNVGfragUniforms + 4
  /\ ctx' = set_fragSize (fragSize ctx') ctx.
Proof.
  intros Hs. cbv zeta. unfold Create. cbn [fst snd].
  pose proof (Z.div_mod sizeof_DKNVGfragUniforms 4 ltac:(lia)) as Hdm.
  pose proof (Z.mod_pos_bound sizeof_DKNVGfragUniforms 4 ltac:(lia)) as Hm.
  assert (Hsize : int_wrap (FragmentUniformSize sizeof_DKNVGfragUniforms)
                  = 4 * (sizeof_DKNVGfragUniforms / 4) + 4).
  { unfold FragmentUniformSize, to_uint32, to_size_t. unfold INT_MAX in Hs.
    rewrite (Z.mod_small (sizeof_DKNVGfragUniforms + 4)) by lia.
    rewrite (Z.mod_small (_ - _) (2 ^ 64)) by lia.
    rewrite Z.mod_small by lia.
    rewrite int_wrap_small by (unfold INT_MAX; lia). lia. }
  split; [reflexivity|]. split.
  - destruct (has_flag (ctx_flags ctx) NVG_ANTIALIAS); split; congruence.
  - cbn [fragSize set_fragSize]. rewrite Hsize.
    split; [reflexivity|]. split.
    + replace (4 * (sizeof_DKNVGfragUniforms / 4) + 4)
        with ((sizeof_DKNVGfragUniforms / 4 + 1) * 4) by lia.
      apply Z.mod_mul. lia.
    + split; [lia | reflexivity].
Qed.

Lemma Create_fragSize_witness :
  let ctx := mkContext 0 NVG_ANTIALIAS [] 0 [] 0 0 0 in
  0 <= 176 <= INT_MAX - 4
  /\ fst (fst (Create 176 ctx)) = 1
  /\ (snd (fst (Create 176 ctx)) = fill_aa_fsh
      <-> has_flag (ctx_flags ctx) NVG_ANTIALIAS = true)
  /\ fragSize (snd (Create 176 ctx)) = 4 * (176 / 4) + 4
  /\ fragSize (snd (Create 176 ctx)) mod 4 = 0
  /\ 176 < fragSize (snd (Create 176 ctx)) <= 176 + 4
  /\ snd (Create 176 ctx) = set_fragSize (fragSize (snd (Create 176 ctx))) ctx.
Proof.
  intros ctx.
  assert (Hs : 0 <= 176 <= INT_MAX - 4) by (unfold INT_MAX; lia).
  split; [exact Hs|].
  exact (Create_fragSize 176 ctx Hs).
Defined.

End CreateCoverage.

(** ** The hex dump of debug.cpp *)

Section DebugOutput.

Import Debug.

Lemma append_empty_r (s : string) : s +:+ EmptyString = s.
Proof.
  induction s as [|c s IH]; [reflexivity|].
  change (String c (s +:+ EmptyString) = String c s). now f_equal.
Qed.

Lemma append_assoc (s1 s2 s3 : string) : (s1 +:+ s2) +:+ s3 = s1 +:+ s2 +:+ s3.
Proof.
  induction s1 as [|c s1 IH]; [reflexivity|].
  change (String c ((s1 +:+ s2) +:+ s3) = String c (s1 +:+ s2 +:+ s3)). now f_equal.
Qed.

Lemma substring_all (s : string) :
  forall n : nat, (String.length s <= n)%nat -> String.substring 0 n s = s.
Proof.
  induction s as [|c s IH]; intros n Hn.
  - destruct n; reflexivity.
  - destruct n as [|n]; cbn in Hn; [lia|]. cbn. rewrite IH by lia. reflexivity.
Qed.

Lemma vsnprintf_tmp_short (s : string) :
  (String.length s <= 64)%nat -> vsnprintf_tmp s = s.
Proof.
  intros Hs. unfold vsnprintf_tmp. apply substring_all. lia.
Qed.

Lemma OutputDebugString_short (s : string) (log : Log) :
  (String.length s <= 64)%nat -> OutputDebugString s log = log ++ [s].
Proof. intros Hs. unfold OutputDebugString. now rewrite vsnprintf_tmp_short. Qed.

Lemma text_of_snoc (log : Log) (m : string) : text_of (log ++ [m]) = text_of log +:+ m.
Proof.
  unfold text_of. induction log as [|x log IH]; cbn.
  - apply append_empty_r.
  - rewrite IH. now rewrite append_assoc.
Qed.

(** Each byte reads back from its two digits. *)
Lemma format_02x_digits (b : Byte.byte) :
  Ascii.eqb (hex_digit (Byte.to_N b / 16)) newline = false
  /\ unhex (hex_digit (Byte.to_N b / 16)) = Some (Byte.to_N b / 16)%N
  /\ unhex (hex_digit (Byte.to_N b mod 16)) = Some (Byte.to_N b mod 16)%N
  /\ Byte.of_N (16 * (Byte.to_N b / 16) + Byte.to_N b mod 16) = Some b.
Proof. destruct b; vm_compute; repeat split. Qed.

Lemma read_bytes_format_02x (b : Byte.byte) (tail : string) (bs : list Byte.byte) :
  read_bytes tail = Some bs ->
  read_bytes (format_02x b +:+ tail) = Some (b :: bs).
Proof.
  intros Htail. destruct (format_02x_digits b) as (Hnl & Hhi & Hlo & Hb).
  change (format_02x b +:+ tail)
    with (String (hex_digit (Byte.to_N b / 16))
            (String (hex_digit (Byte.to_N b mod 16)) (String space tail))).
  cbn [read_bytes]. rewrite Hnl. change (Ascii.eqb space space) with true. cbv iota.
  rewrite Hhi, Hlo, Htail, Hb. reflexivity.
Qed.

Lemma read_bytes_nl (tail : string) : read_bytes (nl +:+ tail) = read_bytes tail.
Proof. reflexivity. Qed.

Lemma format_02x_length (b : Byte.byte) : String.length (format_02x b) = 3%nat.
Proof. reflexivity. Qed.

Lemma dump_loop_text (bytes : list Byte.byte) :
  forall (count : Z) (log : Log),
  exists body,
    text_of (dump_loop bytes count log) = text_of log +:+ body
    /\ forall tail bs, read_bytes tail = Some bs ->
                       read_bytes (body +:+ tail) = Some (bytes ++ bs).
Proof.
  induction bytes as [|b bytes IH]; intros count log.
  - exists EmptyString. split; [symmetry; apply append_empty_r | trivial].
  - cbn [dump_loop].
    rewrite (OutputDebugString_short (format_02x b))
      by (rewrite format_02x_length; lia).
    destruct (Z.rem (int_wrap (count + 1)) 16 =? 0).
    + rewrite (OutputDebugString_short nl) by (cbn; lia).
      destruct (IH (int_wrap (count + 1)) ((log ++ [format_02x b]) ++ [nl]))
        as (body & Htext & Hread).
      exists (format_02x b +:+ nl +:+ body). split.
      * rewrite Htext, !text_of_snoc, !append_assoc. reflexivity.
      * intros tail bs Htail. rewrite !append_assoc.
        cbn [app]. apply read_bytes_format_02x.
        rewrite read_bytes_nl. now apply Hread.
    + destruct (IH (int_wrap (count + 1)) (log ++ [format_02x b]))
        as (body & Htext & Hread).
      exists (format_02x b +:+ body). split.
      * rewrite Htext, !text_of_snoc, !append_assoc. reflexivity.
      * intros tail bs Htail. rewrite !append_assoc.
        cbn [app]. apply read_bytes_format_02x. now apply Hread.
Qed.

Lemma OutputDebugBytes_unfold (buf : Z) (bytes : list Byte.byte) (log : Log) :
  buf <> 0 -> bytes <> [] ->
  OutputDebugBytes buf bytes log
  = dump_loop bytes 0 ((log ++ [header_columns]) ++ [header_rule]) ++ [nl].
Proof.
  intros Hbuf Hbytes. unfold OutputDebugBytes.
  replace (buf =? 0) with false by (symmetry; now apply Z.eqb_neq).
  replace (Z.of_nat (length bytes) =? 0) with false
    by (symmetry; apply Z.eqb_neq; destruct bytes; [congruence | cbn; lia]).
  cbn [orb].
  rewrite (OutputDebugString_short header_columns) by (vm_compute; lia).
  rewrite (OutputDebugString_short header_rule) by (vm_compute; lia).
  now rewrite (OutputDebugString_short nl) by (cbn; lia).
Qed.

(** (X23) The dump reads back.  For a non-null buffer of at least one byte,
    [OutputDebugBytes] appends to the debug channel the column header, the
    rule and a body from which the bytes can be read back exactly, in order:
    each byte is printed as two lowercase hexadecimal digits and a space,
    with line breaks in between. *)
Theorem OutputDebugBytes_round_trip (buf : Z) (bytes : list Byte.byte) (log : Log) :
  buf <> 0 -> bytes <> [] ->
  exists body,
    text_of (OutputDebugBytes buf bytes log)
    = text_of log +:+ header_columns +:+ header_rule +:+ body
    /\ read_bytes body = Some bytes.
Proof.
  intros Hbuf Hbytes. rewrite OutputDebugBytes_unfold by assumption.
  destruct (dump_loop_text bytes 0 ((log ++ [header_columns]) ++ [header_rule]))
    as (body & Htext & Hread).
  exists (body +:+ nl). split.
  - rewrite text_of_snoc, Htext, !text_of_snoc, !append_assoc. reflexivity.
  - rewrite (Hread nl []) by reflexivity. now rewrite app_nil_r.
Qed.

Lemma OutputDebugBytes_round_trip_witness :
  let bytes := [Byte.x00; Byte.x7f; Byte.xff; Byte.x0a] in
  4096 <> 0 /\ bytes <> []
  /\ exists body,
       text_of (OutputDebugBytes 4096 bytes [])
       = text_of [] +:+ header_columns +:+ header_rule +:+ body
       /\ read_bytes body = Some bytes.
Proof.
  intros bytes.
  assert (H1 : 4096 <> 0) by discriminate.
  assert (H2 : bytes <> []) by discriminate.
  split; [exact H1|]. split; [exact H2|].
  exact (OutputDebugBytes_round_trip 4096 bytes [] H1 H2).
Defined.

Lemma newline_after (c : Z) :
  0 <= c ->
  (c + 1) / 16 - c / 16 = if Z.rem (c + 1) 16 =? 0 then 1 else 0.
Proof.
  intros Hc. rewrite Z.rem_mod_nonneg by lia.
  pose proof (Z.div_mod c 16 ltac:(lia)) as H1.
  pose proof (Z.div_mod (c + 1) 16 ltac:(lia)) as H2.
  pose proof (Z.mod_pos_bound c 16 ltac:(lia)) as B1.
  pose proof (Z.mod_pos_bound (c + 1) 16 ltac:(lia)) as B2.
  destruct (Z.eqb_spec ((c + 1) mod 16) 0) as [H0|H0]; lia.
Qed.

Lemma dump_loop_length (bytes : list Byte.byte) :
  forall (count : Z) (log : Log),
    0 <= count -> count + Z.of_nat (length bytes) <= INT_MAX ->
    Z.of_nat (length (dump_loop bytes count log))
    = Z.of_nat (length log) + Z.of_nat (length bytes)
      + ((count + Z.of_nat (length bytes)) / 16 - count / 16).
Proof.
  induction bytes as [|b bytes IH]; intros count log Hc Hn.
  - cbn [dump_loop length]. change (Z.of_nat 0) with 0. rewrite !Z.add_0_r. lia.
  - cbn [dump_loop]. cbn [length] in Hn |- *.
    rewrite int_wrap_small by (unfold INT_MAX in *; lia).
    pose proof (newline_after count Hc) as Hnl.
    rewrite IH by lia. unfold OutputDebugString.
    destruct (Z.rem (count + 1) 16 =? 0); rewrite !length_app; cbn [length];
      replace (count + 1 + Z.of_nat (length bytes))
        with (count + Z.of_nat (S (length bytes))) by lia; lia.
Qed.

(** (X24) The number of debug messages.  With a null buffer or no byte,
    [OutputDebugBytes] sends nothing.  Otherwise it sends the two header
    lines, one message per byte, a line break after every sixteenth byte and
    a closing line break: 3 + len + len / 16 messages.  The length is taken
    to fit the [int] counter. *)
Theorem OutputDebugBytes_messages (buf : Z) (bytes : list Byte.byte) (log : Log) :
  Z.of_nat (length bytes) <= INT_MAX ->
  (buf = 0 \/ bytes = [] -> OutputDebugBytes buf bytes log = log)
  /\ (buf <> 0 -> bytes <> [] ->
      Z.of_nat (length (OutputDebugBytes buf bytes log))
      = Z.of_nat (length log) + 3 + Z.of_nat (length bytes)
        + Z.of_nat (length bytes) / 16).
Proof.
  intros Hn. split.
  - intros [-> | ->]; unfold OutputDebugBytes; [reflexivity|].
    cbn. now rewrite orb_true_r.
  - intros Hbuf Hbytes. rewrite OutputDebugBytes_unfold by assumption.
    rewrite length_app, Nat2Z.inj_add, dump_loop_length by lia.
    rewrite !length_app. cbn [length]. rewrite Z.add_0_l.
    change (0 / 16) with 0. lia.
Qed.

Lemma OutputDebugBytes_messages_witness :
  let bytes := replicate 20 Byte.x41 in
  Z.of_nat (length bytes) <= INT_MAX
  /\ (4096 = 0 \/ bytes = [] -> OutputDebugBytes 4096 bytes [] = [])
  /\ (4096 <> 0 -> bytes <> [] ->
      Z.of_nat (length (OutputDebugBytes 4096 bytes []))
      = Z.of_nat (length (@nil string)) + 3 + Z.of_nat (length bytes)
        + Z.of_nat (length bytes) / 16).
Proof.
  intros bytes.
  assert (Hn : Z.of_nat (length bytes) <= INT_MAX) by (vm_compute; discriminate).
  split; [exact Hn|].
  exact (OutputDebugBytes_messages 4096 bytes [] Hn).
Defined.

End DebugOutput.
